(** * Content aggregation of a fragments project

    A shallow embedding of [src/utils/get-project-content.js]: the scan of a
    project directory for collections, fragments, fragment compositions and
    page templates, the tolerant content loader, and the top-level
    [getProjectContent].

    The JavaScript runtime is modelled as follows.
    - The file system is a read-only tree ([node]); [fs.readFileSync],
      [fs.existsSync] and [glob.sync] are interpreted on it.
    - Paths are strings, handled by POSIX versions of [path.join],
      [path.resolve] and [path.basename].
    - A computation returns or throws, and records the calls it makes to
      the logger and to the file system ([M], a writer and error monad).
    - A template literal converts the values it interpolates to strings
      before the logger is called; the conversion throws on an object with
      an own [toString] key, which a JSON marker can hold ([template]).
    - [JSON.parse], [JSON.stringify] and the constants of [../utils/log] are
      fields of a [Runtime] record: every theorem holds for any of them.
    - [glob.sync] is interpreted on the tree for the patterns whose
      segments are a lone [*] or hold none of the special characters of
      [glob]; what it returns for any other pattern (a base path or a
      directory name may bring [?], [[], [{], [**], ...) is a field of
      [Runtime], of which nothing is assumed.

    Kept out of the model: symbolic links and permissions; the order in
    which [glob] sorts its matches, which is taken to be the order of the
    entries of a directory. *)

From Stdlib Require Import String Ascii List Bool ZArith QArith Lia.
From Stdlib Require DecimalString.
Import ListNotations.
Set Warnings "-register-all".
Local Open Scope list_scope.
Local Open Scope string_scope.

(** ** Strings and POSIX paths *)

Definition slash : ascii := "/"%char.

(** [s.split('/')] *)
Fixpoint split_slash (s : string) : list string :=
  match s with
  | EmptyString => [EmptyString]
  | String c s' =>
      if Ascii.eqb c slash then EmptyString :: split_slash s'
      else match split_slash s' with
           | [] => [String c EmptyString]
           | seg :: rest => String c seg :: rest
           end
  end.

(** [segs.join('/')] *)
Fixpoint join_slash (segs : list string) : string :=
  match segs with
  | [] => EmptyString
  | [seg] => seg
  | seg :: rest => seg ++ "/" ++ join_slash rest
  end.

(** Node's [normalizeString]: drops empty and ["."] segments and resolves
    [".."] against the segments kept so far ([acc], innermost first). *)
Fixpoint normalize_onto (allowAboveRoot : bool) (acc segs : list string)
  : list string :=
  match segs with
  | [] => rev acc
  | seg :: rest =>
      if (seg =? EmptyString) || (seg =? ".") then
        normalize_onto allowAboveRoot acc rest
      else if seg =? ".." then
        match acc with
        | top :: acc' =>
            if top =? ".." then normalize_onto allowAboveRoot (seg :: acc) rest
            else normalize_onto allowAboveRoot acc' rest
        | [] =>
            if allowAboveRoot then normalize_onto allowAboveRoot [seg] rest
            else normalize_onto allowAboveRoot [] rest
        end
      else normalize_onto allowAboveRoot (seg :: acc) rest
  end.

Definition normalizeString (allowAboveRoot : bool) (segs : list string)
  : list string :=
  normalize_onto allowAboveRoot [] segs.

Definition isAbsolute (p : string) : bool :=
  match p with
  | String c _ => Ascii.eqb c slash
  | EmptyString => false
  end.

Fixpoint last_char (s : string) : option ascii :=
  match s with
  | EmptyString => None
  | String c EmptyString => Some c
  | String _ s' => last_char s'
  end.

Definition trailingSeparator (p : string) : bool :=
  match last_char p with
  | Some c => Ascii.eqb c slash
  | None => false
  end.

(** [path.normalize(p)] *)
Definition path_normalize (p : string) : string :=
  if p =? EmptyString then "."
  else
    let body := join_slash (normalizeString (negb (isAbsolute p)) (split_slash p)) in
    let body :=
      if body =? EmptyString then
        (if isAbsolute p then EmptyString
         else if trailingSeparator p then "./" else ".")
      else if trailingSeparator p then body ++ "/" else body in
    if isAbsolute p then "/" ++ body else body.

(** [path.join(...args)]: the non-empty arguments, joined by ["/"] and
    normalized. *)
Definition path_join (args : list string) : string :=
  let parts := filter (fun a => negb (a =? EmptyString)) args in
  match parts with
  | [] => "."
  | _ => path_normalize (join_slash parts)
  end.

(** The segments of [path.resolve(...args)] under the working directory
    [cwd]: an absolute argument discards what is on its left, an empty one
    is skipped. *)
Definition resolve_step (acc p : string) : string :=
  if p =? EmptyString then acc
  else if isAbsolute p then p
  else acc ++ "/" ++ p.

Definition resolve_segments (cwd : string) (args : list string) : list string :=
  normalizeString false (split_slash (fold_left resolve_step args cwd)).

(** [path.resolve(...args)] *)
Definition path_resolve (cwd : string) (args : list string) : string :=
  "/" ++ join_slash (resolve_segments cwd args).

(** A name of one segment that [path.resolve] keeps as it is. *)
Fixpoint slash_free (s : string) : bool :=
  match s with
  | EmptyString => true
  | String c rest => negb (Ascii.eqb c slash) && slash_free rest
  end.

Definition simple_name (s : string) : bool :=
  slash_free s && negb (s =? EmptyString) && negb (s =? ".") && negb (s =? "..").

(** [path.basename(p)]: the last non-empty segment. *)
Definition path_basename (p : string) : string :=
  match filter (fun seg => negb (seg =? EmptyString)) (rev (split_slash p)) with
  | seg :: _ => seg
  | [] => EmptyString
  end.

(** ** The file system *)

(** A directory lists its entries in the order in which [glob] reports
    them. *)
Inductive node : Type :=
| File (data : string)
| Dir (entries : list (string * node)).

Fixpoint find_entry (name : string) (entries : list (string * node))
  : option node :=
  match entries with
  | [] => None
  | (n, x) :: rest => if n =? name then Some x else find_entry name rest
  end.

Fixpoint walk (n : node) (segs : list string) : option node :=
  match segs with
  | [] => Some n
  | seg :: rest =>
      match n with
      | File _ => None
      | Dir entries =>
          match find_entry seg entries with
          | Some child => walk child rest
          | None => None
          end
      end
  end.

(** ** JavaScript values *)

(** The values [JSON.parse] produces, and [undefined] for an absent
    property. *)
Inductive value : Type :=
| VUndefined
| VNull
| VBool (b : bool)
| VNumber (q : Q)
| VString (s : string)
| VArray (items : list value)
| VObject (props : list (string * value)).

(** ToBoolean, as [||], [&&] and [if] apply it. *)
Definition truthy (v : value) : bool :=
  match v with
  | VUndefined | VNull => false
  | VBool b => b
  | VNumber q => negb (Qeq_bool q 0)
  | VString s => negb (s =? EmptyString)
  | VArray _ | VObject _ => true
  end.

Fixpoint find_prop (key : string) (props : list (string * value)) : value :=
  match props with
  | [] => VUndefined
  | (k, v) :: rest => if k =? key then v else find_prop key rest
  end.

Definition has_key (key : string) (props : list (string * value)) : bool :=
  existsb (fun kv => fst kv =? key) props.

(** The values on which ToString, as a template literal applies it,
    returns. It throws a TypeError on an object with an own [toString] key
    (no value of JSON is callable, and [Object.prototype.valueOf] returns
    the object itself), and on an array that holds such a value:
    [Array.prototype.join] converts every element but [null] and
    [undefined]. *)
Fixpoint convertible (v : value) : bool :=
  match v with
  | VArray items =>
      forallb (fun item =>
                 match item with
                 | VUndefined | VNull => true
                 | _ => convertible item
                 end)
              items
  | VObject props => negb (has_key "toString" props)
  | _ => true
  end.

(** ** Computations: events, exceptions, and the monad *)

Inductive exn : Type :=
| FsError (code path : string)
| SyntaxError (text : string)
| TypeError (what : string).

(** A template literal, before string conversion: its chunks of text and
    the values interpolated between them. *)
Inductive piece : Type :=
| Text (s : string)
| Interp (v : value).

(** The options object of a [log] call; an absent key is [VUndefined]. *)
Record logOptions : Type := { level : value; newLine : value }.

Inductive event : Type :=
| Log (message : list piece) (options : option logOptions)
| ReadFile (path : string)
| Exists (path : string)
| Glob (pattern : string).

Inductive outcome (A : Type) : Type :=
| Returned (a : A)
| Thrown (e : exn).
Arguments Returned {A} a.
Arguments Thrown {A} e.

(** The events of a computation, in order, and how it ends. *)
Definition M (A : Type) : Type := list event * outcome A.

Definition ret {A} (a : A) : M A := ([], Returned a).
Definition throw {A} (e : exn) : M A := ([], Thrown e).
Definition emit (ev : event) : M unit := ([ev], Returned tt).

Definition bind {A B} (m : M A) (f : A -> M B) : M B :=
  match m with
  | (evs, Returned a) => let (evs', r) := f a in ((evs ++ evs')%list, r)
  | (evs, Thrown e) => (evs, Thrown e)
  end.

(** [try { m } catch (error) { handler }] *)
Definition try_catch {A} (m : M A) (handler : exn -> M A) : M A :=
  match m with
  | (evs, Thrown e) => let (evs', r) := handler e in ((evs ++ evs')%list, r)
  | (evs, Returned a) => (evs, Returned a)
  end.

Notation "x <- m ;; k" := (bind m (fun x => k))
  (at level 61, m at next level, right associativity).
Notation "m ;;; k" := (bind m (fun _ => k))
  (at level 61, right associativity).

Definition events {A} (m : M A) : list event := fst m.
Definition result {A} (m : M A) : outcome A := snd m.

(** [array.map(f)] with a callback that has effects: left to right, and a
    throw ends it. *)
Fixpoint array_map {A B} (f : A -> M B) (xs : list A) : M (list B) :=
  match xs with
  | [] => ret []
  | x :: rest =>
      y <- f x ;;
      ys <- array_map f rest ;;
      ret (y :: ys)
  end.

(** [array.filter(f)], likewise. *)
Fixpoint array_filter {A} (f : A -> M bool) (xs : list A) : M (list A) :=
  match xs with
  | [] => ret []
  | x :: rest =>
      keep <- f x ;;
      ys <- array_filter f rest ;;
      ret (if keep then x :: ys else ys)
  end.

Definition is_log (ev : event) : bool :=
  match ev with Log _ _ => true | _ => false end.

Definition is_fs_access (ev : event) : bool :=
  match ev with Log _ _ => false | _ => true end.

(** [metadata.key]: a property of an object, [undefined] on any other
    value, a TypeError on [null] and [undefined]. *)
Definition get_prop (v : value) (key : string) : M value :=
  match v with
  | VUndefined | VNull => throw (TypeError key)
  | VObject props => ret (find_prop key props)
  | _ => ret VUndefined
  end.

(** The value of [v.key] where it does not throw. *)
Definition property (v : value) (key : string) : value :=
  match v with
  | VObject props => find_prop key props
  | _ => VUndefined
  end.

Definition nullish (v : value) : bool :=
  match v with
  | VUndefined | VNull => true
  | _ => false
  end.

(** [a || b] on values. *)
Definition or_else (a b : value) : value := if truthy a then a else b.

(** The evaluation of a template literal: the interpolated values are
    converted to strings, which throws on one that is not [convertible].
    The message keeps the values as they are. *)
Definition template (message : list piece) : M (list piece) :=
  if forallb (fun p => match p with Text _ => true | Interp v => convertible v end)
             message
  then ret message
  else throw (TypeError "Cannot convert object to primitive value").

(** ** The entities of a project *)

Module Fragment.
Record t : Type := {
    slug : string;
    metadata : value;
    html : string;
    css : string;
    js : string;
    configuration : string
  }.
End Fragment.

Module FragmentComposition.
Record t : Type := {
    slug : string;
    metadata : value;
    definitionData : string
  }.
End FragmentComposition.

Module Collection.
Record t : Type := {
    slug : string;
    fragmentCollectionId : string;
    metadata : value;
    fragmentCompositions : list FragmentComposition.t;
    fragments : list Fragment.t
  }.
End Collection.

Module PageTemplate.
Record meta : Type := {
    name : value;
    pageTemplateDefinitionPath : string
  }.
Record t : Type := {
    slug : string;
    metadata : meta;
    definitionData : string
  }.
End PageTemplate.

Module Project.
Record t : Type := {
    basePath : string;
    project : value;
    collections : list Collection.t;
    pageTemplates : list PageTemplate.t
  }.
End Project.

(** ** The runtime *)

(** What the program takes from its environment: the file system and the
    working directory of the process, [JSON.parse] ([None] is a
    SyntaxError), [JSON.stringify] on a parsed value, [LOG_LEVEL.error]
    of [../utils/log], and what [glob.sync] makes of a pattern with special
    characters: [glob_magic base pattern] lists the matches, each by its
    segments below [base], which is ["/"] for an absolute pattern and the
    working directory for a relative one. *)
Record Runtime : Type := {
  root : node;
  cwd : string;
  JSON_parse : string -> option value;
  JSON_stringify : value -> string;
  LOG_LEVEL_error : value;
  glob_magic : string -> string -> list (list string)
}.

Section GetProjectContent.

Variable W : Runtime.

(** *** [fs] and [glob] *)

(** The node a path names, relative paths being taken from the working
    directory. *)
Definition lookup (p : string) : option node :=
  walk (root W) (resolve_segments (cwd W) [p]).

(** [fs.readFileSync(p, 'utf-8')]: the text of a file; a directory and a
    missing path throw (the code of the error is not looked at by the
    program; a path through a file is reported as missing). *)
Definition readFileSync (p : string) : M string :=
  emit (ReadFile p) ;;;
  match lookup p with
  | Some (File data) => ret data
  | Some (Dir _) => throw (FsError "EISDIR" p)
  | None => throw (FsError "ENOENT" p)
  end.

(** [fs.existsSync(p)] *)
Definition existsSync (p : string) : M bool :=
  emit (Exists p) ;;;
  ret (match lookup p with Some _ => true | None => false end).

Definition hidden (name : string) : bool :=
  match name with
  | String c _ => Ascii.eqb c "."%char
  | EmptyString => false
  end.

Definition prefix_path (pre : list string) : string :=
  match pre with
  | [seg] => if seg =? EmptyString then "/" else seg
  | _ => join_slash pre
  end.

(** The names a [*] segment can match in a directory: those that do not
    start with a dot. A name that no entry of a directory can have (empty,
    or with a slash) is not listed, as no path leads to it. *)
Definition visible (entries : list (string * node)) : list string :=
  filter (fun n => simple_name n && negb (hidden n)) (map fst entries).

Definition readdir_visible (pre : list string) : list string :=
  match lookup (prefix_path pre) with
  | Some (Dir entries) => visible entries
  | _ => []
  end.

Fixpoint glob_expand (prefixes : list (list string)) (segs : list string)
  : list (list string) :=
  match segs with
  | [] => prefixes
  | seg :: rest =>
      let next :=
        if seg =? "*" then
          flat_map
            (fun pre => map (fun n => (pre ++ [n])%list) (readdir_visible pre))
            prefixes
        else map (fun pre => (pre ++ [seg])%list) prefixes in
      glob_expand next rest
  end.

(** The matches of a plain pattern: a segment that is exactly [*] matches
    every visible entry, any other segment is taken literally; every path
    of that shape that exists is a match, file or directory. *)
Definition glob_walk (pattern : string) : list string :=
  filter (fun p => match lookup p with Some _ => true | None => false end)
         (map join_slash (glob_expand [[]] (split_slash pattern))).

(** The characters [glob] gives a meaning to, in some position or other:
    wildcards, classes, braces, the parentheses, bars and prefixes of
    extended patterns, the escape, the comment and the negation. *)
Definition magic (c : ascii) : bool :=
  existsb (Ascii.eqb c)
    (ascii_of_nat 92
       :: ["*"; "?"; "["; "]"; "{"; "}"; "("; ")"; "!"; "+"; "@"; "|"; "#"]%char).

Fixpoint glob_plain (s : string) : bool :=
  match s with
  | EmptyString => true
  | String c rest => negb (magic c) && glob_plain rest
  end.

(** Every segment is a lone [*] or free of special characters. *)
Definition plain_pattern (pattern : string) : bool :=
  forallb (fun seg => (seg =? "*") || glob_plain seg) (split_slash pattern).

(** The matches of [glob.sync(pattern)]: computed on the tree for a plain
    pattern, taken from the runtime for any other. Those of an absolute
    pattern are absolute paths, those of a relative one are relative to
    the working directory. *)
Definition glob_matches (pattern : string) : list string :=
  if plain_pattern pattern then glob_walk pattern
  else if isAbsolute pattern then
    map (fun segs => "/" ++ join_slash segs) (glob_magic W "/" pattern)
  else map join_slash (glob_magic W (cwd W) pattern).

(** [glob.sync(pattern)] *)
Definition glob_sync (pattern : string) : M (list string) :=
  emit (Glob pattern) ;;; ret (glob_matches pattern).

(** [path.resolve(directory, filePath)] where [filePath] comes from
    metadata: anything but a string is a TypeError. *)
Definition path_resolve_value (directory : string) (filePath : value)
  : M string :=
  match filePath with
  | VString p => ret (path_resolve (cwd W) [directory; p])
  | _ => throw (TypeError "paths[1]")
  end.

(** [log(message, options)] of [../utils/log]: taken to return, its call
    is recorded. *)
Definition log (message : list piece) (options : option logOptions) : M unit :=
  emit (Log message options).

(** *** The program *)

Definition _readJSONSync (jsonPath : string) : M value :=
  text <- readFileSync jsonPath ;;
  match JSON_parse W text with
  | Some v => ret v
  | None => throw (SyntaxError text)
  end.

(** The callback of [.filter] in the four scans (lines 26-37, 76-87,
    145-159, 227-241); they differ in the marker and in the word of the
    message. *)
Definition valid_marker (marker what : string) (directory : string) : M bool :=
  try_catch
    (_readJSONSync (path_resolve (cwd W) [directory; marker]) ;;; ret true)
    (fun _ =>
       invalid <- template [Text "✘ Invalid "; Interp (VString directory);
                            Text ("/" ++ marker ++ ", " ++ what ++ " ignored")] ;;
       log invalid
           (Some {| level := VString "LOG_LEVEL_ERROR"; newLine := VUndefined |}) ;;;
       ret false).

Definition _getFramentConfiguration (directory : string)
  (configurationPath : value) : M string :=
  if truthy configurationPath then
    p <- path_resolve_value directory configurationPath ;;
    found <- existsSync p ;;
    if found then
      p' <- path_resolve_value directory configurationPath ;;
      readFileSync p'
    else ret EmptyString
  else ret EmptyString.

(** [readFile] of [_getCollectionFragments] (lines 99-112). *)
Definition fragment_readFile (directory : string) (metadata : value)
  (filePath : value) : M string :=
  try_catch
    (p <- path_resolve_value directory filePath ;; readFileSync p)
    (fun _ =>
       name <- get_prop metadata "name" ;;
       owner <- template [Text "✘ Fragment ";
                          Interp (or_else name (VString directory))] ;;
       log owner
           (Some {| level := LOG_LEVEL_error W; newLine := VBool true |}) ;;;
       missing <- template [Text "File "; Interp filePath;
                            Text " was not found"] ;;
       log missing None ;;;
       ret EmptyString).

(** The callback of [.map] in [_getCollectionFragments] (lines 90-129). *)
Definition fragment_of_directory (directory : string) : M Fragment.t :=
  metadata <- _readJSONSync (path_resolve (cwd W) [directory; "fragment.json"]) ;;
  htmlPath <- get_prop metadata "htmlPath" ;;
  html <- fragment_readFile directory metadata htmlPath ;;
  cssPath <- get_prop metadata "cssPath" ;;
  css <- fragment_readFile directory metadata cssPath ;;
  jsPath <- get_prop metadata "jsPath" ;;
  js <- fragment_readFile directory metadata jsPath ;;
  configurationPath <- get_prop metadata "configurationPath" ;;
  configuration <- _getFramentConfiguration directory configurationPath ;;
  ret {| Fragment.slug := path_basename directory;
         Fragment.metadata := metadata;
         Fragment.html := html;
         Fragment.css := css;
         Fragment.js := js;
         Fragment.configuration := configuration |}.

Definition _getCollectionFragments (collectionDirectory : string)
  : M (list Fragment.t) :=
  found <- glob_sync (path_join [collectionDirectory; "*"; "fragment.json"]) ;;
  directories <-
    array_filter (valid_marker "fragment.json" "fragment")
      (map (fun fragmentJSON => path_resolve (cwd W) [fragmentJSON; ".."]) found) ;;
  array_map fragment_of_directory directories.

(** [readFile] of [_getCollectionFragmentCompositions] (lines 171-184). *)
Definition composition_readFile (directory : string) (metadata : value)
  (filePath : value) : M string :=
  try_catch
    (p <- path_resolve_value directory filePath ;; readFileSync p)
    (fun _ =>
       name <- get_prop metadata "name" ;;
       owner <- template [Text "✘ Fragment composition ";
                          Interp (or_else name (VString directory))] ;;
       log owner
           (Some {| level := LOG_LEVEL_error W; newLine := VBool true |}) ;;;
       missing <- template [Text "File "; Interp filePath;
                            Text " was not found"] ;;
       log missing None ;;;
       ret EmptyString).

(** The callback of [.map] in [_getCollectionFragmentCompositions]
    (lines 162-193). *)
Definition composition_of_directory (directory : string)
  : M FragmentComposition.t :=
  metadata <-
    _readJSONSync (path_resolve (cwd W) [directory; "fragment-composition.json"]) ;;
  definitionPath <- get_prop metadata "fragmentCompositionDefinitionPath" ;;
  definitionData <- composition_readFile directory metadata definitionPath ;;
  ret {| FragmentComposition.slug := path_basename directory;
         FragmentComposition.metadata := metadata;
         FragmentComposition.definitionData := definitionData |}.

Definition _getCollectionFragmentCompositions (collectionDirectory : string)
  : M (list FragmentComposition.t) :=
  found <-
    glob_sync (path_join [collectionDirectory; "*"; "fragment-composition.json"]) ;;
  directories <-
    array_filter (valid_marker "fragment-composition.json" "fragment composition")
      (map (fun compositionJSON => path_resolve (cwd W) [compositionJSON; ".."])
           found) ;;
  array_map composition_of_directory directories.

(** The callback of [.map] in [_getProjectCollections] (lines 43-60). *)
Definition collection_of_directory (directory : string) : M Collection.t :=
  metadata <- _readJSONSync (path_resolve (cwd W) [directory; "collection.json"]) ;;
  fragmentCompositions <- _getCollectionFragmentCompositions directory ;;
  fragments <- _getCollectionFragments directory ;;
  let slug := path_basename directory in
  ret {| Collection.slug := slug;
         Collection.fragmentCollectionId := slug;
         Collection.metadata := metadata;
         Collection.fragmentCompositions := fragmentCompositions;
         Collection.fragments := fragments |}.

Definition _getProjectCollections (basePath : string) : M (list Collection.t) :=
  found <- glob_sync (path_join [basePath; "src"; "*"; "collection.json"]) ;;
  directories <-
    array_filter (valid_marker "collection.json" "collection")
      (map (fun collectionJSON => path_resolve (cwd W) [collectionJSON; ".."])
           found) ;;
  array_map collection_of_directory directories.

(** The callback of [.map] in [_getPageTemplates] (lines 247-266). *)
Definition pageTemplate_of_directory (directory : string) : M PageTemplate.t :=
  metadata <-
    _readJSONSync (path_resolve (cwd W) [directory; "page-template.json"]) ;;
  let slug := path_basename directory in
  name <- get_prop metadata "name" ;;
  definition <-
    _readJSONSync (path_resolve (cwd W) [directory; "page-definition.json"]) ;;
  ret {| PageTemplate.slug := slug;
         PageTemplate.metadata :=
           {| PageTemplate.name := name;
              PageTemplate.pageTemplateDefinitionPath :=
                path_resolve (cwd W) [directory; "page-definition.json"] |};
         PageTemplate.definitionData := JSON_stringify W definition |}.

Definition _getPageTemplates (basePath : string) : M (list PageTemplate.t) :=
  found <- glob_sync (path_join [basePath; "src"; "*"; "page-template.json"]) ;;
  directories <-
    array_filter (valid_marker "page-template.json" "page template")
      (map (fun collectionJSON => path_resolve (cwd W) [collectionJSON; ".."])
           found) ;;
  array_map pageTemplate_of_directory directories.

Definition getProjectContent (basePath : string) : M Project.t :=
  project <- _readJSONSync (path_resolve (cwd W) [basePath; "package.json"]) ;;
  collections <- _getProjectCollections basePath ;;
  pageTemplates <- _getPageTemplates basePath ;;
  ret {| Project.basePath := basePath;
         Project.project := project;
         Project.collections := collections;
         Project.pageTemplates := pageTemplates |}.

(** *** Pure descriptions, for the statements *)

(** The value [_readJSONSync p] returns, if it returns. *)
Definition parsed (p : string) : option value :=
  match lookup p with
  | Some (File data) => JSON_parse W data
  | _ => None
  end.

(** The marker of [directory] is a readable file that parses. *)
Definition marker_ok (marker directory : string) : bool :=
  match parsed (path_resolve (cwd W) [directory; marker]) with
  | Some _ => true
  | None => false
  end.

(** The directories a scan looks at: the parent of each match of the
    pattern. *)
Definition candidates (pattern : string) : list string :=
  map (fun found => path_resolve (cwd W) [found; ".."]) (glob_matches pattern).

(** The first two stages of each scan, [glob] and [.filter]: the Entity
    Scanner of the specification. *)
Definition scan (pattern marker what : string) : M (list string) :=
  found <- glob_sync pattern ;;
  array_filter (valid_marker marker what)
    (map (fun found => path_resolve (cwd W) [found; ".."]) found).

(** The entry [valid_marker] logs for a directory it rejects. *)
Definition invalid_log (marker what directory : string) : event :=
  Log [Text "✘ Invalid "; Interp (VString directory);
       Text ("/" ++ marker ++ ", " ++ what ++ " ignored")]
      (Some {| level := VString "LOG_LEVEL_ERROR"; newLine := VUndefined |}).

(** The two entries a content loader logs when it cannot read
    [filePath]. *)
Definition not_found_logs (label directory : string) (metadata filePath : value)
  : list event :=
  [Log [Text label; Interp (or_else (property metadata "name") (VString directory))]
       (Some {| level := LOG_LEVEL_error W; newLine := VBool true |});
   Log [Text "File "; Interp filePath; Text " was not found"] None].

(** The text of the file a content path names, if it names a file. *)
Definition content (directory : string) (filePath : value) : option string :=
  match filePath with
  | VString p =>
      match lookup (path_resolve (cwd W) [directory; p]) with
      | Some (File data) => Some data
      | _ => None
      end
  | _ => None
  end.

(** The directories each scan keeps. *)
Definition fragment_directories (collectionDirectory : string) : list string :=
  filter (marker_ok "fragment.json")
    (candidates (path_join [collectionDirectory; "*"; "fragment.json"])).

Definition composition_directories (collectionDirectory : string) : list string :=
  filter (marker_ok "fragment-composition.json")
    (candidates (path_join [collectionDirectory; "*"; "fragment-composition.json"])).

Definition collection_directories (basePath : string) : list string :=
  filter (marker_ok "collection.json")
    (candidates (path_join [basePath; "src"; "*"; "collection.json"])).

Definition pageTemplate_directories (basePath : string) : list string :=
  filter (marker_ok "page-template.json")
    (candidates (path_join [basePath; "src"; "*"; "page-template.json"])).

(** *** The same, on the tree *)

(** The absolute path of a list of segments. *)
Definition absolute (segs : list string) : string := "/" ++ join_slash segs.

(** The visible entries of the directory at [segs]. *)
Definition entry_names (segs : list string) : list string :=
  match walk (root W) segs with
  | Some (Dir entries) => visible entries
  | _ => []
  end.

(** A file stands at [segs], and it parses. *)
Definition json_file (segs : list string) : bool :=
  match walk (root W) segs with
  | Some (File data) =>
      match JSON_parse W data with Some _ => true | None => false end
  | _ => false
  end.

(** The children of the directory at [segs] that hold a [marker] that
    parses: the Entity Scanner of the specification, read on the tree. *)
Definition marked_children (segs : list string) (marker : string) : list string :=
  filter (fun n => json_file (segs ++ [n; marker])%list) (entry_names segs).

(** What a content loader returns: the text, or the empty string. *)
Definition loaded (directory : string) (filePath : value) : string :=
  match content directory filePath with
  | Some data => data
  | None => EmptyString
  end.

(** The file a content loader tries to read: none unless the path is a
    string. *)
Definition read_attempt (directory : string) (filePath : value) : list event :=
  match filePath with
  | VString p => [ReadFile (path_resolve (cwd W) [directory; p])]
  | _ => []
  end.

(** Whose file it was, in the first entry of the catch block. *)
Definition log_owner (directory : string) (metadata : value) : value :=
  or_else (property metadata "name") (VString directory).

(** The two template literals of the catch block of a content loader
    convert their values. *)
Definition reportable (directory : string) (metadata filePath : value) : bool :=
  convertible (log_owner directory metadata) && convertible filePath.

(** A content loader returns: the file is read, or the catch block gets
    to its end. *)
Definition loader_returns (directory : string) (metadata filePath : value)
  : bool :=
  match content directory filePath with
  | Some _ => true
  | None => reportable directory metadata filePath
  end.

Definition conversion_error : exn :=
  TypeError "Cannot convert object to primitive value".

(** The three loaders of a fragment return. *)
Definition fragment_loaders_return (directory : string) (metadata : value)
  : bool :=
  forallb (fun key => loader_returns directory metadata (property metadata key))
          ["htmlPath"; "cssPath"; "jsPath"].

Definition composition_loader_returns (directory : string) (metadata : value)
  : bool :=
  loader_returns directory metadata
    (property metadata "fragmentCompositionDefinitionPath").

(** The run of a content loader on metadata that is not [null]. *)
Definition loader_run (label directory : string) (metadata filePath : value)
  : M string :=
  match content directory filePath with
  | Some data => (read_attempt directory filePath, Returned data)
  | None =>
      if convertible (log_owner directory metadata) then
        if convertible filePath then
          ((read_attempt directory filePath
              ++ not_found_logs label directory metadata filePath)%list,
           Returned EmptyString)
        else
          ((read_attempt directory filePath
              ++ [Log [Text label; Interp (log_owner directory metadata)]
                      (Some {| level := LOG_LEVEL_error W;
                               newLine := VBool true |})])%list,
           Thrown conversion_error)
      else (read_attempt directory filePath, Thrown conversion_error)
  end.

End GetProjectContent.

(** ** A JSON reader and writer for the examples

    The theorems hold for every [JSON_parse] and [JSON_stringify]. The
    examples run on this reader of a part of JSON: objects, arrays,
    strings with the escapes of quote, backslash and slash, integers,
    [true], [false] and [null]. *)

Module Json.

Definition quote : ascii := ascii_of_nat 34.
Definition backslash : ascii := ascii_of_nat 92.

(** JSON text written with apostrophes in place of double quotes. *)
Fixpoint text (s : string) : string :=
  match s with
  | EmptyString => EmptyString
  | String c rest =>
      String (if Ascii.eqb c "'"%char then quote else c) (text rest)
  end.

Definition is_ws (c : ascii) : bool :=
  let n := nat_of_ascii c in
  Nat.eqb n 32 || Nat.eqb n 10 || Nat.eqb n 13 || Nat.eqb n 9.

Fixpoint skip_ws (s : string) : string :=
  match s with
  | String c rest => if is_ws c then skip_ws rest else s
  | EmptyString => s
  end.

Definition digit (c : ascii) : option Z :=
  let n := nat_of_ascii c in
  if Nat.leb 48 n && Nat.leb n 57 then Some (Z.of_nat (n - 48)) else None.

Fixpoint read_digits (acc : Z) (s : string) : Z * string :=
  match s with
  | String c rest =>
      match digit c with
      | Some d => read_digits (10 * acc + d) rest
      | None => (acc, s)
      end
  | EmptyString => (acc, s)
  end.

(** After the opening quote: the characters up to the closing one. *)
Fixpoint read_string (s : string) : option (string * string) :=
  match s with
  | EmptyString => None
  | String c rest =>
      if Ascii.eqb c quote then Some (EmptyString, rest)
      else if Ascii.eqb c backslash then
        match rest with
        | String e rest' =>
            if Ascii.eqb e quote || Ascii.eqb e backslash || Ascii.eqb e slash then
              match read_string rest' with
              | Some (body, after) => Some (String e body, after)
              | None => None
              end
            else None
        | EmptyString => None
        end
      else if Nat.ltb (nat_of_ascii c) 32 then None
      else
        match read_string rest with
        | Some (body, after) => Some (String c body, after)
        | None => None
        end
  end.

Definition starts_number (s : string) : bool :=
  match s with
  | String c _ => match digit c with Some _ => true | None => false end
  | EmptyString => false
  end.

(** An integer: no leading zero, no fraction, no exponent. *)
Definition read_number (s : string) : option (value * string) :=
  let (negative, body) :=
    match s with
    | String c rest => if Ascii.eqb c "-"%char then (true, rest) else (false, s)
    | EmptyString => (false, s)
    end in
  if starts_number body then
    let (n, after) := read_digits 0 body in
    let leading_zero :=
      match body with
      | String c rest => Ascii.eqb c "0"%char && starts_number rest
      | EmptyString => false
      end in
    let continues :=
      match after with
      | String c _ =>
          Ascii.eqb c "."%char || Ascii.eqb c "e"%char || Ascii.eqb c "E"%char
      | EmptyString => false
      end in
    if leading_zero || continues then None
    else Some (VNumber (inject_Z (if negative then - n else n)), after)
  else None.

(** [props] with [key] set to [v]: a repeated key keeps its place and takes
    the last value. *)
Fixpoint set_prop (key : string) (v : value) (props : list (string * value))
  : list (string * value) :=
  match props with
  | [] => [(key, v)]
  | (k, old) :: rest =>
      if k =? key then (k, v) :: rest else (k, old) :: set_prop key v rest
  end.

Definition strip (prefix s : string) : option string :=
  if String.prefix prefix s
  then Some (substring (String.length prefix) (String.length s - String.length prefix) s)
  else None.

Fixpoint read_value (fuel : nat) (s : string) : option (value * string) :=
  match fuel with
  | O => None
  | S fuel' =>
      match skip_ws s with
      | EmptyString => None
      | String c rest =>
          if Ascii.eqb c "{"%char then
            match skip_ws rest with
            | String c' rest' =>
                if Ascii.eqb c' "}"%char then Some (VObject [], rest')
                else read_members fuel' [] (String c' rest')
            | EmptyString => None
            end
          else if Ascii.eqb c "["%char then
            match skip_ws rest with
            | String c' rest' =>
                if Ascii.eqb c' "]"%char then Some (VArray [], rest')
                else read_elements fuel' [] (String c' rest')
            | EmptyString => None
            end
          else if Ascii.eqb c quote then
            match read_string rest with
            | Some (body, after) => Some (VString body, after)
            | None => None
            end
          else
            match strip "true" (String c rest),
                  strip "false" (String c rest),
                  strip "null" (String c rest) with
            | Some after, _, _ => Some (VBool true, after)
            | _, Some after, _ => Some (VBool false, after)
            | _, _, Some after => Some (VNull, after)
            | _, _, _ => read_number (String c rest)
            end
      end
  end

with read_members (fuel : nat) (acc : list (string * value)) (s : string)
  : option (value * string) :=
  match fuel with
  | O => None
  | S fuel' =>
      match skip_ws s with
      | String c rest =>
          if Ascii.eqb c quote then
            match read_string rest with
            | Some (key, after) =>
                match skip_ws after with
                | String colon after' =>
                    if Ascii.eqb colon ":"%char then
                      match read_value fuel' after' with
                      | Some (v, after'') =>
                          match skip_ws after'' with
                          | String d more =>
                              if Ascii.eqb d ","%char then
                                read_members fuel' (set_prop key v acc) more
                              else if Ascii.eqb d "}"%char then
                                Some (VObject (set_prop key v acc), more)
                              else None
                          | EmptyString => None
                          end
                      | None => None
                      end
                    else None
                | EmptyString => None
                end
            | None => None
            end
          else None
      | EmptyString => None
      end
  end

with read_elements (fuel : nat) (acc : list value) (s : string)
  : option (value * string) :=
  match fuel with
  | O => None
  | S fuel' =>
      match read_value fuel' s with
      | Some (v, after) =>
          match skip_ws after with
          | String d more =>
              if Ascii.eqb d ","%char then
                read_elements fuel' (acc ++ [v])%list more
              else if Ascii.eqb d "]"%char then
                Some (VArray (acc ++ [v])%list, more)
              else None
          | EmptyString => None
          end
      | None => None
      end
  end.

(** One value, with white space around it and nothing else. *)
Definition parse (s : string) : option value :=
  match read_value (S (String.length s)) s with
  | Some (v, after) =>
      match skip_ws after with
      | EmptyString => Some v
      | String _ _ => None
      end
  | None => None
  end.

Fixpoint write_string_body (s : string) : string :=
  match s with
  | EmptyString => EmptyString
  | String c rest =>
      if Ascii.eqb c quote || Ascii.eqb c backslash
      then String backslash (String c (write_string_body rest))
      else String c (write_string_body rest)
  end.

Definition write_string (s : string) : string :=
  String quote (write_string_body s ++ String quote EmptyString).

Fixpoint join_commas (parts : list string) : string :=
  match parts with
  | [] => EmptyString
  | [part] => part
  | part :: rest => part ++ "," ++ join_commas rest
  end.

Definition write_integer (z : Z) : string :=
  DecimalString.NilZero.string_of_int (Z.to_int z).

Fixpoint stringify (v : value) : string :=
  match v with
  | VUndefined | VNull => "null"
  | VBool true => "true"
  | VBool false => "false"
  | VNumber q => write_integer (Qnum q)
  | VString s => write_string s
  | VArray items =>
      "[" ++ join_commas (map stringify items) ++ "]"
  | VObject props =>
      "{" ++ join_commas
               (map (fun kv => write_string (fst kv) ++ ":" ++ stringify (snd kv))
                    props) ++ "}"
  end.

End Json.

(** ** Example projects *)

Module Demo.

Definition json (s : string) : node := File (Json.text s).

Definition hero : node :=
  Dir [("fragment.json",
        json "{'name':'Hero','htmlPath':'index.html','cssPath':'styles.css','jsPath':'main.js','configurationPath':'config.json'}");
       ("index.html", File "<h1>Hero</h1>");
       ("styles.css", File ".hero { color: red; }");
       ("main.js", File "console.log(1);");
       ("config.json", json "{'fieldSets':[]}")].

(** [htmlPath] names a file that is not there, [configurationPath] is
    absent. *)
Definition plain : node :=
  Dir [("fragment.json",
        json "{'name':'Plain','htmlPath':'missing.html','cssPath':'styles.css','jsPath':'main.js'}");
       ("styles.css", File ".plain { }");
       ("main.js", File "var x;")].


(** No path at all in the metadata. *)
Definition bare : node := Dir [("fragment.json", json "{}")].

(** An empty [cssPath], and a [configurationPath] to a file that is not
    there. *)
Definition loose : node :=
  Dir [("fragment.json",
        json "{'htmlPath':'index.html','cssPath':'','configurationPath':'nothing.json'}");
       ("index.html", File "<p>Loose</p>")].

Definition unparsable : node := Dir [("fragment.json", File "{ name: ")].

(** Both a fragment and a fragment composition. *)
Definition combo : node :=
  Dir [("fragment-composition.json",
        json "{'name':'Combo','fragmentCompositionDefinitionPath':'definition.json'}");
       ("definition.json", json "{'fragments':[]}");
       ("fragment.json", json "{'name':'Combo'}")].

Definition cards (fragments : list (string * node)) : node :=
  Dir (("collection.json", json "{'name':'Cards'}") :: fragments).

Definition landing : node :=
  Dir [("page-template.json", json "{'name':'Landing','extra':true}");
       ("page-definition.json", json "{ 'rows' : [1, 2],  'title' : 'Landing' }")].

(** Both a collection and a page template. *)
Definition both : node :=
  Dir [("collection.json", json "{}");
       ("page-template.json", json "{'name':'Both'}");
       ("page-definition.json", json "{}")].

(** A page template without its [page-definition.json]. *)
Definition orphan : node :=
  Dir [("page-template.json", json "{'name':'Orphan'}")].

Definition broken_collection : node :=
  Dir [("collection.json", File "not json")].

(** A fragment whose [configurationPath] names a directory. *)
Definition with_assets : node :=
  Dir [("fragment.json", json "{'name':'Assets','configurationPath':'assets'}");
       ("assets", Dir [])].

Definition project_at (src : list (string * node)) : node :=
  Dir [("proj",
        Dir [("package.json", json "{'name':'demo','version':'1.0.0'}");
             ("src", Dir src)]);
       ("home", Dir [("user", Dir [])])].

Definition runtime (fs : node) : Runtime :=
  {| root := fs;
     cwd := "/home/user";
     JSON_parse := Json.parse;
     JSON_stringify := Json.stringify;
     LOG_LEVEL_error := VString "LOG_LEVEL_ERROR";
     glob_magic := fun _ _ => [] |}.

Definition full : Runtime :=
  runtime (project_at
    [("both", both);
     ("broken", broken_collection);
     ("cards", cards [(".git", hero); ("broken", unparsable); ("combo", combo);
                      ("hero", hero); ("plain", plain)]);
     ("landing", landing);
     ("README.md", File "demo")]).

Definition empty : Runtime := runtime (project_at []).

Definition with_orphan : Runtime :=
  runtime (project_at [("cards", cards [("hero", hero)]); ("orphan", orphan)]).

Definition with_directory_configuration : Runtime :=
  runtime (project_at [("cards", cards [("assets", with_assets)])]).


Definition with_loose : Runtime :=
  runtime (project_at [("cards", cards [("bare", bare); ("loose", loose)])]).

Definition without_package : Runtime :=
  runtime (Dir [("proj", Dir [("src", Dir [])])]).

End Demo.

(** ** The program without its effects

    What each function returns, as a partial function of the file system:
    [None] where the function throws. The further properties relate the
    program to these. *)

Fixpoint traverse {A B} (f : A -> option B) (xs : list A) : option (list B) :=
  match xs with
  | [] => Some []
  | x :: rest =>
      match f x, traverse f rest with
      | Some y, Some ys => Some (y :: ys)
      | _, _ => None
      end
  end.

Section Pure.

Variable W : Runtime.

Definition pure_configuration (directory : string) (configurationPath : value)
  : option string :=
  if truthy configurationPath then
    match configurationPath with
    | VString p =>
        match lookup W (path_resolve (cwd W) [directory; p]) with
        | Some (File data) => Some data
        | Some (Dir _) => None
        | None => Some EmptyString
        end
    | _ => None
    end
  else Some EmptyString.

Definition pure_fragment (directory : string) : option Fragment.t :=
  match parsed W (path_resolve (cwd W) [directory; "fragment.json"]) with
  | Some metadata =>
      if nullish metadata then None
      else if fragment_loaders_return W directory metadata then
        match pure_configuration directory (property metadata "configurationPath") with
        | Some configuration =>
            Some {| Fragment.slug := path_basename directory;
                    Fragment.metadata := metadata;
                    Fragment.html := loaded W directory (property metadata "htmlPath");
                    Fragment.css := loaded W directory (property metadata "cssPath");
                    Fragment.js := loaded W directory (property metadata "jsPath");
                    Fragment.configuration := configuration |}
        | None => None
        end
      else None
  | None => None
  end.

Definition pure_composition (directory : string) : option FragmentComposition.t :=
  match parsed W (path_resolve (cwd W) [directory; "fragment-composition.json"]) with
  | Some metadata =>
      if nullish metadata then None
      else if composition_loader_returns W directory metadata then
        Some {| FragmentComposition.slug := path_basename directory;
                FragmentComposition.metadata := metadata;
                FragmentComposition.definitionData :=
                  loaded W directory
                    (property metadata "fragmentCompositionDefinitionPath") |}
      else None
  | None => None
  end.

Definition pure_pageTemplate (directory : string) : option PageTemplate.t :=
  match parsed W (path_resolve (cwd W) [directory; "page-template.json"]) with
  | Some metadata =>
      if nullish metadata then None
      else
        match parsed W (path_resolve (cwd W) [directory; "page-definition.json"]) with
        | Some definition =>
            Some {| PageTemplate.slug := path_basename directory;
                    PageTemplate.metadata :=
                      {| PageTemplate.name := property metadata "name";
                         PageTemplate.pageTemplateDefinitionPath :=
                           path_resolve (cwd W) [directory; "page-definition.json"] |};
                    PageTemplate.definitionData := JSON_stringify W definition |}
        | None => None
        end
  | None => None
  end.

Definition pure_collection (directory : string) : option Collection.t :=
  match parsed W (path_resolve (cwd W) [directory; "collection.json"]) with
  | Some metadata =>
      match traverse pure_composition (composition_directories W directory),
            traverse pure_fragment (fragment_directories W directory) with
      | Some fragmentCompositions, Some fragments =>
          Some {| Collection.slug := path_basename directory;
                  Collection.fragmentCollectionId := path_basename directory;
                  Collection.metadata := metadata;
                  Collection.fragmentCompositions := fragmentCompositions;
                  Collection.fragments := fragments |}
      | _, _ => None
      end
  | None => None
  end.

Definition pure_project (basePath : string) : option Project.t :=
  match parsed W (path_resolve (cwd W) [basePath; "package.json"]) with
  | Some project =>
      match traverse pure_collection (collection_directories W basePath),
            traverse pure_pageTemplate (pageTemplate_directories W basePath) with
      | Some collections, Some pageTemplates =>
          Some {| Project.basePath := basePath;
                  Project.project := project;
                  Project.collections := collections;
                  Project.pageTemplates := pageTemplates |}
      | _, _ => None
      end
  | None => None
  end.

(** What a content loader logs. *)
Definition loader_logs (label directory : string) (metadata filePath : value)
  : list event :=
  match content W directory filePath with
  | Some _ => []
  | None => not_found_logs W label directory metadata filePath
  end.






(** An entry named [marker] stands below [segs], and is not a file that
    parses. *)
Definition bad_marker (segs : list string) (marker n : string) : bool :=
  match walk (root W) (segs ++ [n; marker])%list with
  | Some _ => negb (json_file W (segs ++ [n; marker])%list)
  | None => false
  end.

End Pure.

(** ** Further example projects *)

Module Cases.

(** A fragment whose marker is the JSON value [null]. *)
Definition null_fragment : node := Dir [("fragment.json", File "null")].

(** A composition whose definition is not JSON. *)
Definition raw_composition : node :=
  Dir [("fragment-composition.json",
        Demo.json "{'fragmentCompositionDefinitionPath':'definition.json'}");
       ("definition.json", File "<not json>")].

(** A fragment whose [htmlPath] names a directory, whose [cssPath] leaves
    the directory of the fragment, and whose [jsPath] is absolute. *)
Definition wandering : node :=
  Dir [("fragment.json",
        Demo.json "{'htmlPath':'assets','cssPath':'../shared.css','jsPath':'/lib/main.js','configurationPath':7}");
       ("assets", Dir [])].

Definition outside : list (string * node) :=
  [("lib", Dir [("main.js", File "lib();")])].

Definition project_with (fragments : list (string * node)) : node :=
  Dir (("proj",
        Dir [("package.json", Demo.json "{'name':'cases'}");
             ("src",
              Dir [("cards",
                    Dir (("collection.json", File "null")
                           :: ("shared.css", File ".shared { }") :: fragments))])])
         :: outside).

Definition with_null_fragment : Runtime :=
  Demo.runtime (project_with [("hero", Demo.hero); ("nothing", null_fragment)]).

Definition with_raw_composition : Runtime :=
  Demo.runtime (project_with [("raw", raw_composition)]).

Definition with_wandering : Runtime :=
  Demo.runtime (project_with [("wandering", wandering)]).

(** A fragment whose [name] is an object with an own [toString] key, and
    which names no file; a composition of the same kind whose definition
    is missing. *)
Definition exotic : node :=
  Dir [("fragment.json", Demo.json "{'name':{'toString':0}}")].

Definition exotic_composition : node :=
  Dir [("fragment-composition.json",
        Demo.json "{'name':{'toString':0},'fragmentCompositionDefinitionPath':'gone.json'}")].




Definition with_exotic_name : Runtime :=
  Demo.runtime (project_with [("exotic", exotic); ("hero", Demo.hero)]).

Definition with_exotic_composition : Runtime :=
  Demo.runtime (project_with [("odd", exotic_composition)]).


(** Children of [src]: one in order, one whose marker does not parse, one
    whose marker is a directory, one without a marker. *)
Definition mixed : Runtime :=
  Demo.runtime
    (Demo.project_at
       [("both", Demo.both);
        ("broken", Demo.broken_collection);
        ("odd", Dir [("collection.json", Dir [])]);
        ("plain", Dir [("README.md", File "no marker")])]).

(** Three page templates; the second has no definition. *)
Definition with_second_orphan : Runtime :=
  Demo.runtime
    (Demo.project_at
       [("landing", Demo.landing); ("orphan", Demo.orphan);
        ("teaser", Demo.both)]).

(** A base path with a character class in its name, under a [glob] that
    finds no match for the patterns made from it. *)
Definition bracketed : Runtime :=
  {| root :=
       Dir [("site [v2]",
             Dir [("package.json", Demo.json "{'name':'site'}");
                  ("src", Dir [("cards", Demo.cards [("hero", Demo.hero)])])])];
     cwd := "/";
     JSON_parse := Json.parse;
     JSON_stringify := Json.stringify;
     LOG_LEVEL_error := VString "LOG_LEVEL_ERROR";
     glob_magic := fun _ _ => [] |}.

End Cases.

(** * Properties *)

(** ** The model at work *)

Example path_join_pattern :
  path_join ["/proj"; "src"; "*"; "collection.json"] = "/proj/src/*/collection.json".
Proof. reflexivity. Qed.

Example path_join_relative :
  path_join ["../proj/"; "src"; "*"; "fragment.json"] = "../proj/src/*/fragment.json".
Proof. reflexivity. Qed.

Example path_resolve_parent_of_match :
  path_resolve "/home/user" ["/proj/src/cards/collection.json"; ".."]
  = "/proj/src/cards".
Proof. reflexivity. Qed.

Example path_resolve_from_cwd :
  path_resolve "/home/user" ["proj/./src//cards"; "../both"; EmptyString]
  = "/home/user/proj/src/both".
Proof. reflexivity. Qed.

Example path_resolve_above_root :
  path_resolve "/home" ["../../x"] = "/x".
Proof. reflexivity. Qed.

Example path_basename_trailing_slash : path_basename "/proj/src/cards/" = "cards".
Proof. reflexivity. Qed.

Example json_parse_object :
  Json.parse (Json.text " { 'rows' : [1, -2], 'ok' : true, 'none' : null } ")
  = Some (VObject [("rows", VArray [VNumber (inject_Z 1); VNumber (inject_Z (-2))]);
                   ("ok", VBool true); ("none", VNull)]).
Proof. reflexivity. Qed.

Example json_parse_rejects :
  Json.parse "{ name: " = None /\ Json.parse "not json" = None
  /\ Json.parse EmptyString = None /\ Json.parse "{} x" = None.
Proof. repeat split. Qed.

Example json_stringify_parse :
  option_map Json.stringify
    (Json.parse (Json.text "{ 'rows' : [1, 2],  'title' : 'Landing' }"))
  = Some (Json.text "{'rows':[1,2],'title':'Landing'}").
Proof. reflexivity. Qed.

Example glob_skips_files_and_hidden_directories :
  glob_matches Demo.full "/proj/src/cards/*/fragment.json"
  = ["/proj/src/cards/broken/fragment.json"; "/proj/src/cards/combo/fragment.json";
     "/proj/src/cards/hero/fragment.json"; "/proj/src/cards/plain/fragment.json"].
Proof. reflexivity. Qed.

Example glob_relative_pattern :
  glob_matches Demo.full "../../proj/src/*/page-template.json"
  = ["../../proj/src/both/page-template.json";
     "../../proj/src/landing/page-template.json"].
Proof. reflexivity. Qed.

Example run_with_directory_configuration :
  getProjectContent Demo.with_directory_configuration "/proj" =
  ([ReadFile "/proj/package.json";
    Glob "/proj/src/*/collection.json";
    ReadFile "/proj/src/cards/collection.json";
    ReadFile "/proj/src/cards/collection.json";
    Glob "/proj/src/cards/*/fragment-composition.json";
    Glob "/proj/src/cards/*/fragment.json";
    ReadFile "/proj/src/cards/assets/fragment.json";
    ReadFile "/proj/src/cards/assets/fragment.json";
    Log [Text "✘ Fragment "; Interp (VString "Assets")]
        (Some {| level := VString "LOG_LEVEL_ERROR"; newLine := VBool true |});
    Log [Text "File "; Interp VUndefined; Text " was not found"] None;
    Log [Text "✘ Fragment "; Interp (VString "Assets")]
        (Some {| level := VString "LOG_LEVEL_ERROR"; newLine := VBool true |});
    Log [Text "File "; Interp VUndefined; Text " was not found"] None;
    Log [Text "✘ Fragment "; Interp (VString "Assets")]
        (Some {| level := VString "LOG_LEVEL_ERROR"; newLine := VBool true |});
    Log [Text "File "; Interp VUndefined; Text " was not found"] None;
    Exists "/proj/src/cards/assets/assets";
    ReadFile "/proj/src/cards/assets/assets"],
   Thrown (FsError "EISDIR" "/proj/src/cards/assets/assets")).
Proof. reflexivity. Qed.

Example run_on_empty_src :
  events (getProjectContent Demo.empty "/proj")
  = [ReadFile "/proj/package.json"; Glob "/proj/src/*/collection.json";
     Glob "/proj/src/*/page-template.json"].
Proof. reflexivity. Qed.

(** A pattern with special characters is not read on the tree: the
    directory [src] below the base path has a marked child, and what the
    run returns is what the [glob] of the runtime finds. *)
Example run_on_special_characters :
  plain_pattern (path_join ["/site [v2]"; "src"; "*"; "collection.json"]) = false
  /\ marked_children Cases.bracketed ["site [v2]"; "src"] "collection.json"
     = ["cards"]
  /\ result (getProjectContent Cases.bracketed "/site [v2]")
     = Returned {| Project.basePath := "/site [v2]";
                   Project.project := VObject [("name", VString "site")];
                   Project.collections := [];
                   Project.pageTemplates := [] |}.
Proof. repeat split; reflexivity. Qed.

Example conversion_to_string :
  convertible (VObject [("toString", VNumber 0)]) = false
  /\ convertible (VObject [("valueOf", VNumber 0)]) = true
  /\ convertible (VArray [VNull; VArray [VObject [("toString", VNull)]]]) = false
  /\ convertible (VArray [VNull; VObject []; VString "a"]) = true.
Proof. repeat split; reflexivity. Qed.

(** ** The monad *)

Lemma result_bind {A B} (m : M A) (f : A -> M B) :
  result (bind m f) =
  match result m with
  | Returned a => result (f a)
  | Thrown e => Thrown e
  end.
Proof.
  destruct m as [evs [a | e]]; simpl; [ | reflexivity ].
  destruct (f a); reflexivity.
Qed.

Lemma events_bind {A B} (m : M A) (f : A -> M B) :
  events (bind m f) =
  (events m ++ match result m with
               | Returned a => events (f a)
               | Thrown _ => []
               end)%list.
Proof.
  destruct m as [evs [a | e]]; simpl.
  - destruct (f a); reflexivity.
  - now rewrite app_nil_r.
Qed.

Lemma result_try_catch {A} (m : M A) (h : exn -> M A) :
  result (try_catch m h) =
  match result m with
  | Returned a => Returned a
  | Thrown e => result (h e)
  end.
Proof.
  destruct m as [evs [a | e]]; simpl; [ reflexivity | ].
  destruct (h e); reflexivity.
Qed.

Lemma events_try_catch {A} (m : M A) (h : exn -> M A) :
  events (try_catch m h) =
  (events m ++ match result m with
               | Returned _ => []
               | Thrown e => events (h e)
               end)%list.
Proof.
  destruct m as [evs [a | e]]; simpl.
  - now rewrite app_nil_r.
  - destruct (h e); reflexivity.
Qed.

Lemma bind_assoc {A B C} (m : M A) (f : A -> M B) (g : B -> M C) :
  bind (bind m f) g = bind m (fun a => bind (f a) g).
Proof.
  destruct m as [evs [a | e]]; simpl; [ | reflexivity ].
  destruct (f a) as [evs' [b | e]]; simpl; [ | reflexivity ].
  destruct (g b) as [evs'' r]. now rewrite app_assoc.
Qed.

Lemma bind_ret_l {A B} (a : A) (f : A -> M B) : bind (ret a) f = f a.
Proof. unfold ret, bind. now destruct (f a). Qed.

Lemma result_bind_returned {A B} (evs : list event) (a : A) (f : A -> M B) :
  result (bind (evs, Returned a) f) = result (f a).
Proof. now rewrite result_bind. Qed.

(** ** [array.map] and [array.filter] *)

Section Arrays.

Context {A B : Type}.

Lemma array_map_returned (f : A -> M B) (xs : list A) (ys : list B) :
  result (array_map f xs) = Returned ys <->
  Forall2 (fun x y => result (f x) = Returned y) xs ys.
Proof.
  revert ys. induction xs as [ | x xs IH ]; intros ys; simpl.
  - split; intros H.
    + injection H as <-. constructor.
    + inversion H. reflexivity.
  - rewrite result_bind. destruct (result (f x)) as [y | e] eqn:Hx.
    + rewrite result_bind.
      destruct (result (array_map f xs)) as [ys' | e] eqn:Hxs; simpl.
      * split; intros H.
        -- injection H as <-. constructor; [ assumption | now apply IH ].
        -- inversion H as [ | x0 y0 xs0 ys0 Hy Hrest ]; subst.
           apply IH in Hrest. congruence.
      * split; intros H; [ discriminate | ].
        inversion H as [ | x0 y0 xs0 ys0 Hy Hrest ]; subst.
        apply IH in Hrest. discriminate.
    + split; intros H; [ discriminate | ].
      inversion H; subst. congruence.
Qed.

(** One callback that throws makes the whole [map] throw. *)
Lemma array_map_thrown (f : A -> M B) (xs : list A) (x : A) :
  In x xs ->
  (exists e, result (f x) = Thrown e) ->
  exists e, result (array_map f xs) = Thrown e.
Proof.
  intros Hin [e He]. induction xs as [ | x' xs IH ]; [ contradiction | ].
  simpl. rewrite result_bind.
  destruct (result (f x')) as [y | e'] eqn:Hx'; [ | now exists e' ].
  rewrite result_bind. destruct Hin as [-> | Hin].
  - congruence.
  - destruct (IH Hin) as [e'' ->]. now exists e''.
Qed.

Lemma array_filter_pure (f : A -> M bool) (p : A -> bool) (xs : list A) :
  (forall x, In x xs -> result (f x) = Returned (p x)) ->
  result (array_filter f xs) = Returned (filter p xs).
Proof.
  induction xs as [ | x xs IH ]; intros H; simpl; [ reflexivity | ].
  rewrite result_bind, (H x) by now left.
  rewrite result_bind, IH by (intros y Hy; apply H; now right).
  simpl. reflexivity.
Qed.

Lemma array_filter_events (f : A -> M bool) (p : A -> bool) (xs : list A) :
  (forall x, In x xs -> result (f x) = Returned (p x)) ->
  events (array_filter f xs) = flat_map (fun x => events (f x)) xs.
Proof.
  induction xs as [ | x xs IH ]; intros H; simpl; [ reflexivity | ].
  rewrite events_bind, (H x) by now left.
  rewrite events_bind.
  rewrite (array_filter_pure f p) by (intros y Hy; apply H; now right).
  simpl. rewrite app_nil_r, IH by (intros y Hy; apply H; now right).
  reflexivity.
Qed.

End Arrays.

Lemma filter_flat_map {A B} (p : B -> bool) (f : A -> list B) (xs : list A) :
  filter p (flat_map f xs) = flat_map (fun x => filter p (f x)) xs.
Proof.
  induction xs as [ | x xs IH ]; simpl; [ reflexivity | ].
  now rewrite filter_app, IH.
Qed.

(** ** Paths *)

Lemma split_slash_not_nil (s : string) : split_slash s <> [].
Proof.
  destruct s as [ | c s ]; simpl; [ discriminate | ].
  destruct (Ascii.eqb c slash); [ discriminate | ].
  destruct (split_slash s); discriminate.
Qed.

Lemma split_slash_app (s t : string) :
  split_slash (s ++ String slash t) = (split_slash s ++ split_slash t)%list.
Proof.
  induction s as [ | c s IH ]; simpl; [ reflexivity | ].
  rewrite IH. destruct (Ascii.eqb c slash); [ reflexivity | ].
  destruct (split_slash s) eqn:Hs; [ now apply split_slash_not_nil in Hs | ].
  reflexivity.
Qed.

Lemma split_slash_one (s : string) :
  slash_free s = true -> split_slash s = [s].
Proof.
  induction s as [ | c s IH ]; simpl; [ reflexivity | ].
  intros H. apply andb_prop in H as [Hc Hs].
  apply negb_true_iff in Hc. rewrite Hc, (IH Hs). reflexivity.
Qed.

Lemma split_slash_free (s : string) :
  Forall (fun seg => slash_free seg = true) (split_slash s).
Proof.
  induction s as [ | c s IH ]; simpl; [ now repeat constructor | ].
  destruct (Ascii.eqb c slash) eqn:Hc; [ now constructor | ].
  destruct (split_slash s) as [ | seg rest ]; [ repeat constructor; simpl; now rewrite Hc | ].
  inversion IH; subst. constructor; [ | assumption ].
  simpl. now rewrite Hc.
Qed.

Lemma split_join (l : list string) :
  Forall (fun seg => slash_free seg = true) l -> l <> [] ->
  split_slash (join_slash l) = l.
Proof.
  induction l as [ | seg rest IH ]; intros Hl Hne; [ contradiction | ].
  inversion Hl as [ | ? ? Hseg Hrest ]; subst.
  destruct rest as [ | seg' rest ].
  - simpl. now apply split_slash_one.
  - change (join_slash (seg :: seg' :: rest))
      with (seg ++ String slash (join_slash (seg' :: rest))).
    rewrite split_slash_app, (split_slash_one _ Hseg), IH by (assumption || discriminate).
    reflexivity.
Qed.

Lemma simple_name_spec (s : string) :
  simple_name s = true <->
  slash_free s = true /\ s <> EmptyString /\ s <> "." /\ s <> "..".
Proof.
  unfold simple_name. rewrite !andb_true_iff, !negb_true_iff, !String.eqb_neq.
  tauto.
Qed.

Lemma simple_name_step (b : bool) (acc rest : list string) (seg : string) :
  simple_name seg = true ->
  normalize_onto b acc (seg :: rest) = normalize_onto b (seg :: acc) rest.
Proof.
  intros H. apply simple_name_spec in H as (_ & H1 & H2 & H3).
  simpl. apply String.eqb_neq in H1, H2, H3. now rewrite H1, H2, H3.
Qed.

Lemma normalize_onto_simple (b : bool) (l acc : list string) :
  Forall (fun seg => simple_name seg = true) l ->
  normalize_onto b acc l = (rev acc ++ l)%list.
Proof.
  revert acc. induction l as [ | seg rest IH ]; intros acc Hl.
  - simpl. now rewrite app_nil_r.
  - inversion Hl; subst. rewrite simple_name_step, IH by assumption.
    simpl. now rewrite <- app_assoc.
Qed.

Lemma normalize_onto_snoc (b : bool) (l acc : list string) (m : string) :
  simple_name m = true ->
  normalize_onto b acc (l ++ [m]) = (normalize_onto b acc l ++ [m])%list.
Proof.
  intros Hm. revert acc. induction l as [ | seg rest IH ]; intros acc.
  - simpl app. rewrite simple_name_step by assumption. reflexivity.
  - simpl.
    destruct ((seg =? EmptyString) || (seg =? ".")); [ apply IH | ].
    destruct (seg =? "..").
    + destruct acc as [ | top acc' ].
      * destruct b; apply IH.
      * destruct (top =? ".."); apply IH.
    + apply IH.
Qed.

(** From the root, [".."] is never kept: going up removes the last
    segment, if there is one. *)
Lemma normalize_onto_up (l acc : list string) :
  Forall (fun seg => seg <> "..") acc ->
  normalize_onto false acc (l ++ [".."]) = removelast (normalize_onto false acc l).
Proof.
  revert acc. induction l as [ | seg rest IH ]; intros acc Hacc.
  - simpl. destruct acc as [ | top acc' ]; [ reflexivity | ].
    inversion Hacc as [ | ? ? Htop Hrest ]; subst.
    apply String.eqb_neq in Htop. rewrite Htop. simpl.
    now rewrite removelast_last.
  - simpl.
    destruct ((seg =? EmptyString) || (seg =? ".")); [ now apply IH | ].
    destruct (seg =? "..") eqn:Hup.
    + destruct acc as [ | top acc' ]; [ now apply IH | ].
      inversion Hacc as [ | ? ? Htop Hrest ]; subst.
      apply String.eqb_neq in Htop. rewrite Htop. now apply IH.
    + apply IH. constructor; [ | assumption ]. now apply String.eqb_neq.
Qed.

Lemma normalize_onto_names (l acc : list string) :
  Forall (fun seg => simple_name seg = true) acc ->
  Forall (fun seg => slash_free seg = true) l ->
  Forall (fun seg => simple_name seg = true) (normalize_onto false acc l).
Proof.
  revert acc. induction l as [ | seg rest IH ]; intros acc Hacc Hl.
  - simpl. now apply Forall_rev.
  - inversion Hl as [ | ? ? Hseg Hrest ]; subst. simpl.
    destruct (seg =? EmptyString) eqn:H1; simpl; [ now apply IH | ].
    destruct (seg =? ".") eqn:H2; [ now apply IH | ].
    destruct (seg =? "..") eqn:H3.
    + destruct acc as [ | top acc' ]; [ now apply IH | ].
      inversion Hacc as [ | ? ? Htop Hacc' ]; subst.
      destruct (top =? "..") eqn:Ht; [ | now apply IH ].
      apply String.eqb_eq in Ht. subst top. discriminate Htop.
    + apply IH; [ | assumption ]. constructor; [ | assumption ].
      unfold simple_name. now rewrite Hseg, H1, H2, H3.
Qed.

Lemma simple_name_slash_free :
  forall l, Forall (fun seg => simple_name seg = true) l ->
            Forall (fun seg => slash_free seg = true) l.
Proof.
  intros l H. eapply Forall_impl; [ | exact H ].
  intros seg Hs. now apply simple_name_spec in Hs.
Qed.

Lemma resolve_segments_names (cwd : string) (args : list string) :
  Forall (fun seg => simple_name seg = true) (resolve_segments cwd args).
Proof.
  unfold resolve_segments, normalizeString.
  apply normalize_onto_names; [ constructor | apply split_slash_free ].
Qed.

Lemma simple_name_relative (m : string) :
  simple_name m = true -> (m =? EmptyString) = false /\ isAbsolute m = false.
Proof.
  intros H. apply simple_name_spec in H as (Hfree & Hne & _).
  split; [ now apply String.eqb_neq | ].
  destruct m as [ | c m ]; [ reflexivity | ].
  simpl in *. apply andb_prop in Hfree as [Hc _]. now apply negb_true_iff in Hc.
Qed.

Lemma resolve_step_simple (acc m : string) :
  simple_name m = true -> resolve_step acc m = acc ++ String slash m.
Proof.
  intros H. apply simple_name_relative in H as [H1 H2].
  unfold resolve_step. now rewrite H1, H2.
Qed.

(** [path.resolve(..., m)] for a plain name [m] goes one level down. *)
Lemma resolve_segments_child (cwd : string) (args : list string) (m : string) :
  simple_name m = true ->
  resolve_segments cwd (args ++ [m]) = (resolve_segments cwd args ++ [m])%list.
Proof.
  intros Hm. unfold resolve_segments, normalizeString.
  rewrite fold_left_app. simpl fold_left.
  rewrite resolve_step_simple, split_slash_app by assumption.
  rewrite (split_slash_one m) by (apply simple_name_spec in Hm; tauto).
  now apply normalize_onto_snoc.
Qed.

(** [path.resolve(..., '..')] goes one level up. *)
Lemma resolve_segments_up (cwd : string) (args : list string) :
  resolve_segments cwd (args ++ [".."]) = removelast (resolve_segments cwd args).
Proof.
  unfold resolve_segments, normalizeString.
  rewrite fold_left_app. simpl fold_left.
  change (resolve_step (fold_left resolve_step args cwd) "..")
    with (fold_left resolve_step args cwd ++ String slash "..").
  rewrite split_slash_app. change (split_slash "..") with [".."].
  apply normalize_onto_up. constructor.
Qed.

Lemma resolve_segments_absolute (cwd p : string) (rest : list string) :
  isAbsolute p = true ->
  resolve_segments cwd (p :: rest) = resolve_segments p rest.
Proof.
  intros Hp. unfold resolve_segments. simpl fold_left.
  unfold resolve_step at 2. rewrite Hp.
  destruct p; [ discriminate | reflexivity ].
Qed.

(** The segments of a resolved path are those it was made from. *)
Lemma resolve_segments_resolved (cwd : string) (args : list string) :
  resolve_segments (path_resolve cwd args) [] = resolve_segments cwd args.
Proof.
  unfold path_resolve.
  pose proof (resolve_segments_names cwd args) as Hnames.
  remember (resolve_segments cwd args) as segs eqn:Hsegs. clear Hsegs.
  unfold resolve_segments, normalizeString. simpl fold_left.
  change (String "/" (join_slash segs))
    with (EmptyString ++ String slash (join_slash segs)).
  rewrite split_slash_app. simpl split_slash at 1. simpl app.
  destruct segs as [ | seg rest ]; [ reflexivity | ].
  rewrite split_join by (now apply simple_name_slash_free || discriminate).
  change (normalize_onto false [] (EmptyString :: seg :: rest))
    with (normalize_onto false [] (seg :: rest)).
  now rewrite normalize_onto_simple.
Qed.

Lemma path_resolve_absolute (cwd : string) (args : list string) :
  isAbsolute (path_resolve cwd args) = true.
Proof. reflexivity. Qed.

Lemma resolve_segments_of_resolved (cwd cwd' : string) (args rest : list string) :
  resolve_segments cwd' (path_resolve cwd args :: rest) =
  resolve_segments (path_resolve cwd args) rest.
Proof. apply resolve_segments_absolute, path_resolve_absolute. Qed.

Lemma walk_app (n : node) (l1 l2 : list string) :
  walk n (l1 ++ l2) =
  match walk n l1 with
  | Some n' => walk n' l2
  | None => None
  end.
Proof.
  revert n. induction l1 as [ | seg rest IH ]; intros n; simpl; [ reflexivity | ].
  destruct n as [ data | entries ]; [ reflexivity | ].
  destruct (find_entry seg entries); [ apply IH | reflexivity ].
Qed.

Section Resolved.

Variable W : Runtime.

Lemma lookup_resolved (args : list string) :
  lookup W (path_resolve (cwd W) args) = walk (root W) (resolve_segments (cwd W) args).
Proof.
  unfold lookup.
  now rewrite resolve_segments_of_resolved, resolve_segments_resolved.
Qed.

(** Below a resolved directory, a plain name is looked up in the entries
    of that directory. *)
Lemma lookup_child (directory m : string) :
  simple_name m = true ->
  lookup W (path_resolve (cwd W) [directory; m]) =
  match lookup W directory with
  | Some n => walk n [m]
  | None => None
  end.
Proof.
  intros Hm. rewrite lookup_resolved.
  change [directory; m] with ([directory] ++ [m])%list.
  rewrite resolve_segments_child, walk_app by assumption. reflexivity.
Qed.

(** What holds a file is a directory. *)
Lemma lookup_child_dir (directory m : string) (n : node) :
  simple_name m = true ->
  lookup W (path_resolve (cwd W) [directory; m]) = Some n ->
  exists entries, lookup W directory = Some (Dir entries).
Proof.
  intros Hm. rewrite lookup_child by assumption.
  destruct (lookup W directory) as [ [ data | entries ] | ]; simpl; try discriminate.
  intros _. now exists entries.
Qed.

Lemma lookup_self (directory : string) :
  lookup W (path_resolve (cwd W) [directory; EmptyString]) = lookup W directory.
Proof. now rewrite lookup_resolved. Qed.

End Resolved.

(** ** Reading files and markers *)

Section Reading.

Variable W : Runtime.

Lemma readFileSync_file (p data : string) :
  lookup W p = Some (File data) ->
  readFileSync W p = ([ReadFile p], Returned data).
Proof. intros H. unfold readFileSync. now rewrite H. Qed.

Lemma readFileSync_directory (p : string) (entries : list (string * node)) :
  lookup W p = Some (Dir entries) ->
  readFileSync W p = ([ReadFile p], Thrown (FsError "EISDIR" p)).
Proof. intros H. unfold readFileSync. now rewrite H. Qed.

Lemma readFileSync_missing (p : string) :
  lookup W p = None ->
  readFileSync W p = ([ReadFile p], Thrown (FsError "ENOENT" p)).
Proof. intros H. unfold readFileSync. now rewrite H. Qed.

Lemma readJSONSync_parsed (p : string) (v : value) :
  parsed W p = Some v -> _readJSONSync W p = ([ReadFile p], Returned v).
Proof.
  unfold parsed, _readJSONSync, readFileSync.
  destruct (lookup W p) as [ [ data | entries ] | ]; try discriminate.
  simpl. now intros ->.
Qed.

Lemma readJSONSync_thrown (p : string) :
  parsed W p = None -> exists e, _readJSONSync W p = ([ReadFile p], Thrown e).
Proof.
  unfold parsed, _readJSONSync, readFileSync.
  destruct (lookup W p) as [ [ data | entries ] | ]; simpl.
  - intros ->. eexists; reflexivity.
  - intros _. eexists; reflexivity.
  - intros _. eexists; reflexivity.
Qed.

Lemma readJSONSync_returned (p : string) (v : value) :
  result (_readJSONSync W p) = Returned v <-> parsed W p = Some v.
Proof.
  split.
  - destruct (parsed W p) as [ v' | ] eqn:Hp.
    + rewrite (readJSONSync_parsed _ _ Hp). simpl. congruence.
    + destruct (readJSONSync_thrown _ Hp) as [e ->]. discriminate.
  - intros Hp. now rewrite (readJSONSync_parsed _ _ Hp).
Qed.

Lemma valid_marker_run (marker what directory : string) :
  valid_marker W marker what directory =
  (ReadFile (path_resolve (cwd W) [directory; marker])
     :: (if marker_ok W marker directory then []
         else [invalid_log marker what directory]),
   Returned (marker_ok W marker directory)).
Proof.
  unfold valid_marker, marker_ok.
  destruct (parsed W (path_resolve (cwd W) [directory; marker])) as [ v | ] eqn:Hp.
  - now rewrite (readJSONSync_parsed _ _ Hp).
  - destruct (readJSONSync_thrown _ Hp) as [e ->]. reflexivity.
Qed.

Lemma valid_marker_logs (marker what directory : string) :
  filter is_log (events (valid_marker W marker what directory)) =
  if marker_ok W marker directory then [] else [invalid_log marker what directory].
Proof.
  rewrite valid_marker_run. simpl.
  now destruct (marker_ok W marker directory).
Qed.

Lemma scan_unfold (pattern marker what : string) :
  scan W pattern marker what =
  (emit (Glob pattern) ;;;
   array_filter (valid_marker W marker what) (candidates W pattern)).
Proof.
  unfold scan, glob_sync, candidates, emit, ret, bind.
  now destruct (array_filter _ _).
Qed.

Lemma scan_result (pattern marker what : string) :
  result (scan W pattern marker what) =
  Returned (filter (marker_ok W marker) (candidates W pattern)).
Proof.
  rewrite scan_unfold, result_bind. simpl.
  apply array_filter_pure. intros d _. now rewrite valid_marker_run.
Qed.

Lemma scan_events (pattern marker what : string) :
  events (scan W pattern marker what) =
  Glob pattern
    :: flat_map (fun d => events (valid_marker W marker what d)) (candidates W pattern).
Proof.
  rewrite scan_unfold, events_bind. simpl. f_equal.
  apply (array_filter_events _ (marker_ok W marker)).
  intros d _. now rewrite valid_marker_run.
Qed.

Lemma scan_logs (pattern marker what : string) :
  filter is_log (events (scan W pattern marker what)) =
  map (invalid_log marker what)
      (filter (fun d => negb (marker_ok W marker d)) (candidates W pattern)).
Proof.
  rewrite scan_events. simpl. rewrite filter_flat_map.
  induction (candidates W pattern) as [ | d ds IH ]; simpl; [ reflexivity | ].
  rewrite valid_marker_logs, IH.
  now destruct (marker_ok W marker d).
Qed.

End Reading.

(** ** The content loaders *)

Section Loading.

Variable W : Runtime.

Lemma get_prop_run (v : value) (key : string) :
  nullish v = false -> get_prop v key = ret (property v key).
Proof. now destruct v. Qed.

Lemma get_prop_thrown (v : value) (key : string) :
  nullish v = true -> get_prop v key = throw (TypeError key).
Proof. now destruct v. Qed.

(** The attempt of both loaders: resolve, then read. *)
Lemma attempt_run (directory : string) (filePath : value) :
  match content W directory filePath with
  | Some data =>
      (p <- path_resolve_value W directory filePath ;; readFileSync W p) =
      (read_attempt W directory filePath, Returned data)
  | None =>
      exists e,
      (p <- path_resolve_value W directory filePath ;; readFileSync W p) =
      (read_attempt W directory filePath, Thrown e)
  end.
Proof.
  unfold content, read_attempt.
  destruct filePath as [ | | b | q | p | items | props ];
    try (eexists; reflexivity).
  simpl path_resolve_value. rewrite bind_ret_l.
  destruct (lookup W (path_resolve (cwd W) [directory; p]))
    as [ [ data | entries ] | ] eqn:Hp.
  - now apply readFileSync_file.
  - eexists. now apply (readFileSync_directory W _ entries).
  - eexists. now apply readFileSync_missing.
Qed.

Lemma template_run (message : list piece) :
  forallb (fun p => match p with Text _ => true | Interp v => convertible v end)
          message = true ->
  template message = ret message.
Proof. intros H. unfold template. now rewrite H. Qed.

(** The catch block of both loaders. *)
Lemma handler_run (label directory : string) (metadata filePath : value) :
  nullish metadata = false ->
  (name <- get_prop metadata "name" ;;
   owner <- template [Text label; Interp (or_else name (VString directory))] ;;
   log owner
       (Some {| level := LOG_LEVEL_error W; newLine := VBool true |}) ;;;
   missing <- template [Text "File "; Interp filePath; Text " was not found"] ;;
   log missing None ;;;
   ret EmptyString) =
  if convertible (log_owner directory metadata) then
    if convertible filePath then
      (not_found_logs W label directory metadata filePath, Returned EmptyString)
    else
      ([Log [Text label; Interp (log_owner directory metadata)]
            (Some {| level := LOG_LEVEL_error W; newLine := VBool true |})],
       Thrown conversion_error)
  else ([], Thrown conversion_error).
Proof.
  intros Hm. rewrite get_prop_run by assumption. rewrite bind_ret_l.
  unfold template, log_owner. simpl forallb.
  destruct (convertible (or_else (property metadata "name") (VString directory)));
    [ | reflexivity ].
  destruct (convertible filePath); reflexivity.
Qed.

Lemma fragment_readFile_spec (directory : string) (metadata filePath : value) :
  nullish metadata = false ->
  fragment_readFile W directory metadata filePath =
  loader_run W "✘ Fragment " directory metadata filePath.
Proof.
  intros Hm. unfold fragment_readFile, loader_run.
  pose proof (attempt_run directory filePath) as H.
  destruct (content W directory filePath) as [ data | ].
  - now rewrite H.
  - destruct H as [e ->]. unfold try_catch.
    rewrite (handler_run "✘ Fragment ") by assumption.
    destruct (convertible (log_owner directory metadata));
      [ | now rewrite app_nil_r ].
    now destruct (convertible filePath).
Qed.

Lemma composition_readFile_spec (directory : string) (metadata filePath : value) :
  nullish metadata = false ->
  composition_readFile W directory metadata filePath =
  loader_run W "✘ Fragment composition " directory metadata filePath.
Proof.
  intros Hm. unfold composition_readFile, loader_run.
  pose proof (attempt_run directory filePath) as H.
  destruct (content W directory filePath) as [ data | ].
  - now rewrite H.
  - destruct H as [e ->]. unfold try_catch.
    rewrite (handler_run "✘ Fragment composition ") by assumption.
    destruct (convertible (log_owner directory metadata));
      [ | now rewrite app_nil_r ].
    now destruct (convertible filePath).
Qed.

Lemma loader_run_returns (label directory : string) (metadata filePath : value) :
  loader_returns W directory metadata filePath = true ->
  loader_run W label directory metadata filePath =
  ((read_attempt W directory filePath ++
    match content W directory filePath with
    | Some _ => []
    | None => not_found_logs W label directory metadata filePath
    end)%list,
   Returned (loaded W directory filePath)).
Proof.
  unfold loader_returns, loader_run, loaded, reportable.
  destruct (content W directory filePath) as [ data | ].
  - intros _. now rewrite app_nil_r.
  - intros H. apply andb_prop in H as [-> ->]. reflexivity.
Qed.

Lemma loader_run_thrown (label directory : string) (metadata filePath : value) :
  loader_returns W directory metadata filePath = false ->
  result (loader_run W label directory metadata filePath)
  = Thrown conversion_error.
Proof.
  unfold loader_returns, loader_run, reportable.
  destruct (content W directory filePath) as [ data | ]; [ discriminate | ].
  destruct (convertible (log_owner directory metadata)); [ | reflexivity ].
  now destruct (convertible filePath).
Qed.

Lemma fragment_readFile_run (directory : string) (metadata filePath : value) :
  nullish metadata = false ->
  loader_returns W directory metadata filePath = true ->
  fragment_readFile W directory metadata filePath =
  ((read_attempt W directory filePath ++
    match content W directory filePath with
    | Some _ => []
    | None => not_found_logs W "✘ Fragment " directory metadata filePath
    end)%list,
   Returned (loaded W directory filePath)).
Proof.
  intros Hm Hr. rewrite fragment_readFile_spec by assumption.
  now apply loader_run_returns.
Qed.

Lemma composition_readFile_run (directory : string) (metadata filePath : value) :
  nullish metadata = false ->
  loader_returns W directory metadata filePath = true ->
  composition_readFile W directory metadata filePath =
  ((read_attempt W directory filePath ++
    match content W directory filePath with
    | Some _ => []
    | None =>
        not_found_logs W "✘ Fragment composition " directory metadata filePath
    end)%list,
   Returned (loaded W directory filePath)).
Proof.
  intros Hm Hr. rewrite composition_readFile_spec by assumption.
  now apply loader_run_returns.
Qed.

Lemma configuration_missing (directory p : string) :
  lookup W (path_resolve (cwd W) [directory; p]) = None ->
  result (_getFramentConfiguration W directory (VString p)) = Returned EmptyString
  /\ filter is_log (events (_getFramentConfiguration W directory (VString p))) = [].
Proof.
  intros H. unfold _getFramentConfiguration, existsSync.
  destruct (truthy (VString p)); [ | now split ].
  simpl. rewrite H. now split.
Qed.

Lemma configuration_file (directory p data : string) :
  p <> EmptyString ->
  lookup W (path_resolve (cwd W) [directory; p]) = Some (File data) ->
  _getFramentConfiguration W directory (VString p) =
  ([Exists (path_resolve (cwd W) [directory; p]);
    ReadFile (path_resolve (cwd W) [directory; p])],
   Returned data).
Proof.
  intros Hp H. unfold _getFramentConfiguration, existsSync, readFileSync.
  apply String.eqb_neq in Hp. simpl. rewrite Hp. simpl. now rewrite H.
Qed.

Lemma configuration_directory (directory p : string) (entries : list (string * node)) :
  p <> EmptyString ->
  lookup W (path_resolve (cwd W) [directory; p]) = Some (Dir entries) ->
  _getFramentConfiguration W directory (VString p) =
  ([Exists (path_resolve (cwd W) [directory; p]);
    ReadFile (path_resolve (cwd W) [directory; p])],
   Thrown (FsError "EISDIR" (path_resolve (cwd W) [directory; p]))).
Proof.
  intros Hp H. unfold _getFramentConfiguration, existsSync, readFileSync.
  apply String.eqb_neq in Hp. simpl. rewrite Hp. simpl. now rewrite H.
Qed.

(** No call of the logger in [_getFramentConfiguration], whatever it is
    given. *)
Lemma configuration_silent (directory : string) (configurationPath : value) :
  filter is_log (events (_getFramentConfiguration W directory configurationPath)) = [].
Proof.
  unfold _getFramentConfiguration, existsSync, readFileSync.
  destruct (truthy configurationPath); [ | reflexivity ].
  destruct configurationPath as [ | | b | q | p | items | props ]; try reflexivity.
  simpl.
  destruct (lookup W (path_resolve (cwd W) [directory; p]))
    as [ [ data | entries ] | ]; reflexivity.
Qed.

End Loading.

(** ** The scans as [scan] followed by [.map] *)

Section Scans.

Variable W : Runtime.

Lemma getCollectionFragments_scan (collectionDirectory : string) :
  _getCollectionFragments W collectionDirectory =
  (directories <-
     scan W (path_join [collectionDirectory; "*"; "fragment.json"])
       "fragment.json" "fragment" ;;
   array_map (fragment_of_directory W) directories).
Proof. unfold _getCollectionFragments, scan. now rewrite bind_assoc. Qed.

Lemma getCollectionFragmentCompositions_scan (collectionDirectory : string) :
  _getCollectionFragmentCompositions W collectionDirectory =
  (directories <-
     scan W (path_join [collectionDirectory; "*"; "fragment-composition.json"])
       "fragment-composition.json" "fragment composition" ;;
   array_map (composition_of_directory W) directories).
Proof. unfold _getCollectionFragmentCompositions, scan. now rewrite bind_assoc. Qed.

Lemma getProjectCollections_scan (basePath : string) :
  _getProjectCollections W basePath =
  (directories <-
     scan W (path_join [basePath; "src"; "*"; "collection.json"])
       "collection.json" "collection" ;;
   array_map (collection_of_directory W) directories).
Proof. unfold _getProjectCollections, scan. now rewrite bind_assoc. Qed.

Lemma getPageTemplates_scan (basePath : string) :
  _getPageTemplates W basePath =
  (directories <-
     scan W (path_join [basePath; "src"; "*"; "page-template.json"])
       "page-template.json" "page template" ;;
   array_map (pageTemplate_of_directory W) directories).
Proof. unfold _getPageTemplates, scan. now rewrite bind_assoc. Qed.

Lemma result_after_scan {A} (pattern marker what : string)
  (k : list string -> M A) :
  result (directories <- scan W pattern marker what ;; k directories) =
  result (k (filter (marker_ok W marker) (candidates W pattern))).
Proof. now rewrite result_bind, scan_result. Qed.

Lemma getCollectionFragments_result (collectionDirectory : string) :
  result (_getCollectionFragments W collectionDirectory) =
  result (array_map (fragment_of_directory W)
            (fragment_directories W collectionDirectory)).
Proof. rewrite getCollectionFragments_scan. apply result_after_scan. Qed.

Lemma getCollectionFragmentCompositions_result (collectionDirectory : string) :
  result (_getCollectionFragmentCompositions W collectionDirectory) =
  result (array_map (composition_of_directory W)
            (composition_directories W collectionDirectory)).
Proof. rewrite getCollectionFragmentCompositions_scan. apply result_after_scan. Qed.

Lemma getProjectCollections_result (basePath : string) :
  result (_getProjectCollections W basePath) =
  result (array_map (collection_of_directory W)
            (collection_directories W basePath)).
Proof. rewrite getProjectCollections_scan. apply result_after_scan. Qed.

Lemma getPageTemplates_result (basePath : string) :
  result (_getPageTemplates W basePath) =
  result (array_map (pageTemplate_of_directory W)
            (pageTemplate_directories W basePath)).
Proof. rewrite getPageTemplates_scan. apply result_after_scan. Qed.

Lemma marker_ok_parsed (marker directory : string) :
  marker_ok W marker directory = true <->
  exists v, parsed W (path_resolve (cwd W) [directory; marker]) = Some v.
Proof.
  unfold marker_ok.
  destruct (parsed W (path_resolve (cwd W) [directory; marker])) as [ v | ].
  - split; [ now exists v | reflexivity ].
  - split; [ discriminate | now intros [v Hv] ].
Qed.

End Scans.

(** ** The callbacks of [.map] *)

Section Entities.

Variable W : Runtime.

(** One step of a callback whose next call is known to return. *)
Ltac step_result :=
  repeat first
    [ rewrite result_bind_returned
    | rewrite get_prop_run by assumption; unfold ret at 1
    | rewrite fragment_readFile_run by assumption
    | rewrite composition_readFile_run by assumption ].

(** A loader that throws ends the callback. *)
Ltac step_loader H :=
  match goal with
  | |- context [ loader_returns W ?d ?m ?p ] =>
      destruct (loader_returns W d m p) eqn:H;
      [ rewrite (loader_run_returns W _ _ _ _ H), result_bind_returned
      | rewrite result_bind, (loader_run_thrown W _ _ _ _ H); reflexivity ]
  end.

Lemma fragment_of_directory_result (directory : string) (metadata : value) :
  parsed W (path_resolve (cwd W) [directory; "fragment.json"]) = Some metadata ->
  nullish metadata = false ->
  result (fragment_of_directory W directory) =
  if fragment_loaders_return W directory metadata then
    match result (_getFramentConfiguration W directory
                    (property metadata "configurationPath")) with
    | Returned configuration =>
        Returned
          {| Fragment.slug := path_basename directory;
             Fragment.metadata := metadata;
             Fragment.html := loaded W directory (property metadata "htmlPath");
             Fragment.css := loaded W directory (property metadata "cssPath");
             Fragment.js := loaded W directory (property metadata "jsPath");
             Fragment.configuration := configuration |}
    | Thrown e => Thrown e
    end
  else Thrown conversion_error.
Proof.
  intros Hp Hm. unfold fragment_of_directory, fragment_loaders_return.
  rewrite (readJSONSync_parsed _ _ _ Hp). cbn [forallb].
  rewrite result_bind_returned.
  rewrite get_prop_run by assumption; unfold ret at 1.
  rewrite result_bind_returned, fragment_readFile_spec by assumption.
  step_loader Hhtml.
  rewrite get_prop_run by assumption; unfold ret at 1.
  rewrite result_bind_returned, fragment_readFile_spec by assumption.
  step_loader Hcss.
  rewrite get_prop_run by assumption; unfold ret at 1.
  rewrite result_bind_returned, fragment_readFile_spec by assumption.
  step_loader Hjs.
  rewrite get_prop_run by assumption; unfold ret at 1.
  rewrite result_bind_returned, result_bind.
  destruct (result (_getFramentConfiguration _ _ _)); reflexivity.
Qed.

Lemma fragment_of_directory_null (directory : string) (metadata : value) :
  parsed W (path_resolve (cwd W) [directory; "fragment.json"]) = Some metadata ->
  nullish metadata = true ->
  result (fragment_of_directory W directory) = Thrown (TypeError "htmlPath").
Proof.
  intros Hp Hm. unfold fragment_of_directory.
  rewrite (readJSONSync_parsed _ _ _ Hp), result_bind_returned.
  rewrite get_prop_thrown by assumption. reflexivity.
Qed.

Lemma fragment_of_directory_unparsed (directory : string) :
  parsed W (path_resolve (cwd W) [directory; "fragment.json"]) = None ->
  exists e, result (fragment_of_directory W directory) = Thrown e.
Proof.
  intros Hp. unfold fragment_of_directory.
  destruct (readJSONSync_thrown _ _ Hp) as [e ->]. now exists e.
Qed.

Lemma composition_of_directory_result (directory : string) (metadata : value) :
  parsed W (path_resolve (cwd W) [directory; "fragment-composition.json"])
    = Some metadata ->
  nullish metadata = false ->
  result (composition_of_directory W directory) =
  if composition_loader_returns W directory metadata then
    Returned
      {| FragmentComposition.slug := path_basename directory;
         FragmentComposition.metadata := metadata;
         FragmentComposition.definitionData :=
           loaded W directory
             (property metadata "fragmentCompositionDefinitionPath") |}
  else Thrown conversion_error.
Proof.
  intros Hp Hm. unfold composition_of_directory, composition_loader_returns.
  rewrite (readJSONSync_parsed _ _ _ Hp).
  rewrite result_bind_returned.
  rewrite get_prop_run by assumption; unfold ret at 1.
  rewrite result_bind_returned, composition_readFile_spec by assumption.
  step_loader Hdefinition. reflexivity.
Qed.

Lemma pageTemplate_of_directory_result (directory : string)
  (metadata definition : value) :
  parsed W (path_resolve (cwd W) [directory; "page-template.json"]) = Some metadata ->
  nullish metadata = false ->
  parsed W (path_resolve (cwd W) [directory; "page-definition.json"])
    = Some definition ->
  result (pageTemplate_of_directory W directory) =
  Returned
    {| PageTemplate.slug := path_basename directory;
       PageTemplate.metadata :=
         {| PageTemplate.name := property metadata "name";
            PageTemplate.pageTemplateDefinitionPath :=
              path_resolve (cwd W) [directory; "page-definition.json"] |};
       PageTemplate.definitionData := JSON_stringify W definition |}.
Proof.
  intros Hp Hm Hd. unfold pageTemplate_of_directory.
  rewrite (readJSONSync_parsed _ _ _ Hp). step_result.
  rewrite (readJSONSync_parsed _ _ _ Hd). reflexivity.
Qed.

(** Without a definition that parses, the callback throws. *)
Lemma pageTemplate_of_directory_thrown (directory : string) :
  parsed W (path_resolve (cwd W) [directory; "page-definition.json"]) = None ->
  exists e, result (pageTemplate_of_directory W directory) = Thrown e.
Proof.
  intros Hd. unfold pageTemplate_of_directory.
  rewrite result_bind.
  destruct (result (_readJSONSync W _)) as [ metadata | e ]; [ | now exists e ].
  rewrite result_bind.
  destruct (result (get_prop metadata "name")) as [ name | e ]; [ | now exists e ].
  rewrite result_bind.
  destruct (readJSONSync_thrown _ _ Hd) as [e ->]. now exists e.
Qed.

Lemma collection_of_directory_result (directory : string) (metadata : value) :
  parsed W (path_resolve (cwd W) [directory; "collection.json"]) = Some metadata ->
  result (collection_of_directory W directory) =
  match result (_getCollectionFragmentCompositions W directory) with
  | Returned fragmentCompositions =>
      match result (_getCollectionFragments W directory) with
      | Returned fragments =>
          Returned
            {| Collection.slug := path_basename directory;
               Collection.fragmentCollectionId := path_basename directory;
               Collection.metadata := metadata;
               Collection.fragmentCompositions := fragmentCompositions;
               Collection.fragments := fragments |}
      | Thrown e => Thrown e
      end
  | Thrown e => Thrown e
  end.
Proof.
  intros Hp. unfold collection_of_directory.
  rewrite (readJSONSync_parsed _ _ _ Hp), result_bind_returned, result_bind.
  destruct (result (_getCollectionFragmentCompositions W directory));
    [ | reflexivity ].
  rewrite result_bind.
  destruct (result (_getCollectionFragments W directory)); reflexivity.
Qed.

End Entities.

Lemma fragment_of_directory_returned (W : Runtime) (directory : string)
  (f : Fragment.t) :
  result (fragment_of_directory W directory) = Returned f ->
  parsed W (path_resolve (cwd W) [directory; "fragment.json"])
    = Some (Fragment.metadata f)
  /\ nullish (Fragment.metadata f) = false
  /\ Fragment.slug f = path_basename directory
  /\ Fragment.html f = loaded W directory (property (Fragment.metadata f) "htmlPath")
  /\ Fragment.css f = loaded W directory (property (Fragment.metadata f) "cssPath")
  /\ Fragment.js f = loaded W directory (property (Fragment.metadata f) "jsPath")
  /\ result (_getFramentConfiguration W directory
               (property (Fragment.metadata f) "configurationPath"))
     = Returned (Fragment.configuration f).
Proof.
  intros H.
  destruct (parsed W (path_resolve (cwd W) [directory; "fragment.json"]))
    as [ metadata | ] eqn:Hp.
  - destruct (nullish metadata) eqn:Hm.
    + rewrite (fragment_of_directory_null W _ _ Hp Hm) in H. discriminate.
    + rewrite (fragment_of_directory_result W _ _ Hp Hm) in H.
      destruct (fragment_loaders_return W directory metadata); [ | discriminate ].
      destruct (result (_getFramentConfiguration W directory _)) as [ c | e ] eqn:Hc;
        [ | discriminate ].
      injection H as <-. simpl. now repeat split.
  - destruct (fragment_of_directory_unparsed W _ Hp) as [e He]. congruence.
Qed.


Lemma falsy_content_is_none (W : Runtime) (directory marker : string)
  (metadata filePath : value) :
  simple_name marker = true ->
  parsed W (path_resolve (cwd W) [directory; marker]) = Some metadata ->
  truthy filePath = false ->
  content W directory filePath = None
  /\ read_attempt W directory filePath =
     match filePath with
     | VString _ => [ReadFile (path_resolve (cwd W) [directory; EmptyString])]
     | _ => []
     end.
Proof.
  intros Hmarker Hparsed Hfalsy.
  destruct filePath as [ | | b | q | p | items | props ]; try (now split).
  simpl in Hfalsy. apply negb_false_iff, String.eqb_eq in Hfalsy. subst p.
  split; [ | reflexivity ].
  unfold content. rewrite lookup_self.
  unfold parsed in Hparsed.
  destruct (lookup W (path_resolve (cwd W) [directory; marker])) as [ n | ] eqn:Hn;
    [ | discriminate ].
  destruct (lookup_child_dir W _ _ _ Hmarker Hn) as [entries ->]. reflexivity.
Qed.

(** ** Throws reach the top *)

Section Propagation.

Variable W : Runtime.

Lemma getCollectionFragments_thrown (collection fragment : string) :
  In fragment (fragment_directories W collection) ->
  (exists e, result (fragment_of_directory W fragment) = Thrown e) ->
  exists e, result (_getCollectionFragments W collection) = Thrown e.
Proof.
  intros Hin Hthrown. rewrite getCollectionFragments_result.
  now apply array_map_thrown with (x := fragment).
Qed.

Lemma getProjectCollections_thrown (basePath collection : string) :
  In collection (collection_directories W basePath) ->
  (exists e, result (collection_of_directory W collection) = Thrown e) ->
  exists e, result (_getProjectCollections W basePath) = Thrown e.
Proof.
  intros Hin Hthrown. rewrite getProjectCollections_result.
  now apply array_map_thrown with (x := collection).
Qed.

Lemma getPageTemplates_thrown (basePath directory : string) :
  In directory (pageTemplate_directories W basePath) ->
  (exists e, result (pageTemplate_of_directory W directory) = Thrown e) ->
  exists e, result (_getPageTemplates W basePath) = Thrown e.
Proof.
  intros Hin Hthrown. rewrite getPageTemplates_result.
  now apply array_map_thrown with (x := directory).
Qed.

Lemma collection_of_directory_thrown (collection : string) :
  (exists e, result (_getCollectionFragments W collection) = Thrown e) ->
  exists e, result (collection_of_directory W collection) = Thrown e.
Proof.
  intros [e He]. unfold collection_of_directory.
  rewrite result_bind.
  destruct (result (_readJSONSync W _)) as [ metadata | e' ]; [ | now exists e' ].
  rewrite result_bind.
  destruct (result (_getCollectionFragmentCompositions W collection))
    as [ compositions | e' ]; [ | now exists e' ].
  rewrite result_bind, He. now exists e.
Qed.

Lemma getProjectContent_thrown_by_collections (basePath : string) :
  (exists e, result (_getProjectCollections W basePath) = Thrown e) ->
  exists e, result (getProjectContent W basePath) = Thrown e.
Proof.
  intros [e He]. unfold getProjectContent.
  rewrite result_bind.
  destruct (result (_readJSONSync W _)) as [ project | e' ]; [ | now exists e' ].
  rewrite result_bind, He. now exists e.
Qed.

Lemma getProjectContent_thrown_by_pageTemplates (basePath : string) :
  (exists e, result (_getPageTemplates W basePath) = Thrown e) ->
  exists e, result (getProjectContent W basePath) = Thrown e.
Proof.
  intros [e He]. unfold getProjectContent.
  rewrite result_bind.
  destruct (result (_readJSONSync W _)) as [ project | e' ]; [ | now exists e' ].
  rewrite result_bind.
  destruct (result (_getProjectCollections W basePath))
    as [ collections | e' ]; [ | now exists e' ].
  rewrite result_bind, He. now exists e.
Qed.

Lemma getProjectContent_thrown_by_package (basePath : string) :
  parsed W (path_resolve (cwd W) [basePath; "package.json"]) = None ->
  exists e, result (getProjectContent W basePath) = Thrown e.
Proof.
  intros Hp. unfold getProjectContent.
  destruct (readJSONSync_thrown _ _ Hp) as [e ->]. now exists e.
Qed.

End Propagation.

Lemma Forall2_In_l {A B} (R : A -> B -> Prop) (xs : list A) (ys : list B) (x : A) :
  Forall2 R xs ys -> In x xs -> exists y, In y ys /\ R x y.
Proof.
  induction 1 as [ | x' y' xs ys Hxy Hrest IH ]; intros Hin; [ contradiction | ].
  destruct Hin as [-> | Hin].
  - exists y'. split; [ now left | assumption ].
  - destruct (IH Hin) as (y & Hy & HR). exists y. split; [ now right | assumption ].
Qed.

Lemma pageTemplate_of_directory_returned (W : Runtime) (directory : string)
  (t : PageTemplate.t) :
  result (pageTemplate_of_directory W directory) = Returned t ->
  exists metadata text definition,
    parsed W (path_resolve (cwd W) [directory; "page-template.json"]) = Some metadata
    /\ nullish metadata = false
    /\ lookup W (path_resolve (cwd W) [directory; "page-definition.json"])
       = Some (File text)
    /\ JSON_parse W text = Some definition
    /\ t = {| PageTemplate.slug := path_basename directory;
              PageTemplate.metadata :=
                {| PageTemplate.name := property metadata "name";
                   PageTemplate.pageTemplateDefinitionPath :=
                     path_resolve (cwd W) [directory; "page-definition.json"] |};
              PageTemplate.definitionData := JSON_stringify W definition |}.
Proof.
  intros H.
  destruct (parsed W (path_resolve (cwd W) [directory; "page-definition.json"]))
    as [ definition | ] eqn:Hd.
  2: { destruct (pageTemplate_of_directory_thrown W _ Hd) as [e He]. congruence. }
  destruct (parsed W (path_resolve (cwd W) [directory; "page-template.json"]))
    as [ metadata | ] eqn:Hp.
  2: { unfold pageTemplate_of_directory in H.
       destruct (readJSONSync_thrown _ _ Hp) as [e He]. rewrite He in H.
       discriminate. }
  destruct (nullish metadata) eqn:Hm.
  { unfold pageTemplate_of_directory in H.
    rewrite (readJSONSync_parsed _ _ _ Hp), result_bind_returned in H.
    rewrite get_prop_thrown in H by assumption. discriminate. }
  rewrite (pageTemplate_of_directory_result W _ _ _ Hp Hm Hd) in H.
  injection H as <-.
  unfold parsed in Hd.
  destruct (lookup W (path_resolve (cwd W) [directory; "page-definition.json"]))
    as [ [ text | entries ] | ]; try discriminate.
  exists metadata, text, definition. now repeat split.
Qed.

(** ** Two file systems that agree on what a fragment reads *)

Section Agreement.

Variables W W' : Runtime.
Hypothesis same_cwd : cwd W' = cwd W.




End Agreement.

(** ** The shape of what the scans return *)

Section Shapes.

Variable W : Runtime.

Lemma composition_of_directory_returned (directory : string)
  (c : FragmentComposition.t) :
  result (composition_of_directory W directory) = Returned c ->
  FragmentComposition.slug c = path_basename directory.
Proof.
  unfold composition_of_directory. rewrite result_bind.
  destruct (result (_readJSONSync W _)) as [ metadata | e ]; [ | discriminate ].
  rewrite result_bind.
  destruct (result (get_prop metadata _)) as [ definitionPath | e ]; [ | discriminate ].
  rewrite result_bind.
  destruct (result (composition_readFile W directory metadata definitionPath))
    as [ data | e ]; [ | discriminate ].
  simpl. now intros [= <-].
Qed.

Lemma getCollectionFragments_returned (collection : string)
  (fragments : list Fragment.t) :
  result (_getCollectionFragments W collection) = Returned fragments ->
  Forall2 (fun directory f => result (fragment_of_directory W directory) = Returned f)
          (fragment_directories W collection) fragments.
Proof.
  rewrite getCollectionFragments_result. apply array_map_returned.
Qed.

Lemma getCollectionFragmentCompositions_returned (collection : string)
  (compositions : list FragmentComposition.t) :
  result (_getCollectionFragmentCompositions W collection) = Returned compositions ->
  Forall2 (fun directory c =>
             result (composition_of_directory W directory) = Returned c)
          (composition_directories W collection) compositions.
Proof.
  rewrite getCollectionFragmentCompositions_result. apply array_map_returned.
Qed.

Lemma collection_of_directory_returned (directory : string) (c : Collection.t) :
  result (collection_of_directory W directory) = Returned c ->
  Collection.slug c = path_basename directory
  /\ Collection.fragmentCollectionId c = path_basename directory
  /\ parsed W (path_resolve (cwd W) [directory; "collection.json"])
     = Some (Collection.metadata c)
  /\ result (_getCollectionFragmentCompositions W directory)
     = Returned (Collection.fragmentCompositions c)
  /\ result (_getCollectionFragments W directory) = Returned (Collection.fragments c).
Proof.
  intros H.
  destruct (parsed W (path_resolve (cwd W) [directory; "collection.json"]))
    as [ metadata | ] eqn:Hp.
  - rewrite (collection_of_directory_result W _ _ Hp) in H.
    destruct (result (_getCollectionFragmentCompositions W directory));
      [ | discriminate ].
    destruct (result (_getCollectionFragments W directory)); [ | discriminate ].
    injection H as <-. now repeat split.
  - unfold collection_of_directory in H.
    destruct (readJSONSync_thrown _ _ Hp) as [e He]. rewrite He in H. discriminate.
Qed.

Lemma getProjectContent_returned (basePath : string) (p : Project.t) :
  result (getProjectContent W basePath) = Returned p ->
  Project.basePath p = basePath
  /\ parsed W (path_resolve (cwd W) [basePath; "package.json"])
     = Some (Project.project p)
  /\ result (_getProjectCollections W basePath) = Returned (Project.collections p)
  /\ result (_getPageTemplates W basePath) = Returned (Project.pageTemplates p).
Proof.
  unfold getProjectContent. rewrite result_bind.
  destruct (result (_readJSONSync W _)) as [ project | e ] eqn:Hproject;
    [ | discriminate ].
  apply readJSONSync_returned in Hproject.
  rewrite result_bind.
  destruct (result (_getProjectCollections W basePath)) as [ collections | e ];
    [ | discriminate ].
  rewrite result_bind.
  destruct (result (_getPageTemplates W basePath)) as [ pageTemplates | e ];
    [ | discriminate ].
  simpl. intros [= <-]. now repeat split.
Qed.

Lemma getProjectContent_result (basePath : string) (project : value)
  (collections : list Collection.t) (pageTemplates : list PageTemplate.t) :
  parsed W (path_resolve (cwd W) [basePath; "package.json"]) = Some project ->
  result (_getProjectCollections W basePath) = Returned collections ->
  result (_getPageTemplates W basePath) = Returned pageTemplates ->
  result (getProjectContent W basePath) =
  Returned {| Project.basePath := basePath;
              Project.project := project;
              Project.collections := collections;
              Project.pageTemplates := pageTemplates |}.
Proof.
  intros Hp Hc Ht. unfold getProjectContent.
  rewrite (readJSONSync_parsed _ _ _ Hp), result_bind_returned.
  rewrite result_bind, Hc, result_bind, Ht. reflexivity.
Qed.

End Shapes.

(** ** The scans, read on the tree *)

Lemma normalize_split_absolute (segs : list string) :
  Forall (fun seg => simple_name seg = true) segs ->
  normalize_onto false [] (split_slash (absolute segs)) = segs.
Proof.
  intros Hnames. unfold absolute.
  change ("/" ++ join_slash segs)
    with (EmptyString ++ String slash (join_slash segs)).
  rewrite split_slash_app. simpl split_slash at 1. simpl app.
  destruct segs as [ | seg rest ]; [ reflexivity | ].
  rewrite split_join by (now apply simple_name_slash_free || discriminate).
  change (normalize_onto false [] (EmptyString :: seg :: rest))
    with (normalize_onto false [] (seg :: rest)).
  now rewrite normalize_onto_simple.
Qed.

Lemma resolve_segments_canonical (c : string) (segs : list string) :
  Forall (fun seg => simple_name seg = true) segs ->
  resolve_segments c [absolute segs] = segs.
Proof.
  intros Hnames.
  rewrite resolve_segments_absolute by reflexivity.
  now apply normalize_split_absolute.
Qed.

Lemma resolve_segments_children (c : string) (rest args : list string) :
  Forall (fun seg => simple_name seg = true) rest ->
  resolve_segments c (args ++ rest) = (resolve_segments c args ++ rest)%list.
Proof.
  revert args. induction rest as [ | m rest IH ]; intros args Hrest.
  - now rewrite !app_nil_r.
  - inversion Hrest; subst.
    change (args ++ m :: rest)%list with (args ++ [m] ++ rest)%list.
    rewrite app_assoc, IH, resolve_segments_child by assumption.
    now rewrite <- app_assoc.
Qed.

Lemma path_resolve_below (c : string) (segs rest : list string) :
  Forall (fun seg => simple_name seg = true) segs ->
  Forall (fun seg => simple_name seg = true) rest ->
  path_resolve c (absolute segs :: rest) = absolute (segs ++ rest).
Proof.
  intros Hsegs Hrest. unfold path_resolve.
  change (absolute segs :: rest) with ([absolute segs] ++ rest)%list.
  now rewrite resolve_segments_children, resolve_segments_canonical.
Qed.

Lemma path_resolve_parent (c : string) (segs : list string) (n m : string) :
  Forall (fun seg => simple_name seg = true) segs ->
  simple_name n = true -> simple_name m = true ->
  path_resolve c [absolute (segs ++ [n; m]); ".."] = absolute (segs ++ [n]).
Proof.
  intros Hsegs Hn Hm. unfold path_resolve.
  change [absolute (segs ++ [n; m]); ".."]
    with ([absolute (segs ++ [n; m])] ++ [".."])%list.
  rewrite resolve_segments_up, resolve_segments_canonical.
  - change [n; m] with ([n] ++ [m])%list.
    now rewrite app_assoc, removelast_last.
  - apply Forall_app. split; [ assumption | now repeat constructor ].
Qed.

Lemma join_slash_cons (seg : string) (rest : list string) :
  rest <> [] -> join_slash (seg :: rest) = seg ++ String slash (join_slash rest).
Proof. destruct rest; [ contradiction | reflexivity ]. Qed.

Lemma split_absolute (segs : list string) :
  Forall (fun seg => simple_name seg = true) segs -> segs <> [] ->
  split_slash (absolute segs) = EmptyString :: segs.
Proof.
  intros Hsegs Hne. unfold absolute.
  change ("/" ++ join_slash segs) with (EmptyString ++ String slash (join_slash segs)).
  rewrite split_slash_app, split_join by (now apply simple_name_slash_free || assumption).
  reflexivity.
Qed.

Lemma path_basename_absolute (segs : list string) (n : string) :
  Forall (fun seg => simple_name seg = true) segs ->
  simple_name n = true ->
  path_basename (absolute (segs ++ [n])) = n.
Proof.
  intros Hsegs Hn. unfold path_basename.
  rewrite split_absolute.
  - simpl rev. rewrite rev_app_distr. simpl.
    apply simple_name_spec in Hn as (_ & Hne & _).
    apply String.eqb_neq in Hne. now rewrite Hne.
  - apply Forall_app. split; [ assumption | now repeat constructor ].
  - now destruct segs.
Qed.

Lemma last_char_app (s : string) (c : ascii) (t : string) :
  last_char (s ++ String c t) = last_char (String c t).
Proof.
  induction s as [ | c' s IH ]; [ reflexivity | ].
  change (String c' s ++ String c t) with (String c' (s ++ String c t)).
  destruct s; simpl in *; exact IH.
Qed.

Lemma trailingSeparator_simple (m : string) :
  simple_name m = true -> trailingSeparator m = false.
Proof.
  intros H. apply simple_name_spec in H as (Hfree & Hne & _).
  unfold trailingSeparator.
  induction m as [ | c m IH ]; [ contradiction | ].
  simpl in Hfree. apply andb_prop in Hfree as [Hc Hm].
  destruct m as [ | c' m' ].
  - simpl. now apply negb_true_iff.
  - change (last_char (String c (String c' m'))) with (last_char (String c' m')).
    apply IH; [ assumption | discriminate ].
Qed.

Lemma trailingSeparator_join (d : string) (rest : list string) :
  Forall (fun seg => simple_name seg = true) rest -> rest <> [] ->
  trailingSeparator (join_slash (d :: rest)) = false.
Proof.
  revert d. induction rest as [ | m rest IH ]; intros d Hrest Hne; [ contradiction | ].
  inversion Hrest as [ | ? ? Hm Hrest' ]; subst.
  rewrite join_slash_cons by discriminate.
  unfold trailingSeparator. rewrite last_char_app.
  destruct rest as [ | m' rest ].
  - simpl join_slash.
    pose proof (trailingSeparator_simple m Hm) as Ht. unfold trailingSeparator in Ht.
    destruct m as [ | c m ]; [ discriminate | exact Ht ].
  - specialize (IH m Hrest' ltac:(discriminate)).
    unfold trailingSeparator in IH.
    remember (join_slash (m :: m' :: rest)) as t eqn:Ht.
    destruct t as [ | c t ]; [ | exact IH ].
    rewrite join_slash_cons in Ht by discriminate.
    apply simple_name_spec in Hm as (_ & Hmne & _).
    destruct m; [ contradiction | discriminate ].
Qed.

Lemma normalize_onto_append (b : bool) (rest l acc : list string) :
  Forall (fun seg => simple_name seg = true) rest ->
  normalize_onto b acc (l ++ rest) = (normalize_onto b acc l ++ rest)%list.
Proof.
  revert l. induction rest as [ | m rest IH ]; intros l Hrest.
  - now rewrite !app_nil_r.
  - inversion Hrest; subst.
    change (l ++ m :: rest)%list with (l ++ [m] ++ rest)%list.
    rewrite app_assoc, IH, normalize_onto_snoc by assumption.
    now rewrite <- app_assoc.
Qed.

Lemma split_join_cons (d : string) (rest : list string) :
  Forall (fun seg => simple_name seg = true) rest -> rest <> [] ->
  split_slash (join_slash (d :: rest)) = (split_slash d ++ rest)%list.
Proof.
  intros Hrest Hne.
  rewrite join_slash_cons, split_slash_app, split_join
    by (now apply simple_name_slash_free || assumption).
  reflexivity.
Qed.

Lemma join_slash_not_empty (segs : list string) :
  Forall (fun seg => simple_name seg = true) segs -> segs <> [] ->
  join_slash segs <> EmptyString.
Proof.
  intros Hsegs Hne. destruct segs as [ | seg rest ]; [ contradiction | ].
  inversion Hsegs as [ | ? ? Hseg _ ]; subst.
  apply simple_name_spec in Hseg as (_ & Hseg & _).
  destruct rest.
  - exact Hseg.
  - rewrite join_slash_cons by discriminate.
    destruct seg; [ contradiction | discriminate ].
Qed.

(** [path.join] of a normalized absolute path and plain names. *)
Lemma path_join_below (segs rest : list string) :
  Forall (fun seg => simple_name seg = true) segs ->
  Forall (fun seg => simple_name seg = true) rest ->
  rest <> [] ->
  path_join (absolute segs :: rest) = absolute (segs ++ rest).
Proof.
  intros Hsegs Hrest Hne. unfold path_join.
  assert (Hkeep : filter (fun a => negb (a =? EmptyString)) (absolute segs :: rest)
                  = absolute segs :: rest).
  { simpl. f_equal. apply forallb_filter_id, forallb_forall.
    intros m Hm. rewrite Forall_forall in Hrest.
    pose proof (Hrest m Hm) as Hsimple.
    apply simple_name_spec in Hsimple as (_ & Hmne & _).
    now apply negb_true_iff, String.eqb_neq. }
  rewrite Hkeep. unfold path_normalize.
  assert (Habs : isAbsolute (join_slash (absolute segs :: rest)) = true).
  { now rewrite join_slash_cons by assumption. }
  assert (Hnonempty : (join_slash (absolute segs :: rest) =? EmptyString) = false).
  { rewrite join_slash_cons by assumption. reflexivity. }
  rewrite Hnonempty, Habs, trailingSeparator_join by assumption.
  simpl negb. unfold normalizeString.
  rewrite split_join_cons, normalize_onto_append by assumption.
  rewrite normalize_split_absolute by assumption.
  assert (Hbody : (join_slash (segs ++ rest) =? EmptyString) = false).
  { apply String.eqb_neq, join_slash_not_empty.
    - apply Forall_app. now split.
    - destruct segs; [ assumption | discriminate ]. }
  now rewrite Hbody.
Qed.

Lemma filter_map_commute {A B} (p : B -> bool) (f : A -> B) (l : list A) :
  filter p (map f l) = map f (filter (fun x => p (f x)) l).
Proof.
  induction l as [ | x l IH ]; simpl; [ reflexivity | ].
  rewrite IH. now destruct (p (f x)).
Qed.

Lemma filter_filter_on {A} (p q r : A -> bool) (l : list A) :
  (forall x, In x l -> r x = q x && p x) ->
  filter p (filter q l) = filter r l.
Proof.
  induction l as [ | x l IH ]; intros H; simpl; [ reflexivity | ].
  rewrite (H x) by now left.
  destruct (q x); simpl.
  - rewrite IH by (intros y Hy; apply H; now right). reflexivity.
  - apply IH. intros y Hy. apply H. now right.
Qed.

Section OnTheTree.

Variable W : Runtime.

Lemma lookup_absolute (segs : list string) :
  Forall (fun seg => simple_name seg = true) segs ->
  lookup W (absolute segs) = walk (root W) segs.
Proof.
  intros Hsegs. unfold lookup. now rewrite resolve_segments_canonical.
Qed.

Lemma prefix_path_absolute (segs : list string) :
  prefix_path (EmptyString :: segs) = absolute segs.
Proof. destruct segs; reflexivity. Qed.

Lemma readdir_visible_absolute (segs : list string) :
  Forall (fun seg => simple_name seg = true) segs ->
  readdir_visible W (EmptyString :: segs) = entry_names W segs.
Proof.
  intros Hsegs. unfold readdir_visible, entry_names.
  now rewrite prefix_path_absolute, lookup_absolute.
Qed.

Lemma visible_simple (entries : list (string * node)) :
  Forall (fun n => simple_name n = true) (visible entries).
Proof.
  apply Forall_forall. intros n Hn. unfold visible in Hn.
  apply filter_In in Hn as [_ Hn]. now apply andb_prop in Hn.
Qed.

Lemma entry_names_simple (segs : list string) :
  Forall (fun n => simple_name n = true) (entry_names W segs).
Proof.
  unfold entry_names.
  destruct (walk (root W) segs) as [ [ data | entries ] | ];
    try constructor. apply visible_simple.
Qed.

Lemma glob_expand_app (l1 l2 : list string) (prefixes : list (list string)) :
  glob_expand W prefixes (l1 ++ l2) = glob_expand W (glob_expand W prefixes l1) l2.
Proof.
  revert prefixes. induction l1 as [ | seg l1 IH ]; intros prefixes; simpl;
    [ reflexivity | apply IH ].
Qed.

(** Segments other than [*] are carried to the matches as they are. *)
Lemma glob_expand_literal (l : list string) (prefixes : list (list string)) :
  ~ In "*" l ->
  glob_expand W prefixes l = map (fun pre => (pre ++ l)%list) prefixes.
Proof.
  revert prefixes. induction l as [ | seg l IH ]; intros prefixes Hstar; simpl.
  - rewrite <- (map_id prefixes) at 1. apply map_ext. intros pre.
    now rewrite app_nil_r.
  - assert (Hseg : (seg =? "*") = false).
    { apply String.eqb_neq. intros ->. apply Hstar. now left. }
    rewrite Hseg, IH by (intros Hin; apply Hstar; now right).
    rewrite map_map. apply map_ext. intros pre. now rewrite <- app_assoc.
Qed.

Lemma glob_matches_plain (pattern : string) :
  plain_pattern pattern = true -> glob_matches W pattern = glob_walk W pattern.
Proof. intros H. unfold glob_matches. now rewrite H. Qed.

Lemma plain_not_star (segs : list string) :
  Forall (fun seg => glob_plain seg = true) segs -> ~ In "*" segs.
Proof.
  intros Hplain Hin. rewrite Forall_forall in Hplain.
  specialize (Hplain _ Hin). discriminate Hplain.
Qed.

Lemma plain_pattern_below (segs : list string) (marker : string) :
  Forall (fun seg => simple_name seg = true) segs ->
  Forall (fun seg => glob_plain seg = true) segs ->
  simple_name marker = true -> glob_plain marker = true ->
  plain_pattern (absolute (segs ++ ["*"; marker])) = true.
Proof.
  intros Hsegs Hplain Hmarker Hplain_marker. unfold plain_pattern.
  rewrite split_absolute;
    [ | apply Forall_app; split; [ assumption | now repeat constructor ]
      | now destruct segs ].
  apply forallb_forall. intros seg [<- | Hin]; [ reflexivity | ].
  apply in_app_or in Hin as [Hin | [<- | [<- | []]]].
  - rewrite Forall_forall in Hplain. rewrite (Hplain seg Hin). apply orb_true_r.
  - reflexivity.
  - rewrite Hplain_marker. apply orb_true_r.
Qed.

Lemma glob_matches_below (segs : list string) (marker : string) :
  Forall (fun seg => simple_name seg = true) segs ->
  Forall (fun seg => glob_plain seg = true) segs ->
  simple_name marker = true -> glob_plain marker = true ->
  glob_matches W (absolute (segs ++ ["*"; marker])) =
  map (fun n => absolute (segs ++ [n; marker]))
      (filter (fun n => match walk (root W) (segs ++ [n; marker]) with
                        | Some _ => true
                        | None => false
                        end)
              (entry_names W segs)).
Proof.
  intros Hsegs Hplain Hmarker Hplain_marker.
  assert (Hstar : ~ In "*" segs) by now apply plain_not_star.
  assert (Hnot_star : marker <> "*") by (intros ->; discriminate Hplain_marker).
  rewrite glob_matches_plain by now apply plain_pattern_below.
  unfold glob_walk.
  rewrite split_absolute;
    [ | apply Forall_app; split; [ assumption | now repeat constructor ]
      | now destruct segs ].
  change (EmptyString :: segs ++ ["*"; marker])%list
    with ((EmptyString :: segs) ++ ["*"; marker])%list.
  rewrite glob_expand_app, (glob_expand_literal (EmptyString :: segs))
    by (intros [Hin | Hin]; [ discriminate | contradiction ]).
  simpl map at 3. simpl glob_expand.
  apply String.eqb_neq in Hnot_star. rewrite Hnot_star.
  rewrite app_nil_r, readdir_visible_absolute by assumption.
  rewrite !map_map.
  rewrite (map_ext _ (fun n => absolute (segs ++ [n; marker]))).
  2: { intros n. simpl app. rewrite <- app_assoc. simpl app.
       rewrite join_slash_cons by now destruct segs. reflexivity. }
  rewrite filter_map_commute. f_equal.
  apply filter_ext_in. intros n Hn.
  pose proof (entry_names_simple segs) as Hnames.
  rewrite Forall_forall in Hnames.
  rewrite lookup_absolute; [ reflexivity | ].
  apply Forall_app. split; [ assumption | ].
  repeat constructor; [ now apply Hnames | assumption ].
Qed.

Lemma candidates_below (segs : list string) (marker : string) :
  Forall (fun seg => simple_name seg = true) segs ->
  Forall (fun seg => glob_plain seg = true) segs ->
  simple_name marker = true -> glob_plain marker = true ->
  candidates W (absolute (segs ++ ["*"; marker])) =
  map (fun n => absolute (segs ++ [n]))
      (filter (fun n => match walk (root W) (segs ++ [n; marker]) with
                        | Some _ => true
                        | None => false
                        end)
              (entry_names W segs)).
Proof.
  intros Hsegs Hstar Hmarker Hnot_star. unfold candidates.
  rewrite glob_matches_below, map_map by assumption.
  apply map_ext_in. intros n Hn. apply filter_In in Hn as [Hn _].
  pose proof (entry_names_simple segs) as Hnames.
  rewrite Forall_forall in Hnames.
  now apply path_resolve_parent; [ | apply Hnames | ].
Qed.

Lemma marker_ok_absolute (segs : list string) (n marker : string) :
  Forall (fun seg => simple_name seg = true) segs ->
  simple_name n = true -> simple_name marker = true ->
  marker_ok W marker (absolute (segs ++ [n])) = json_file W (segs ++ [n; marker]).
Proof.
  intros Hsegs Hn Hmarker. unfold marker_ok, parsed, json_file.
  assert (Hdir : Forall (fun seg => simple_name seg = true) (segs ++ [n])).
  { apply Forall_app. split; [ assumption | now repeat constructor ]. }
  rewrite path_resolve_below by (assumption || now repeat constructor).
  rewrite lookup_absolute
    by (apply Forall_app; split; [ assumption | now repeat constructor ]).
  rewrite <- app_assoc. simpl app.
  destruct (walk (root W) (segs ++ [n; marker])) as [ [ data | entries ] | ];
    reflexivity.
Qed.

(** The directories a scan below [segs] keeps are the marked children. *)
Lemma kept_below (segs : list string) (marker : string) :
  Forall (fun seg => simple_name seg = true) segs ->
  Forall (fun seg => glob_plain seg = true) segs ->
  simple_name marker = true -> glob_plain marker = true ->
  filter (marker_ok W marker) (candidates W (absolute (segs ++ ["*"; marker]))) =
  map (fun n => absolute (segs ++ [n])) (marked_children W segs marker).
Proof.
  intros Hsegs Hstar Hmarker Hnot_star.
  rewrite candidates_below, filter_map_commute by assumption.
  f_equal. unfold marked_children. apply filter_filter_on.
  intros n Hn.
  pose proof (entry_names_simple segs) as Hnames.
  rewrite Forall_forall in Hnames.
  rewrite marker_ok_absolute by (assumption || now apply Hnames).
  unfold json_file.
  destruct (walk (root W) (segs ++ [n; marker])) as [ [ data | entries ] | ];
    reflexivity.
Qed.

End OnTheTree.

Section KeptOnTheTree.

Variable W : Runtime.
Variable segs : list string.
Hypothesis segs_simple : Forall (fun seg => simple_name seg = true) segs.
Hypothesis segs_plain : Forall (fun seg => glob_plain seg = true) segs.

(** A scan of the children of [absolute segs], as [_getCollectionFragments]
    and [_getCollectionFragmentCompositions] make it. *)
Lemma kept_children (marker : string) :
  simple_name marker = true -> glob_plain marker = true ->
  filter (marker_ok W marker) (candidates W (path_join [absolute segs; "*"; marker])) =
  map (fun n => absolute (segs ++ [n])) (marked_children W segs marker).
Proof.
  intros Hmarker Hnot_star.
  rewrite path_join_below by (assumption || now repeat constructor || discriminate).
  now apply kept_below.
Qed.

(** A scan of the children of [src] below [absolute segs], as
    [_getProjectCollections] and [_getPageTemplates] make it. *)
Lemma kept_src_children (marker : string) :
  simple_name marker = true -> glob_plain marker = true ->
  filter (marker_ok W marker)
         (candidates W (path_join [absolute segs; "src"; "*"; marker])) =
  map (fun n => absolute (segs ++ ["src"; n]))
      (marked_children W (segs ++ ["src"]) marker).
Proof.
  intros Hmarker Hnot_star.
  rewrite path_join_below by (assumption || now repeat constructor || discriminate).
  change ["src"; "*"; marker] with (["src"] ++ ["*"; marker])%list.
  rewrite app_assoc, kept_below; try assumption.
  - apply map_ext. intros n. now rewrite <- app_assoc.
  - apply Forall_app. split; [ assumption | now repeat constructor ].
  - apply Forall_app. split; [ assumption | now repeat constructor ].
Qed.

(** Without a directory below [src], nothing is marked. *)
Lemma no_directory_no_marked_child (parent : list string) (marker : string) :
  (forall n entries, walk (root W) (parent ++ [n]) <> Some (Dir entries)) ->
  marked_children W parent marker = [].
Proof.
  intros Hnone. unfold marked_children.
  induction (entry_names W parent) as [ | n names IH ]; [ reflexivity | ].
  simpl. unfold json_file at 1.
  change [n; marker] with ([n] ++ [marker])%list.
  rewrite app_assoc, walk_app.
  destruct (walk (root W) (parent ++ [n])) as [ [ data | entries ] | ] eqn:Hn.
  - exact IH.
  - now contradiction (Hnone n entries).
  - exact IH.
Qed.

End KeptOnTheTree.

(** ** Slugs, on the tree *)

Lemma Forall2_map_eq {A B C} (g : B -> C) (h : A -> C) (xs : list A) (ys : list B) :
  Forall2 (fun x y => g y = h x) xs ys -> map g ys = map h xs.
Proof.
  induction 1 as [ | x y xs ys Hxy _ IH ]; simpl; [ reflexivity | ].
  now rewrite Hxy, IH.
Qed.

Section SlugsOnTheTree.

Variable W : Runtime.

Lemma marked_children_simple (segs : list string) (marker : string) :
  Forall (fun n => simple_name n = true) (marked_children W segs marker).
Proof.
  unfold marked_children. apply Forall_forall. intros n Hn.
  apply filter_In in Hn as [Hn _].
  pose proof (entry_names_simple W segs) as Hnames.
  rewrite Forall_forall in Hnames. now apply Hnames.
Qed.

Lemma basename_of_children (segs names : list string) :
  Forall (fun seg => simple_name seg = true) segs ->
  Forall (fun n => simple_name n = true) names ->
  map (fun n => path_basename (absolute (segs ++ [n]))) names = names.
Proof.
  intros Hsegs Hnames. rewrite <- (map_id names) at 2.
  apply map_ext_in. intros n Hn. rewrite Forall_forall in Hnames.
  now apply path_basename_absolute; [ | apply Hnames ].
Qed.

(** The slugs a scan gives to the children of [absolute segs]. *)
Lemma slugs_of_children {E} (slug : E -> string) (segs : list string)
  (marker : string) (entities : list E) :
  Forall (fun seg => simple_name seg = true) segs ->
  Forall2 (fun directory e => slug e = path_basename directory)
          (map (fun n => absolute (segs ++ [n])) (marked_children W segs marker))
          entities ->
  map slug entities = marked_children W segs marker.
Proof.
  intros Hsegs H. apply Forall2_map_eq in H.
  rewrite H, map_map.
  apply basename_of_children; [ assumption | apply marked_children_simple ].
Qed.

End SlugsOnTheTree.

(** A directory kept by two scans is built by both. *)
Lemma kept_twice_built_twice :
  forall (W : Runtime) (basePath : string) (p : Project.t),
    result (getProjectContent W basePath) = Returned p ->
    (forall directory,
        In directory (collection_directories W basePath) ->
        In directory (pageTemplate_directories W basePath) ->
        (exists c,
            In c (Project.collections p)
            /\ result (collection_of_directory W directory) = Returned c
            /\ Collection.slug c = path_basename directory)
        /\ (exists t,
               In t (Project.pageTemplates p)
               /\ result (pageTemplate_of_directory W directory) = Returned t
               /\ PageTemplate.slug t = path_basename directory
               /\ PageTemplate.pageTemplateDefinitionPath (PageTemplate.metadata t)
                  = path_resolve (cwd W) [directory; "page-definition.json"]))
    /\ (forall collection directory,
           In collection (collection_directories W basePath) ->
           In directory (fragment_directories W collection) ->
           In directory (composition_directories W collection) ->
           exists c,
             In c (Project.collections p)
             /\ result (collection_of_directory W collection) = Returned c
             /\ (exists f,
                    In f (Collection.fragments c)
                    /\ result (fragment_of_directory W directory) = Returned f
                    /\ Fragment.slug f = path_basename directory)
             /\ (exists fc,
                    In fc (Collection.fragmentCompositions c)
                    /\ result (composition_of_directory W directory) = Returned fc
                    /\ FragmentComposition.slug fc = path_basename directory)).
Proof.
  intros W basePath p H.
  apply getProjectContent_returned in H as (_ & _ & Hc & Ht).
  rewrite getProjectCollections_result in Hc. apply array_map_returned in Hc.
  rewrite getPageTemplates_result in Ht. apply array_map_returned in Ht.
  split.
  - intros directory Hcol Htem. split.
    + destruct (Forall2_In_l _ _ _ _ Hc Hcol) as (c & Hin & Hbuilt).
      exists c. repeat split; try assumption.
      now apply collection_of_directory_returned in Hbuilt.
    + destruct (Forall2_In_l _ _ _ _ Ht Htem) as (t & Hin & Hbuilt).
      exists t. repeat split; try assumption;
        apply pageTemplate_of_directory_returned in Hbuilt
          as (metadata & text & definition & _ & _ & _ & _ & ->);
        reflexivity.
  - intros collection directory Hcol Hfrag Hcomp.
    destruct (Forall2_In_l _ _ _ _ Hc Hcol) as (c & Hin & Hbuilt).
    exists c. split; [ assumption | ]. split; [ assumption | ].
    apply collection_of_directory_returned in Hbuilt
      as (_ & _ & _ & Hcompositions & Hfragments).
    apply getCollectionFragments_returned in Hfragments.
    apply getCollectionFragmentCompositions_returned in Hcompositions.
    split.
    + destruct (Forall2_In_l _ _ _ _ Hfragments Hfrag) as (f & Hf & Hfbuilt).
      exists f. repeat split; try assumption.
      now apply fragment_of_directory_returned in Hfbuilt.
    + destruct (Forall2_In_l _ _ _ _ Hcompositions Hcomp) as (fc & Hfc & Hfcbuilt).
      exists fc. repeat split; try assumption.
      now apply composition_of_directory_returned in Hfcbuilt.
Qed.

(** * The claims *)

(** C1, amended: in a fragment or fragment composition whose marker parses
    to metadata other than [null], a content loader given a falsy path
    reads no file: it touches none when the path is not a string (absent,
    [null], [false], [0]), and given the empty string it tries to read the
    directory of the entity. Its catch block then runs. When
    [metadata.name || directory] converts to a string (as it does when the
    name is falsy, a string, a number or a boolean) the loader logs its two
    entries, the owner and the path not found, and returns the empty
    string. When it does not (a name that is an object with an own
    [toString] key, or an array holding one) the first template literal of
    the catch block throws a TypeError: the loader throws it and logs
    nothing. *)
Theorem falsy_content_path_returns_empty_and_logs :
  forall (W : Runtime) (directory : string) (metadata filePath : value),
    nullish metadata = false ->
    truthy filePath = false ->
    let attempt :=
      match filePath with
      | VString _ => [ReadFile (path_resolve (cwd W) [directory; EmptyString])]
      | _ => []
      end in
    let run label :=
      if convertible (or_else (property metadata "name") (VString directory))
      then ((attempt ++ not_found_logs W label directory metadata filePath)%list,
            Returned EmptyString)
      else (attempt,
            Thrown (TypeError "Cannot convert object to primitive value")) in
    (parsed W (path_resolve (cwd W) [directory; "fragment.json"]) = Some metadata ->
     fragment_readFile W directory metadata filePath = run "✘ Fragment ")
    /\ (parsed W (path_resolve (cwd W) [directory; "fragment-composition.json"])
          = Some metadata ->
        composition_readFile W directory metadata filePath
        = run "✘ Fragment composition ")
    /\ (match property metadata "name" with
        | VArray _ | VObject _ => True
        | _ => convertible (or_else (property metadata "name") (VString directory))
               = true
        end).
Proof.
  intros W directory metadata filePath Hm Hfalsy attempt run.
  assert (Hconv : convertible filePath = true).
  { destruct filePath as [ | | b | q | p | items | props ];
      try reflexivity; discriminate Hfalsy. }
  assert (Hrun : forall label marker,
             simple_name marker = true ->
             parsed W (path_resolve (cwd W) [directory; marker]) = Some metadata ->
             loader_run W label directory metadata filePath = run label).
  { intros label marker Hmarker Hp.
    destruct (falsy_content_is_none W directory marker metadata filePath
                Hmarker Hp Hfalsy) as [Hc Ha].
    unfold loader_run, run, attempt, log_owner. rewrite Hc, Ha, Hconv.
    reflexivity. }
  split; [ | split ].
  - intros Hp. rewrite fragment_readFile_spec by assumption.
    now apply (Hrun _ "fragment.json").
  - intros Hp. rewrite composition_readFile_spec by assumption.
    now apply (Hrun _ "fragment-composition.json").
  - unfold or_else.
    destruct (property metadata "name") as [ | | b | q | p | items | props ];
      try exact I; simpl; try reflexivity.
    + now destruct b.
    + now destruct (negb (Qeq_bool q 0)).
    + now destruct (negb (p =? EmptyString)).
Qed.

(** Fragment [bare] has no [htmlPath]; fragment [loose] has an empty
    [cssPath]; a name with an own [toString] key makes the catch block
    throw. *)
Lemma falsy_content_path_returns_empty_and_logs_witness :
  fragment_readFile Demo.with_loose "/proj/src/cards/bare" (VObject []) VUndefined =
  ([Log [Text "✘ Fragment "; Interp (VString "/proj/src/cards/bare")]
        (Some {| level := VString "LOG_LEVEL_ERROR"; newLine := VBool true |});
    Log [Text "File "; Interp VUndefined; Text " was not found"] None],
   Returned EmptyString)
  /\ result (fragment_readFile Demo.with_loose "/proj/src/cards/loose"
               (VObject [("htmlPath", VString "index.html");
                         ("cssPath", VString EmptyString);
                         ("configurationPath", VString "nothing.json")])
               (VString EmptyString)) = Returned EmptyString
  /\ fragment_readFile Cases.with_exotic_name "/proj/src/cards/exotic"
       (VObject [("name", VObject [("toString", VNumber 0)])]) VUndefined
     = ([], Thrown (TypeError "Cannot convert object to primitive value")).
Proof.
  split; [ | split ].
  - apply (falsy_content_path_returns_empty_and_logs
             Demo.with_loose "/proj/src/cards/bare" (VObject []) VUndefined);
      reflexivity.
  - pose proof (falsy_content_path_returns_empty_and_logs
                  Demo.with_loose "/proj/src/cards/loose"
                  (VObject [("htmlPath", VString "index.html");
                            ("cssPath", VString EmptyString);
                            ("configurationPath", VString "nothing.json")])
                  (VString EmptyString) eq_refl eq_refl) as [H _].
    now rewrite (H eq_refl).
  - pose proof (falsy_content_path_returns_empty_and_logs
                  Cases.with_exotic_name "/proj/src/cards/exotic"
                  (VObject [("name", VObject [("toString", VNumber 0)])])
                  VUndefined eq_refl eq_refl) as [H _].
    exact (H eq_refl).
Defined.

(** C1 as stated fails: for fragment [bare], whose metadata has no
    [htmlPath], the loader does log, and the run of the whole program
    carries the entry; for fragment [loose], whose [cssPath] is empty, the
    loader does go to the file system; for fragment [exotic], which has no
    [htmlPath] and whose name does not convert to a string, the loader
    throws, and so does the run. *)
Lemma falsy_content_path_counterexample :
  property (VObject []) "htmlPath" = VUndefined
  /\ filter is_log
       (events (fragment_readFile Demo.with_loose "/proj/src/cards/bare"
                  (VObject []) (property (VObject []) "htmlPath"))) <> []
  /\ In (Log [Text "File "; Interp VUndefined; Text " was not found"] None)
        (events (getProjectContent Demo.with_loose "/proj"))
  /\ filter is_fs_access
       (events (fragment_readFile Demo.with_loose "/proj/src/cards/loose"
                  (VObject [("cssPath", VString EmptyString)])
                  (VString EmptyString)))
     = [ReadFile "/proj/src/cards/loose"]
  /\ result (fragment_readFile Cases.with_exotic_name "/proj/src/cards/exotic"
               (VObject [("name", VObject [("toString", VNumber 0)])])
               (property (VObject [("name", VObject [("toString", VNumber 0)])])
                  "htmlPath"))
     = Thrown (TypeError "Cannot convert object to primitive value")
  /\ result (getProjectContent Cases.with_exotic_name "/proj")
     = Thrown (TypeError "Cannot convert object to primitive value").
Proof.
  split; [ reflexivity | ].
  split; [ vm_compute; discriminate | ].
  split; [ vm_compute; tauto | ].
  repeat split; reflexivity.
Qed.

(** C2: the run aborts when the [package.json] of the project is missing or
    does not parse, and when a directory kept by the scan of page templates
    (its [page-template.json] parses) has no [page-definition.json] that
    parses; in that case [_getPageTemplates] itself throws, so no sequence
    of page templates is produced with that template left out. On the tree,
    for a normalized absolute base path whose segments hold no special
    character of [glob]: the run aborts when a visible child of [src] holds a [page-template.json] that
    parses and no [page-definition.json] that does. *)
Theorem missing_package_or_definition_aborts_run :
  forall (W : Runtime) (basePath : string),
    (parsed W (path_resolve (cwd W) [basePath; "package.json"]) = None ->
     exists e, result (getProjectContent W basePath) = Thrown e)
    /\ (forall directory,
          In directory (pageTemplate_directories W basePath) ->
          parsed W (path_resolve (cwd W) [directory; "page-definition.json"]) = None ->
          (exists e, result (_getPageTemplates W basePath) = Thrown e)
          /\ (exists e, result (getProjectContent W basePath) = Thrown e))
    /\ (forall segs n,
          basePath = absolute segs ->
          Forall (fun seg => simple_name seg = true) segs ->
          Forall (fun seg => glob_plain seg = true) segs ->
          In n (marked_children W (segs ++ ["src"]) "page-template.json") ->
          json_file W (segs ++ ["src"; n; "page-definition.json"]) = false ->
          (exists e, result (_getPageTemplates W basePath) = Thrown e)
          /\ (exists e, result (getProjectContent W basePath) = Thrown e)).
Proof.
  intros W basePath.
  assert (Hkept : forall directory,
             In directory (pageTemplate_directories W basePath) ->
             parsed W (path_resolve (cwd W) [directory; "page-definition.json"])
               = None ->
             (exists e, result (_getPageTemplates W basePath) = Thrown e)
             /\ (exists e, result (getProjectContent W basePath) = Thrown e)).
  { intros directory Hin Hdef.
    assert (H : exists e, result (_getPageTemplates W basePath) = Thrown e).
    { apply getPageTemplates_thrown with (directory := directory);
        [ assumption | ].
      now apply pageTemplate_of_directory_thrown. }
    split; [ assumption | ].
    now apply getProjectContent_thrown_by_pageTemplates. }
  split; [ apply getProjectContent_thrown_by_package | ].
  split; [ exact Hkept | ].
  intros segs n -> Hsegs Hliteral Hn Hdef.
  assert (Hsimple : simple_name n = true).
  { pose proof (marked_children_simple W (segs ++ ["src"]) "page-template.json")
      as Hnames.
    rewrite Forall_forall in Hnames. now apply Hnames. }
  assert (Hsrc : Forall (fun seg => simple_name seg = true) (segs ++ ["src"])).
  { apply Forall_app. split; [ assumption | now repeat constructor ]. }
  apply (Hkept (absolute (segs ++ ["src"; n]))).
  - unfold pageTemplate_directories.
    rewrite kept_src_children by (assumption || reflexivity || discriminate).
    now apply (in_map (fun n => absolute (segs ++ ["src"; n]))).
  - pose proof (marker_ok_absolute W (segs ++ ["src"]) n "page-definition.json"
                  Hsrc Hsimple eq_refl) as Hok.
    rewrite <- !app_assoc in Hok. simpl app in Hok. rewrite Hdef in Hok.
    unfold marker_ok in Hok.
    now destruct (parsed W (path_resolve (cwd W)
                    [absolute (segs ++ ["src"; n]); "page-definition.json"])).
Qed.

(** A project without [package.json], and one whose page template [orphan]
    has no [page-definition.json]. *)
Lemma missing_package_or_definition_aborts_run_witness :
  (exists e, result (getProjectContent Demo.without_package "/proj") = Thrown e)
  /\ ((exists e, result (_getPageTemplates Demo.with_orphan "/proj") = Thrown e)
      /\ (exists e, result (getProjectContent Demo.with_orphan "/proj") = Thrown e))
  /\ (marked_children Demo.with_orphan ["proj"; "src"] "page-template.json"
        = ["orphan"]
      /\ exists e,
           result (getProjectContent Cases.with_second_orphan "/proj") = Thrown e).
Proof.
  split; [ | split ].
  - apply (missing_package_or_definition_aborts_run Demo.without_package "/proj").
    reflexivity.
  - apply (missing_package_or_definition_aborts_run Demo.with_orphan "/proj")
      with (directory := "/proj/src/orphan").
    + vm_compute. now left.
    + reflexivity.
  - split; [ reflexivity | ].
    destruct (missing_package_or_definition_aborts_run
                Cases.with_second_orphan "/proj") as (_ & _ & Htree).
    apply (Htree ["proj"] "orphan").
    + reflexivity.
    + now repeat constructor.
    + now repeat constructor.
    + vm_compute. tauto.
    + reflexivity.
Defined.

(** C3: the first two stages of a scan never throw. They return, in the
    order of the matches, the parent directories of the matches whose
    marker parses, and log one error for each of the others; a marker that
    parses as the empty object is kept; without a match the result is the
    empty sequence and nothing is logged. Each of the four scans is these
    two stages followed by its [.map], so a marker that does not parse
    takes its directory out and has no other effect. On the tree: below a
    normalized absolute directory whose segments hold no special character
    of [glob], the directories kept are the visible children whose marker is a file that parses. *)
Theorem scan_drops_unparsable_markers :
  forall (W : Runtime),
    (forall pattern marker what,
        result (scan W pattern marker what)
          = Returned (filter (marker_ok W marker) (candidates W pattern))
        /\ filter is_log (events (scan W pattern marker what))
           = map (invalid_log marker what)
               (filter (fun d => negb (marker_ok W marker d)) (candidates W pattern))
        /\ (forall d data,
               In d (candidates W pattern) ->
               lookup W (path_resolve (cwd W) [d; marker]) = Some (File data) ->
               JSON_parse W data = Some (VObject []) ->
               In d (filter (marker_ok W marker) (candidates W pattern)))
        /\ (candidates W pattern = [] ->
            result (scan W pattern marker what) = Returned []
            /\ filter is_log (events (scan W pattern marker what)) = []))
    /\ (forall directory,
           _getProjectCollections W directory =
             (directories <-
                scan W (path_join [directory; "src"; "*"; "collection.json"])
                  "collection.json" "collection" ;;
              array_map (collection_of_directory W) directories)
           /\ _getCollectionFragments W directory =
                (directories <-
                   scan W (path_join [directory; "*"; "fragment.json"])
                     "fragment.json" "fragment" ;;
                 array_map (fragment_of_directory W) directories)
           /\ _getCollectionFragmentCompositions W directory =
                (directories <-
                   scan W (path_join [directory; "*"; "fragment-composition.json"])
                     "fragment-composition.json" "fragment composition" ;;
                 array_map (composition_of_directory W) directories)
           /\ _getPageTemplates W directory =
                (directories <-
                   scan W (path_join [directory; "src"; "*"; "page-template.json"])
                     "page-template.json" "page template" ;;
                 array_map (pageTemplate_of_directory W) directories))
    /\ (forall segs marker what,
           Forall (fun seg => simple_name seg = true) segs ->
           Forall (fun seg => glob_plain seg = true) segs ->
           simple_name marker = true -> glob_plain marker = true ->
           result (scan W (path_join [absolute segs; "*"; marker]) marker what)
             = Returned (map (fun n => absolute (segs ++ [n]))
                             (marked_children W segs marker))
           /\ result (scan W (path_join [absolute segs; "src"; "*"; marker])
                        marker what)
              = Returned (map (fun n => absolute (segs ++ ["src"; n]))
                              (marked_children W (segs ++ ["src"]) marker))).
Proof.
  intros W. split; [ | split ].
  - intros pattern marker what.
    split; [ apply scan_result | ].
    split; [ apply scan_logs | ].
    split.
    + intros d data Hin Hfile Hparse. apply filter_In. split; [ assumption | ].
      unfold marker_ok, parsed. now rewrite Hfile, Hparse.
    + intros Hnone. now rewrite scan_result, scan_logs, Hnone.
  - intros directory. repeat split.
    + apply getProjectCollections_scan.
    + apply getCollectionFragments_scan.
    + apply getCollectionFragmentCompositions_scan.
    + apply getPageTemplates_scan.
  - intros segs marker what Hsegs Hliteral Hmarker Hnot_star. split.
    + rewrite scan_result. f_equal. now apply kept_children.
    + rewrite scan_result. f_equal. now apply kept_src_children.
Qed.

(** The scan of collections in the demonstration project: [both] and
    [cards] are kept, [broken] is dropped and logged, the file [README.md]
    is no match. *)
Lemma scan_drops_unparsable_markers_witness :
  result (scan Demo.full "/proj/src/*/collection.json" "collection.json" "collection")
    = Returned ["/proj/src/both"; "/proj/src/cards"]
  /\ filter is_log
       (events (scan Demo.full "/proj/src/*/collection.json"
                  "collection.json" "collection"))
     = [invalid_log "collection.json" "collection" "/proj/src/broken"]
  /\ result (scan Demo.full (path_join [absolute ["proj"; "src"; "cards"]; "*";
                                        "fragment.json"])
               "fragment.json" "fragment")
     = Returned ["/proj/src/cards/combo"; "/proj/src/cards/hero";
                 "/proj/src/cards/plain"].
Proof.
  destruct (scan_drops_unparsable_markers Demo.full) as (Hscan & _ & Htree).
  destruct (Hscan "/proj/src/*/collection.json" "collection.json" "collection")
    as (Hresult & Hlogs & _).
  split; [ rewrite Hresult; reflexivity | ].
  split; [ rewrite Hlogs; reflexivity | ].
  destruct (Htree ["proj"; "src"; "cards"] "fragment.json" "fragment") as [Hkept _].
  - now repeat constructor.
  - now repeat constructor.
  - reflexivity.
  - reflexivity.
  - rewrite Hkept. reflexivity.
Defined.

(** C4: a fragment's [configuration] is the empty string when
    [metadata.configurationPath] is absent and when it names a file that does
    not exist, and [_getFramentConfiguration] logs nothing in either case
    (it never logs), whereas the loader of html, css and js reports a
    missing file: it logs its two entries when [metadata.name || directory]
    converts to a string, and throws from its catch block when it does not.
    When the path names an existing file, [configuration] is the text of
    that file. The metadata of every fragment that is built is what
    [fragment.json] parses to, and its [configuration] field is what
    [_getFramentConfiguration] returns for the [configurationPath] of that
    marker; and a fragment whose marker is not [null] and whose three
    loaders return is built, with the empty configuration when the path is
    absent or names no file, and with the text of the file when it names
    one. *)
Theorem configuration_absent_or_missing_is_silent :
  forall (W : Runtime) (directory : string),
    _getFramentConfiguration W directory VUndefined = ([], Returned EmptyString)
    /\ (forall p,
          lookup W (path_resolve (cwd W) [directory; p]) = None ->
          result (_getFramentConfiguration W directory (VString p))
            = Returned EmptyString
          /\ filter is_log (events (_getFramentConfiguration W directory (VString p)))
            = [])
    /\ (forall configurationPath,
          filter is_log
            (events (_getFramentConfiguration W directory configurationPath)) = [])
    /\ (forall p data,
          p <> EmptyString ->
          lookup W (path_resolve (cwd W) [directory; p]) = Some (File data) ->
          result (_getFramentConfiguration W directory (VString p)) = Returned data)
    /\ (forall metadata p,
          nullish metadata = false ->
          lookup W (path_resolve (cwd W) [directory; p]) = None ->
          fragment_readFile W directory metadata (VString p) =
          if convertible (or_else (property metadata "name") (VString directory))
          then
            ((ReadFile (path_resolve (cwd W) [directory; p])
                :: not_found_logs W "✘ Fragment " directory metadata (VString p))%list,
             Returned EmptyString)
          else
            ([ReadFile (path_resolve (cwd W) [directory; p])],
             Thrown (TypeError "Cannot convert object to primitive value")))
    /\ (forall f,
          result (fragment_of_directory W directory) = Returned f ->
          parsed W (path_resolve (cwd W) [directory; "fragment.json"])
            = Some (Fragment.metadata f)
          /\ result (_getFramentConfiguration W directory
                       (property (Fragment.metadata f) "configurationPath"))
             = Returned (Fragment.configuration f)
          /\ (property (Fragment.metadata f) "configurationPath" = VUndefined ->
              Fragment.configuration f = EmptyString))
    /\ (forall metadata,
          parsed W (path_resolve (cwd W) [directory; "fragment.json"])
            = Some metadata ->
          nullish metadata = false ->
          fragment_loaders_return W directory metadata = true ->
          let built configuration :=
            exists f,
              result (fragment_of_directory W directory) = Returned f
              /\ Fragment.metadata f = metadata
              /\ Fragment.configuration f = configuration in
          (property metadata "configurationPath" = VUndefined ->
           built EmptyString)
          /\ (forall p,
                 property metadata "configurationPath" = VString p ->
                 lookup W (path_resolve (cwd W) [directory; p]) = None ->
                 built EmptyString)
          /\ (forall p data,
                 property metadata "configurationPath" = VString p ->
                 p <> EmptyString ->
                 lookup W (path_resolve (cwd W) [directory; p]) = Some (File data) ->
                 built data)).
Proof.
  intros W directory.
  split; [ reflexivity | ].
  split; [ intros p Hmissing; now apply configuration_missing | ].
  split; [ apply configuration_silent | ].
  split; [ intros p data Hp Hfile; now rewrite (configuration_file W _ _ _ Hp Hfile) | ].
  split; [ | split ].
  - intros metadata p Hmetadata Hmissing.
    rewrite fragment_readFile_spec by assumption.
    unfold loader_run, content, log_owner. rewrite Hmissing.
    now destruct (convertible (or_else (property metadata "name")
                                 (VString directory))).
  - intros f Hf. apply fragment_of_directory_returned in Hf.
    destruct Hf as (Hparsed & _ & _ & _ & _ & _ & Hconfiguration).
    split; [ assumption | ].
    split; [ assumption | ].
    intros Habsent. rewrite Habsent in Hconfiguration.
    simpl in Hconfiguration. congruence.
  - intros metadata Hparsed Hmetadata Hloaders built.
    assert (Hbuilt : forall configuration,
               result (_getFramentConfiguration W directory
                         (property metadata "configurationPath"))
               = Returned configuration ->
               built configuration).
    { intros configuration Hc.
      eexists. rewrite (fragment_of_directory_result W _ _ Hparsed Hmetadata).
      rewrite Hloaders, Hc. now repeat split. }
    split; [ | split ].
    + intros Habsent. apply Hbuilt. now rewrite Habsent.
    + intros p Hp Hmissing. apply Hbuilt. rewrite Hp.
      now apply configuration_missing.
    + intros p data Hp Hne Hfile. apply Hbuilt. rewrite Hp.
      now rewrite (configuration_file W _ _ _ Hne Hfile).
Qed.

(** On the demonstration project: fragment [loose] names a configuration
    file that is not there, fragment [bare] names none, fragment [hero] has
    one; the html of [plain] is missing and logged. *)
Lemma configuration_absent_or_missing_is_silent_witness :
  (result (_getFramentConfiguration Demo.with_loose "/proj/src/cards/loose"
             (VString "nothing.json")) = Returned EmptyString
   /\ filter is_log
        (events (_getFramentConfiguration Demo.with_loose "/proj/src/cards/loose"
                   (VString "nothing.json"))) = [])
  /\ result (_getFramentConfiguration Demo.full "/proj/src/cards/hero"
               (VString "config.json")) = Returned (Json.text "{'fieldSets':[]}")
  /\ filter is_log
       (events (fragment_readFile Demo.full "/proj/src/cards/plain"
                  (VObject [("name", VString "Plain")]) (VString "missing.html")))
     = not_found_logs Demo.full "✘ Fragment " "/proj/src/cards/plain"
         (VObject [("name", VString "Plain")]) (VString "missing.html")
  /\ (exists f,
         result (fragment_of_directory Demo.with_loose "/proj/src/cards/loose")
           = Returned f
         /\ Fragment.metadata f
            = VObject [("htmlPath", VString "index.html");
                       ("cssPath", VString EmptyString);
                       ("configurationPath", VString "nothing.json")]
         /\ Fragment.configuration f = EmptyString)
  /\ (exists f,
         result (fragment_of_directory Demo.full "/proj/src/cards/hero")
           = Returned f
         /\ Fragment.configuration f = Json.text "{'fieldSets':[]}").
Proof.
  split; [ | split; [ | split; [ | split ] ] ].
  - apply (configuration_absent_or_missing_is_silent
             Demo.with_loose "/proj/src/cards/loose").
    reflexivity.
  - apply (configuration_absent_or_missing_is_silent
             Demo.full "/proj/src/cards/hero");
      [ discriminate | reflexivity ].
  - destruct (configuration_absent_or_missing_is_silent
                Demo.full "/proj/src/cards/plain") as (_ & _ & _ & _ & H & _).
    now rewrite (H (VObject [("name", VString "Plain")]) "missing.html").
  - destruct (configuration_absent_or_missing_is_silent
                Demo.with_loose "/proj/src/cards/loose")
      as (_ & _ & _ & _ & _ & _ & H).
    destruct (H (VObject [("htmlPath", VString "index.html");
                          ("cssPath", VString EmptyString);
                          ("configurationPath", VString "nothing.json")])
                eq_refl eq_refl eq_refl) as (_ & Hmissing & _).
    exact (Hmissing "nothing.json" eq_refl eq_refl).
  - destruct (configuration_absent_or_missing_is_silent
                Demo.full "/proj/src/cards/hero")
      as (_ & _ & _ & _ & _ & _ & H).
    edestruct H as (_ & _ & Hfile); [ reflexivity | reflexivity | reflexivity | ].
    destruct (Hfile "config.json" (Json.text "{'fieldSets':[]}"))
      as (f & Hf & _ & Hc); [ reflexivity | discriminate | reflexivity | ].
    now exists f.
Defined.

(** C5: every page template [_getPageTemplates] returns comes from a kept
    directory, in order; its metadata is the [name] of the marker and the
    path [page-definition.json] resolved in that directory, computed and not
    read; its [definitionData] is [JSON.stringify] of [JSON.parse] of the
    text of that file. When the marker of every kept directory is not
    [null] and its definition parses, [_getPageTemplates] returns. *)
Theorem pageTemplate_metadata_and_definition :
  forall (W : Runtime) (basePath : string),
    (forall templates,
        result (_getPageTemplates W basePath) = Returned templates ->
        Forall2
          (fun directory t =>
             exists metadata text definition,
               parsed W (path_resolve (cwd W) [directory; "page-template.json"])
                 = Some metadata
               /\ lookup W (path_resolve (cwd W) [directory; "page-definition.json"])
                  = Some (File text)
               /\ JSON_parse W text = Some definition
               /\ PageTemplate.metadata t =
                  {| PageTemplate.name := property metadata "name";
                     PageTemplate.pageTemplateDefinitionPath :=
                       path_resolve (cwd W) [directory; "page-definition.json"] |}
               /\ PageTemplate.definitionData t = JSON_stringify W definition)
          (pageTemplate_directories W basePath) templates)
    /\ ((forall directory,
            In directory (pageTemplate_directories W basePath) ->
            exists metadata definition,
              parsed W (path_resolve (cwd W) [directory; "page-template.json"])
                = Some metadata
              /\ nullish metadata = false
              /\ parsed W (path_resolve (cwd W) [directory; "page-definition.json"])
                 = Some definition) ->
        exists templates, result (_getPageTemplates W basePath) = Returned templates).
Proof.
  intros W basePath. split.
  - intros templates H. rewrite getPageTemplates_result in H.
    apply array_map_returned in H.
    eapply Forall2_impl; [ | exact H ].
    intros directory t Ht. simpl in Ht.
    apply pageTemplate_of_directory_returned in Ht
      as (metadata & text & definition & Hp & _ & Hl & Hj & ->).
    exists metadata, text, definition. now repeat split.
  - intros Hall. rewrite getPageTemplates_result.
    induction (pageTemplate_directories W basePath) as [ | d ds IH ].
    + now exists [].
    + destruct (Hall d (or_introl eq_refl)) as (metadata & definition & Hp & Hm & Hd).
      destruct IH as [ts Hts]; [ intros d' Hd'; apply Hall; now right | ].
      simpl. rewrite result_bind.
      rewrite (pageTemplate_of_directory_result W _ _ _ Hp Hm Hd).
      rewrite result_bind, Hts. eexists. reflexivity.
Qed.

(** The page templates [both] and [landing] of the demonstration
    project. *)
Lemma pageTemplate_metadata_and_definition_witness :
  exists templates,
    result (_getPageTemplates Demo.full "/proj") = Returned templates
    /\ map PageTemplate.definitionData templates =
       ["{}"; Json.text "{'rows':[1,2],'title':'Landing'}"]
    /\ map (fun t => PageTemplate.pageTemplateDefinitionPath (PageTemplate.metadata t))
           templates =
       ["/proj/src/both/page-definition.json"; "/proj/src/landing/page-definition.json"].
Proof.
  destruct (pageTemplate_metadata_and_definition Demo.full "/proj") as [_ H].
  destruct H as [templates Ht].
  - intros directory Hin. vm_compute in Hin.
    destruct Hin as [<- | [<- | []]].
    + exists (VObject [("name", VString "Both")]), (VObject []).
      now repeat split.
    + exists (VObject [("name", VString "Landing"); ("extra", VBool true)]),
        (VObject [("rows", VArray [VNumber (inject_Z 1); VNumber (inject_Z 2)]);
                  ("title", VString "Landing")]).
      now repeat split.
  - exists templates. split; [ exact Ht | ].
    vm_compute in Ht. injection Ht as <-. split; reflexivity.
Defined.




(** C7, amended: with a [package.json] that parses, [getProjectContent]
    returns whenever its two scans return, and then the project has the
    given [basePath], the parsed [package.json] and the sequences of the two
    scans; conversely a returned project is made so. Without a match of
    either pattern, and so when the directory [src] of a normalized
    absolute base path whose segments hold no special character of [glob]
    has no directory in it, the project is returned with both sequences
    empty. *)
Theorem project_is_composed_from_scans :
  forall (W : Runtime) (basePath : string) (project : value),
    parsed W (path_resolve (cwd W) [basePath; "package.json"]) = Some project ->
    (forall collections pageTemplates,
        result (_getProjectCollections W basePath) = Returned collections ->
        result (_getPageTemplates W basePath) = Returned pageTemplates ->
        result (getProjectContent W basePath) =
        Returned {| Project.basePath := basePath;
                    Project.project := project;
                    Project.collections := collections;
                    Project.pageTemplates := pageTemplates |})
    /\ (forall p,
           result (getProjectContent W basePath) = Returned p ->
           Project.basePath p = basePath
           /\ Project.project p = project
           /\ result (array_map (collection_of_directory W)
                        (collection_directories W basePath))
              = Returned (Project.collections p)
           /\ result (array_map (pageTemplate_of_directory W)
                        (pageTemplate_directories W basePath))
              = Returned (Project.pageTemplates p))
    /\ (glob_matches W (path_join [basePath; "src"; "*"; "collection.json"]) = [] ->
        glob_matches W (path_join [basePath; "src"; "*"; "page-template.json"]) = [] ->
        result (getProjectContent W basePath) =
        Returned {| Project.basePath := basePath;
                    Project.project := project;
                    Project.collections := [];
                    Project.pageTemplates := [] |})
    /\ (forall segs,
           basePath = absolute segs ->
           Forall (fun seg => simple_name seg = true) segs ->
           Forall (fun seg => glob_plain seg = true) segs ->
           (forall n entries,
               walk (root W) (segs ++ ["src"; n]) <> Some (Dir entries)) ->
           result (getProjectContent W basePath) =
           Returned {| Project.basePath := basePath;
                       Project.project := project;
                       Project.collections := [];
                       Project.pageTemplates := [] |}).
Proof.
  intros W basePath project Hpackage.
  split; [ | split; [ | split ] ].
  - intros collections pageTemplates. now apply getProjectContent_result.
  - intros p Hp.
    apply getProjectContent_returned in Hp as (Hbase & Hproject & Hc & Ht).
    rewrite <- getProjectCollections_result, <- getPageTemplates_result.
    repeat split; try assumption. congruence.
  - intros Hcollections Htemplates.
    apply getProjectContent_result; [ assumption | | ].
    + rewrite getProjectCollections_result.
      unfold collection_directories, candidates. now rewrite Hcollections.
    + rewrite getPageTemplates_result.
      unfold pageTemplate_directories, candidates. now rewrite Htemplates.
  - intros segs -> Hsegs Hliteral Hnone.
    assert (Hnone' : forall n entries,
               walk (root W) ((segs ++ ["src"]) ++ [n]) <> Some (Dir entries)).
    { intros n entries. rewrite <- app_assoc. apply Hnone. }
    apply getProjectContent_result; [ assumption | | ].
    + rewrite getProjectCollections_result. unfold collection_directories.
      rewrite kept_src_children by (assumption || reflexivity || discriminate).
      now rewrite no_directory_no_marked_child.
    + rewrite getPageTemplates_result. unfold pageTemplate_directories.
      rewrite kept_src_children by (assumption || reflexivity || discriminate).
      now rewrite no_directory_no_marked_child.
Qed.

(** The demonstration project with an empty [src]. *)
Lemma project_is_composed_from_scans_witness :
  result (getProjectContent Demo.empty "/proj") =
  Returned {| Project.basePath := "/proj";
              Project.project :=
                VObject [("name", VString "demo"); ("version", VString "1.0.0")];
              Project.collections := [];
              Project.pageTemplates := [] |}.
Proof.
  destruct (project_is_composed_from_scans Demo.empty "/proj"
              (VObject [("name", VString "demo"); ("version", VString "1.0.0")])
              eq_refl) as (_ & _ & _ & Hempty).
  apply (Hempty ["proj"]).
  - reflexivity.
  - now repeat constructor.
  - now repeat constructor.
  - intros n entries. simpl. discriminate.
Defined.

(** C7 as stated fails: the project below has a [package.json] that
    parses, and [getProjectContent] throws, for the page template [orphan]
    has no [page-definition.json]. *)
Lemma project_is_composed_from_scans_counterexample :
  parsed Demo.with_orphan
    (path_resolve (cwd Demo.with_orphan) ["/proj"; "package.json"])
    = Some (VObject [("name", VString "demo"); ("version", VString "1.0.0")])
  /\ result (getProjectContent Demo.with_orphan "/proj")
     = Thrown (FsError "ENOENT" "/proj/src/orphan/page-definition.json").
Proof. split; reflexivity. Qed.

(** C8: in the project [getProjectContent] returns, the collections are the
    kept collection directories, in order, each with the basename of its
    directory as [slug] and as [fragmentCollectionId]; its fragments and
    fragment compositions are the kept directories of their scans, each
    with the basename of its directory as [slug]; and so are the page
    templates. On the tree, for a normalized absolute base path whose
    segments hold no special character of [glob]: the slugs of the
    collections and of the page templates are the names of the marked
    children of [src], and the slugs of the fragments and compositions of a
    collection whose name holds none either are the names of the marked
    children of its directory. *)
Theorem slug_is_directory_basename :
  forall (W : Runtime) (basePath : string) (p : Project.t),
    result (getProjectContent W basePath) = Returned p ->
    Forall2
      (fun directory c =>
         Collection.slug c = path_basename directory
         /\ Collection.fragmentCollectionId c = Collection.slug c
         /\ Forall2 (fun d f => Fragment.slug f = path_basename d)
              (fragment_directories W directory) (Collection.fragments c)
         /\ Forall2 (fun d fc => FragmentComposition.slug fc = path_basename d)
              (composition_directories W directory)
              (Collection.fragmentCompositions c))
      (collection_directories W basePath) (Project.collections p)
    /\ Forall2 (fun directory t => PageTemplate.slug t = path_basename directory)
         (pageTemplate_directories W basePath) (Project.pageTemplates p)
    /\ (forall segs,
           basePath = absolute segs ->
           Forall (fun seg => simple_name seg = true) segs ->
           Forall (fun seg => glob_plain seg = true) segs ->
           map Collection.slug (Project.collections p)
             = marked_children W (segs ++ ["src"]) "collection.json"
           /\ map PageTemplate.slug (Project.pageTemplates p)
              = marked_children W (segs ++ ["src"]) "page-template.json"
           /\ Forall
                (fun c =>
                   glob_plain (Collection.slug c) = true ->
                   map Fragment.slug (Collection.fragments c)
                     = marked_children W (segs ++ ["src"; Collection.slug c])
                         "fragment.json"
                   /\ map FragmentComposition.slug (Collection.fragmentCompositions c)
                      = marked_children W (segs ++ ["src"; Collection.slug c])
                          "fragment-composition.json")
                (Project.collections p)).
Proof.
  intros W basePath p H.
  apply getProjectContent_returned in H as (_ & _ & Hc & Ht).
  assert (Hcollections :
            Forall2
              (fun directory c =>
                 Collection.slug c = path_basename directory
                 /\ Collection.fragmentCollectionId c = Collection.slug c
                 /\ Forall2 (fun d f => Fragment.slug f = path_basename d)
                      (fragment_directories W directory) (Collection.fragments c)
                 /\ Forall2 (fun d fc => FragmentComposition.slug fc = path_basename d)
                      (composition_directories W directory)
                      (Collection.fragmentCompositions c))
              (collection_directories W basePath) (Project.collections p)).
  { rewrite getProjectCollections_result in Hc. apply array_map_returned in Hc.
    eapply Forall2_impl; [ | exact Hc ].
    intros directory c Hbuilt. simpl in Hbuilt.
    apply collection_of_directory_returned in Hbuilt
      as (Hslug & Hid & _ & Hcompositions & Hfragments).
    repeat split; try congruence.
    - apply getCollectionFragments_returned in Hfragments.
      eapply Forall2_impl; [ | exact Hfragments ].
      intros d f Hf. now apply fragment_of_directory_returned in Hf.
    - apply getCollectionFragmentCompositions_returned in Hcompositions.
      eapply Forall2_impl; [ | exact Hcompositions ].
      intros d fc Hfc. now apply composition_of_directory_returned in Hfc. }
  assert (Htemplates :
            Forall2 (fun directory t => PageTemplate.slug t = path_basename directory)
              (pageTemplate_directories W basePath) (Project.pageTemplates p)).
  { rewrite getPageTemplates_result in Ht. apply array_map_returned in Ht.
    eapply Forall2_impl; [ | exact Ht ].
    intros directory t Hbuilt. simpl in Hbuilt.
    apply pageTemplate_of_directory_returned in Hbuilt
      as (metadata & text & definition & _ & _ & _ & _ & ->).
    reflexivity. }
  split; [ exact Hcollections | split; [ exact Htemplates | ] ].
  intros segs -> Hsegs Hliteral.
  assert (Hsrc : Forall (fun seg => simple_name seg = true) (segs ++ ["src"])).
  { apply Forall_app. split; [ assumption | now repeat constructor ]. }
  unfold collection_directories in Hcollections.
  unfold pageTemplate_directories in Htemplates.
  rewrite kept_src_children in Hcollections, Htemplates
    by (assumption || reflexivity || discriminate).
  rewrite (map_ext (fun n => absolute (segs ++ ["src"; n]))
                   (fun n => absolute ((segs ++ ["src"]) ++ [n])))
    in Hcollections, Htemplates
    by (intros n; now rewrite <- app_assoc).
  split; [ | split ].
  - apply slugs_of_children; [ assumption | ].
    eapply Forall2_impl; [ | exact Hcollections ].
    now intros directory c (Hslug & _).
  - now apply slugs_of_children.
  - pose proof (marked_children_simple W (segs ++ ["src"]) "collection.json")
      as Hnames.
    clear Hc Ht Htemplates. revert Hcollections Hnames.
    generalize (marked_children W (segs ++ ["src"]) "collection.json")
      as names.
    generalize (Project.collections p) as cs.
    induction cs as [ | c cs IH ]; intros names Hall Hnames;
      [ constructor | ].
    destruct names as [ | n names ]; [ inversion Hall | ].
    inversion Hall as [ | ? ? ? ? (Hslug & _ & Hfragments & Hcompositions) Hrest ];
      subst.
    inversion Hnames as [ | ? ? Hn Hnames' ]; subst.
    constructor; [ | now apply (IH names) ].
    intros Hstar.
    rewrite path_basename_absolute in Hslug by assumption.
    rewrite Hslug in *.
    assert (Hdir : Forall (fun seg => simple_name seg = true)
                     (segs ++ ["src"; n])).
    { apply Forall_app. split; [ assumption | now repeat constructor ]. }
    assert (Hlit : Forall (fun seg => glob_plain seg = true)
                     (segs ++ ["src"; n])).
    { apply Forall_app. split; [ assumption | now repeat constructor ]. }
    unfold fragment_directories in Hfragments.
    unfold composition_directories in Hcompositions.
    rewrite <- app_assoc in Hfragments, Hcompositions.
    simpl app in Hfragments, Hcompositions.
    rewrite kept_children in Hfragments, Hcompositions
      by (assumption || reflexivity || discriminate).
    split; now apply slugs_of_children.
Qed.

(** The demonstration project: two collections, four fragments of which
    one is dropped, one composition, two page templates. *)
Lemma slug_is_directory_basename_witness :
  exists p,
    result (getProjectContent Demo.full "/proj") = Returned p
    /\ map Collection.slug (Project.collections p) = ["both"; "cards"]
    /\ map PageTemplate.slug (Project.pageTemplates p) = ["both"; "landing"]
    /\ Forall2 (fun directory t => PageTemplate.slug t = path_basename directory)
         (pageTemplate_directories Demo.full "/proj") (Project.pageTemplates p).
Proof.
  destruct (result (getProjectContent Demo.full "/proj")) as [ p | e ] eqn:Hrun.
  - exists p. split; [ reflexivity | ].
    destruct (slug_is_directory_basename Demo.full "/proj" p Hrun)
      as (_ & Hslugs & Htree).
    destruct (Htree ["proj"]) as (Hcollections & Htemplates & _).
    + reflexivity.
    + now repeat constructor.
    + now repeat constructor.
    + split; [ rewrite Hcollections; reflexivity | ].
      split; [ rewrite Htemplates; reflexivity | exact Hslugs ].
  - vm_compute in Hrun. discriminate Hrun.
Defined.

(** C9: there are inputs on which the run aborts because of a fragment's
    configuration. Whenever the [configurationPath] of a fragment of a
    collection of the project is a non-empty string that resolves to a
    directory, [fs.existsSync] answers true, the read that follows throws
    EISDIR outside any [try], the callback of the fragment throws, and
    [getProjectContent] throws. The callback throws that EISDIR whenever
    its three loaders return, which come first; otherwise it throws the
    TypeError of the catch block of a loader. *)
Theorem configuration_directory_aborts_run :
  forall (W : Runtime) (basePath collection fragment : string) (metadata : value)
         (p : string) (entries : list (string * node)),
    In collection (collection_directories W basePath) ->
    In fragment (fragment_directories W collection) ->
    parsed W (path_resolve (cwd W) [fragment; "fragment.json"]) = Some metadata ->
    property metadata "configurationPath" = VString p ->
    p <> EmptyString ->
    lookup W (path_resolve (cwd W) [fragment; p]) = Some (Dir entries) ->
    _getFramentConfiguration W fragment (VString p) =
      ([Exists (path_resolve (cwd W) [fragment; p]);
        ReadFile (path_resolve (cwd W) [fragment; p])],
       Thrown (FsError "EISDIR" (path_resolve (cwd W) [fragment; p])))
    /\ result (fragment_of_directory W fragment) =
       (if fragment_loaders_return W fragment metadata
        then Thrown (FsError "EISDIR" (path_resolve (cwd W) [fragment; p]))
        else Thrown (TypeError "Cannot convert object to primitive value"))
    /\ exists e, result (getProjectContent W basePath) = Thrown e.
Proof.
  intros W basePath collection fragment metadata p entries
         Hcollection Hfragment Hparsed Hpath Hp Hdir.
  pose proof (configuration_directory W fragment p entries Hp Hdir) as Hconf.
  assert (Hfrag : result (fragment_of_directory W fragment) =
                  if fragment_loaders_return W fragment metadata
                  then Thrown (FsError "EISDIR"
                                 (path_resolve (cwd W) [fragment; p]))
                  else Thrown conversion_error).
  { rewrite (fragment_of_directory_result W fragment metadata Hparsed).
    - now rewrite Hpath, Hconf.
    - destruct metadata; try reflexivity; discriminate. }
  repeat split; try assumption.
  apply getProjectContent_thrown_by_collections.
  apply getProjectCollections_thrown with (collection := collection);
    [ assumption | ].
  apply collection_of_directory_thrown.
  apply getCollectionFragments_thrown with (fragment := fragment);
    [ assumption | ].
  rewrite Hfrag.
  destruct (fragment_loaders_return W fragment metadata); now eexists.
Qed.

(** Fragment [assets] of the demonstration project names its directory
    [assets] as configuration. *)
Lemma configuration_directory_aborts_run_witness :
  result (fragment_of_directory Demo.with_directory_configuration
            "/proj/src/cards/assets")
  = Thrown (FsError "EISDIR" "/proj/src/cards/assets/assets")
  /\ exists e, result (getProjectContent Demo.with_directory_configuration "/proj")
               = Thrown e.
Proof.
  refine ((fun H => conj (proj1 (proj2 H)) (proj2 (proj2 H))) _).
  apply (configuration_directory_aborts_run
           Demo.with_directory_configuration "/proj"
           "/proj/src/cards" "/proj/src/cards/assets"
           (VObject [("name", VString "Assets");
                     ("configurationPath", VString "assets")])
           "assets" []).
  - vm_compute. now left.
  - vm_compute. now left.
  - reflexivity.
  - reflexivity.
  - discriminate.
  - reflexivity.
Defined.

(** C10: the scans of collections and of page templates are independent:
    a directory kept by both is the directory of a collection and of a page
    template of the returned project; and inside a collection, a directory
    kept by the scan of fragments and by the scan of fragment compositions
    gives a fragment and a fragment composition of that collection. On the
    tree, for a normalized absolute base path whose segments hold no
    special character of [glob]: a visible child of [src] that holds a
    [collection.json] and a [page-template.json], both files that parse,
    names a collection and a page template of the returned project; and a
    visible child of a collection directory (its name holding no special
    character either) that holds a [fragment.json] and a
    [fragment-composition.json] that parse names a fragment and a fragment
    composition of that collection. *)
Theorem directory_with_both_markers_appears_twice :
  forall (W : Runtime) (basePath : string) (p : Project.t),
    result (getProjectContent W basePath) = Returned p ->
    (forall directory,
        In directory (collection_directories W basePath) ->
        In directory (pageTemplate_directories W basePath) ->
        (exists c,
            In c (Project.collections p)
            /\ result (collection_of_directory W directory) = Returned c
            /\ Collection.slug c = path_basename directory)
        /\ (exists t,
               In t (Project.pageTemplates p)
               /\ result (pageTemplate_of_directory W directory) = Returned t
               /\ PageTemplate.slug t = path_basename directory
               /\ PageTemplate.pageTemplateDefinitionPath (PageTemplate.metadata t)
                  = path_resolve (cwd W) [directory; "page-definition.json"]))
    /\ (forall collection directory,
           In collection (collection_directories W basePath) ->
           In directory (fragment_directories W collection) ->
           In directory (composition_directories W collection) ->
           exists c,
             In c (Project.collections p)
             /\ result (collection_of_directory W collection) = Returned c
             /\ (exists f,
                    In f (Collection.fragments c)
                    /\ result (fragment_of_directory W directory) = Returned f
                    /\ Fragment.slug f = path_basename directory)
             /\ (exists fc,
                    In fc (Collection.fragmentCompositions c)
                    /\ result (composition_of_directory W directory) = Returned fc
                    /\ FragmentComposition.slug fc = path_basename directory))
    /\ (forall segs,
           basePath = absolute segs ->
           Forall (fun seg => simple_name seg = true) segs ->
           Forall (fun seg => glob_plain seg = true) segs ->
           (forall n,
               In n (marked_children W (segs ++ ["src"]) "collection.json") ->
               In n (marked_children W (segs ++ ["src"]) "page-template.json") ->
               (exists c, In c (Project.collections p) /\ Collection.slug c = n)
               /\ (exists t,
                      In t (Project.pageTemplates p)
                      /\ PageTemplate.slug t = n
                      /\ PageTemplate.pageTemplateDefinitionPath
                           (PageTemplate.metadata t)
                         = absolute (segs ++ ["src"; n; "page-definition.json"])))
           /\ (forall collection n,
                  In collection
                     (marked_children W (segs ++ ["src"]) "collection.json") ->
                  glob_plain collection = true ->
                  In n (marked_children W (segs ++ ["src"; collection])
                          "fragment.json") ->
                  In n (marked_children W (segs ++ ["src"; collection])
                          "fragment-composition.json") ->
                  exists c,
                    In c (Project.collections p)
                    /\ Collection.slug c = collection
                    /\ (exists f,
                           In f (Collection.fragments c) /\ Fragment.slug f = n)
                    /\ (exists fc,
                           In fc (Collection.fragmentCompositions c)
                           /\ FragmentComposition.slug fc = n))).
Proof.
  intros W basePath p H.
  destruct (kept_twice_built_twice W basePath p H) as [Htop Hinner].
  split; [ exact Htop | split; [ exact Hinner | ] ].
  intros segs -> Hsegs Hliteral.
  assert (Hsrc : Forall (fun seg => simple_name seg = true) (segs ++ ["src"])).
  { apply Forall_app. split; [ assumption | now repeat constructor ]. }
  assert (Hkept : forall marker n,
             simple_name marker = true -> glob_plain marker = true ->
             In n (marked_children W (segs ++ ["src"]) marker) ->
             In (absolute (segs ++ ["src"; n]))
                (filter (marker_ok W marker)
                   (candidates W (path_join [absolute segs; "src"; "*"; marker])))
             /\ simple_name n = true).
  { intros marker n Hmarker Hnot_star Hn. split.
    - rewrite kept_src_children by assumption.
      now apply (in_map (fun n => absolute (segs ++ ["src"; n]))).
    - pose proof (marked_children_simple W (segs ++ ["src"]) marker) as Hnames.
      rewrite Forall_forall in Hnames. now apply Hnames. }
  assert (Hbase : forall n, simple_name n = true ->
             path_basename (absolute (segs ++ ["src"; n])) = n).
  { intros n Hn. change ["src"; n] with (["src"] ++ [n])%list.
    rewrite app_assoc. now apply path_basename_absolute. }
  split.
  - intros n Hcol Htem.
    destruct (Hkept "collection.json" n eq_refl eq_refl Hcol)
      as [Hcol' Hn].
    destruct (Hkept "page-template.json" n eq_refl eq_refl Htem)
      as [Htem' _].
    destruct (Htop _ Hcol' Htem') as [(c & Hc & _ & Hcs) (t & Ht & _ & Hts & Hpath)].
    rewrite Hbase in Hcs, Hts by assumption.
    split; [ now exists c | ].
    exists t. repeat split; try assumption.
    assert (Hdir : Forall (fun seg => simple_name seg = true) (segs ++ ["src"; n])).
    { apply Forall_app. split; [ assumption | now repeat constructor ]. }
    rewrite Hpath, path_resolve_below by (assumption || now repeat constructor).
    now rewrite <- app_assoc.
  - intros collection n Hcol Hnot_star Hfrag Hcomp.
    destruct (Hkept "collection.json" collection eq_refl eq_refl Hcol)
      as [Hcol' Hcollection].
    assert (Hdir : Forall (fun seg => simple_name seg = true)
                     (segs ++ ["src"; collection])).
    { apply Forall_app. split; [ assumption | now repeat constructor ]. }
    assert (Hlit : Forall (fun seg => glob_plain seg = true)
                     (segs ++ ["src"; collection])).
    { apply Forall_app. split; [ assumption | now repeat constructor ]. }
    assert (Hinside : forall marker,
               simple_name marker = true -> glob_plain marker = true ->
               In n (marked_children W (segs ++ ["src"; collection]) marker) ->
               In (absolute ((segs ++ ["src"; collection]) ++ [n]))
                  (filter (marker_ok W marker)
                     (candidates W
                        (path_join [absolute (segs ++ ["src"; collection]); "*";
                                    marker])))
               /\ simple_name n = true).
    { intros marker Hmarker Hnot_star' Hn. split.
      - rewrite kept_children by assumption.
        now apply (in_map (fun n => absolute ((segs ++ ["src"; collection]) ++ [n]))).
      - pose proof (marked_children_simple W (segs ++ ["src"; collection]) marker)
          as Hnames.
        rewrite Forall_forall in Hnames. now apply Hnames. }
    destruct (Hinside "fragment.json" eq_refl eq_refl Hfrag)
      as [Hfrag' Hn].
    destruct (Hinside "fragment-composition.json" eq_refl eq_refl Hcomp)
      as [Hcomp' _].
    destruct (Hinner _ _ Hcol' Hfrag' Hcomp')
      as (c & Hc & Hbuilt & (f & Hf & _ & Hfs) & (fc & Hfc & _ & Hfcs)).
    apply collection_of_directory_returned in Hbuilt as (Hslug & _).
    rewrite Hbase in Hslug by assumption.
    rewrite path_basename_absolute in Hfs, Hfcs by assumption.
    exists c. repeat split; try assumption.
    + now exists f.
    + now exists fc.
Qed.

(** In the demonstration project, [src/both] holds [collection.json] and
    [page-template.json], and [src/cards/combo] holds [fragment.json] and
    [fragment-composition.json]. *)
Lemma directory_with_both_markers_appears_twice_witness :
  exists p,
    result (getProjectContent Demo.full "/proj") = Returned p
    /\ (exists c, In c (Project.collections p) /\ Collection.slug c = "both")
    /\ (exists t, In t (Project.pageTemplates p) /\ PageTemplate.slug t = "both")
    /\ (exists c f fc,
           In c (Project.collections p)
           /\ In f (Collection.fragments c) /\ Fragment.slug f = "combo"
           /\ In fc (Collection.fragmentCompositions c)
           /\ FragmentComposition.slug fc = "combo").
Proof.
  destruct (result (getProjectContent Demo.full "/proj")) as [ p | e ] eqn:Hrun.
  - exists p. split; [ reflexivity | ].
    destruct (directory_with_both_markers_appears_twice Demo.full "/proj" p Hrun)
      as (_ & _ & Htree).
    destruct (Htree ["proj"]) as [Htop Hinner].
    + reflexivity.
    + now repeat constructor.
    + now repeat constructor.
    + destruct (Htop "both") as [(c & Hc & Hcs) (t & Ht & Hts & _)];
        [ vm_compute; tauto | vm_compute; tauto | ].
      destruct (Hinner "cards" "combo")
        as (c' & Hc' & _ & (f & Hf & Hfs) & (fc & Hfc & Hfcs));
        [ vm_compute; tauto | reflexivity | vm_compute; tauto
        | vm_compute; tauto | ].
      split; [ now exists c | ]. split; [ now exists t | ].
      exists c', f, fc. now repeat split.
  - vm_compute in Hrun. discriminate Hrun.
Defined.

(** * Further properties *)

(** ** The program and its description without effects *)

Lemma traverse_Forall2 {A B} (g : A -> option B) (xs : list A) (ys : list B) :
  traverse g xs = Some ys <-> Forall2 (fun x y => g x = Some y) xs ys.
Proof.
  revert ys. induction xs as [ | x xs IH ]; intros ys; simpl.
  - split; intros H; [ injection H as <-; constructor | now inversion H ].
  - destruct (g x) as [ y | ] eqn:Hx.
    + destruct (traverse g xs) as [ ys' | ] eqn:Hxs.
      * split; intros H.
        -- injection H as <-. constructor; [ assumption | now apply IH ].
        -- inversion H as [ | ? y0 ? ys0 Hy Hrest ]; subst.
           apply IH in Hrest. congruence.
      * split; intros H; [ discriminate | ].
        inversion H as [ | ? y0 ? ys0 Hy Hrest ]; subst.
        apply IH in Hrest. discriminate.
    + split; intros H; [ discriminate | ].
      inversion H; subst. congruence.
Qed.

Lemma array_map_traverse {A B} (f : A -> M B) (g : A -> option B) (xs : list A) :
  (forall x y, In x xs -> result (f x) = Returned y <-> g x = Some y) ->
  forall ys, result (array_map f xs) = Returned ys <-> traverse g xs = Some ys.
Proof.
  intros Hfg ys. rewrite array_map_returned, traverse_Forall2.
  revert ys. induction xs as [ | x xs IH ]; intros ys.
  - split; intros H; inversion H; constructor.
  - split; intros H; inversion H as [ | ? y ? ys' Hy Hrest ]; subst;
      (constructor;
       [ now apply (Hfg x y (or_introl eq_refl))
       | apply IH; [ intros x' y' Hin; apply Hfg; now right | assumption ] ]).
Qed.

Lemma not_returned_thrown {A} (m : M A) :
  (forall a, result m <> Returned a) -> exists e, result m = Thrown e.
Proof.
  intros H. destruct (result m) as [ a | e ]; [ now contradiction (H a) | now exists e ].
Qed.

Section PureProgram.

Variable W : Runtime.

Lemma configuration_pure (directory : string) (configurationPath : value)
  (text : string) :
  result (_getFramentConfiguration W directory configurationPath) = Returned text
  <-> pure_configuration W directory configurationPath = Some text.
Proof.
  unfold _getFramentConfiguration, pure_configuration, existsSync, readFileSync.
  destruct (truthy configurationPath); [ | simpl; split; congruence ].
  destruct configurationPath as [ | | b | q | p | items | props ];
    try (simpl; split; discriminate).
  simpl.
  destruct (lookup W (path_resolve (cwd W) [directory; p]))
    as [ [ data | entries ] | ]; simpl; split; congruence.
Qed.

Lemma fragment_of_directory_pure (directory : string) (f : Fragment.t) :
  result (fragment_of_directory W directory) = Returned f
  <-> pure_fragment W directory = Some f.
Proof.
  unfold pure_fragment.
  destruct (parsed W (path_resolve (cwd W) [directory; "fragment.json"]))
    as [ metadata | ] eqn:Hp.
  - destruct (nullish metadata) eqn:Hm.
    + rewrite (fragment_of_directory_null W _ _ Hp Hm). split; discriminate.
    + rewrite (fragment_of_directory_result W _ _ Hp Hm).
      destruct (fragment_loaders_return W directory metadata);
        [ | split; discriminate ].
      destruct (pure_configuration W directory (property metadata "configurationPath"))
        as [ text | ] eqn:Hc.
      * apply configuration_pure in Hc. rewrite Hc. split; congruence.
      * destruct (result (_getFramentConfiguration W directory _)) as [ text | e ] eqn:Hr;
          [ | split; discriminate ].
        apply configuration_pure in Hr. congruence.
  - destruct (fragment_of_directory_unparsed W _ Hp) as [e ->]. split; discriminate.
Qed.

Lemma composition_of_directory_pure (directory : string)
  (c : FragmentComposition.t) :
  result (composition_of_directory W directory) = Returned c
  <-> pure_composition W directory = Some c.
Proof.
  unfold pure_composition.
  destruct (parsed W (path_resolve (cwd W) [directory; "fragment-composition.json"]))
    as [ metadata | ] eqn:Hp.
  - destruct (nullish metadata) eqn:Hm.
    + unfold composition_of_directory.
      rewrite (readJSONSync_parsed _ _ _ Hp), result_bind_returned.
      rewrite get_prop_thrown by assumption. split; discriminate.
    + rewrite (composition_of_directory_result W _ _ Hp Hm).
      destruct (composition_loader_returns W directory metadata);
        split; congruence.
  - unfold composition_of_directory.
    destruct (readJSONSync_thrown _ _ Hp) as [e ->]. split; discriminate.
Qed.

Lemma pageTemplate_of_directory_pure (directory : string) (t : PageTemplate.t) :
  result (pageTemplate_of_directory W directory) = Returned t
  <-> pure_pageTemplate W directory = Some t.
Proof.
  unfold pure_pageTemplate. split.
  - intros H. apply pageTemplate_of_directory_returned in H
      as (metadata & text & definition & Hp & Hm & Hl & Hj & ->).
    rewrite Hp, Hm. unfold parsed. now rewrite Hl, Hj.
  - destruct (parsed W (path_resolve (cwd W) [directory; "page-template.json"]))
      as [ metadata | ] eqn:Hp; [ | discriminate ].
    destruct (nullish metadata) eqn:Hm; [ discriminate | ].
    destruct (parsed W (path_resolve (cwd W) [directory; "page-definition.json"]))
      as [ definition | ] eqn:Hd; [ | discriminate ].
    intros [= <-]. now apply pageTemplate_of_directory_result.
Qed.

Lemma getCollectionFragments_traverse (collection : string)
  (fragments : list Fragment.t) :
  result (_getCollectionFragments W collection) = Returned fragments
  <-> traverse (pure_fragment W) (fragment_directories W collection) = Some fragments.
Proof.
  rewrite getCollectionFragments_result. apply array_map_traverse.
  intros d f _. apply fragment_of_directory_pure.
Qed.

Lemma getCollectionFragmentCompositions_traverse (collection : string)
  (compositions : list FragmentComposition.t) :
  result (_getCollectionFragmentCompositions W collection) = Returned compositions
  <-> traverse (pure_composition W) (composition_directories W collection)
      = Some compositions.
Proof.
  rewrite getCollectionFragmentCompositions_result. apply array_map_traverse.
  intros d c _. apply composition_of_directory_pure.
Qed.

Lemma getPageTemplates_traverse (basePath : string)
  (templates : list PageTemplate.t) :
  result (_getPageTemplates W basePath) = Returned templates
  <-> traverse (pure_pageTemplate W) (pageTemplate_directories W basePath)
      = Some templates.
Proof.
  rewrite getPageTemplates_result. apply array_map_traverse.
  intros d t _. apply pageTemplate_of_directory_pure.
Qed.

Lemma collection_of_directory_pure (directory : string) (c : Collection.t) :
  result (collection_of_directory W directory) = Returned c
  <-> pure_collection W directory = Some c.
Proof.
  unfold pure_collection.
  destruct (parsed W (path_resolve (cwd W) [directory; "collection.json"]))
    as [ metadata | ] eqn:Hp.
  - rewrite (collection_of_directory_result W _ _ Hp).
    destruct (result (_getCollectionFragmentCompositions W directory))
      as [ cs | e ] eqn:Hcs.
    + apply getCollectionFragmentCompositions_traverse in Hcs. rewrite Hcs.
      destruct (result (_getCollectionFragments W directory)) as [ fs | e ] eqn:Hfs.
      * apply getCollectionFragments_traverse in Hfs. rewrite Hfs.
        split; congruence.
      * destruct (traverse (pure_fragment W) (fragment_directories W directory))
          as [ fs | ] eqn:Ht; [ | split; discriminate ].
        apply getCollectionFragments_traverse in Ht. congruence.
    + destruct (traverse (pure_composition W) (composition_directories W directory))
        as [ cs | ] eqn:Ht; [ | split; discriminate ].
      apply getCollectionFragmentCompositions_traverse in Ht. congruence.
  - split; [ | discriminate ].
    intros H. apply collection_of_directory_returned in H as (_ & _ & H & _).
    congruence.
Qed.

Lemma getProjectCollections_traverse (basePath : string)
  (collections : list Collection.t) :
  result (_getProjectCollections W basePath) = Returned collections
  <-> traverse (pure_collection W) (collection_directories W basePath)
      = Some collections.
Proof.
  rewrite getProjectCollections_result. apply array_map_traverse.
  intros d c _. apply collection_of_directory_pure.
Qed.

Lemma getProjectContent_traverse (basePath : string) (p : Project.t) :
  result (getProjectContent W basePath) = Returned p
  <-> pure_project W basePath = Some p.
Proof.
  unfold pure_project. split.
  - intros H. apply getProjectContent_returned in H as (Hbase & Hp & Hc & Ht).
    apply getProjectCollections_traverse in Hc.
    apply getPageTemplates_traverse in Ht.
    rewrite Hp, Hc, Ht. destruct p. simpl in *. now subst.
  - destruct (parsed W (path_resolve (cwd W) [basePath; "package.json"]))
      as [ project | ] eqn:Hp; [ | discriminate ].
    destruct (traverse (pure_collection W) (collection_directories W basePath))
      as [ cs | ] eqn:Hc; [ | discriminate ].
    destruct (traverse (pure_pageTemplate W) (pageTemplate_directories W basePath))
      as [ ts | ] eqn:Ht; [ | discriminate ].
    intros [= <-].
    apply getProjectCollections_traverse in Hc.
    apply getPageTemplates_traverse in Ht.
    now apply getProjectContent_result.
Qed.

Lemma thrown_iff_none {A} (m : M A) (o : option A) :
  (forall a, result m = Returned a <-> o = Some a) ->
  ((exists e, result m = Thrown e) <-> o = None).
Proof.
  intros H. split.
  - intros [e He]. destruct o as [ a | ]; [ | reflexivity ].
    pose proof (proj2 (H a) eq_refl) as Ha. congruence.
  - intros ->. apply not_returned_thrown. intros a Ha. apply H in Ha. discriminate.
Qed.

End PureProgram.

(** ** The outcomes of [_getFramentConfiguration] *)

(** X1: [_getFramentConfiguration] touches no file for a falsy path. For a
    truthy path that is not a string (a number, [true], an array, an
    object) it throws a TypeError before any access to the file system. For
    a non-empty string it tests existence once and reads at most once: the
    text of a file is returned, a missing path gives the empty string
    without a read, a directory makes the read throw EISDIR. It throws in
    no other case. *)
Theorem configuration_outcomes :
  forall (W : Runtime) (directory : string) (configurationPath : value),
    (truthy configurationPath = false ->
     _getFramentConfiguration W directory configurationPath
       = ([], Returned EmptyString))
    /\ (truthy configurationPath = true ->
        (forall p, configurationPath <> VString p) ->
        _getFramentConfiguration W directory configurationPath
          = ([], Thrown (TypeError "paths[1]")))
    /\ (forall p,
           configurationPath = VString p -> p <> EmptyString ->
           _getFramentConfiguration W directory configurationPath =
           match lookup W (path_resolve (cwd W) [directory; p]) with
           | Some (File data) =>
               ([Exists (path_resolve (cwd W) [directory; p]);
                 ReadFile (path_resolve (cwd W) [directory; p])],
                Returned data)
           | Some (Dir _) =>
               ([Exists (path_resolve (cwd W) [directory; p]);
                 ReadFile (path_resolve (cwd W) [directory; p])],
                Thrown (FsError "EISDIR" (path_resolve (cwd W) [directory; p])))
           | None =>
               ([Exists (path_resolve (cwd W) [directory; p])],
                Returned EmptyString)
           end)
    /\ ((exists e,
            result (_getFramentConfiguration W directory configurationPath)
              = Thrown e)
        <-> truthy configurationPath = true
            /\ ((forall p, configurationPath <> VString p)
                \/ exists p entries,
                     configurationPath = VString p
                     /\ lookup W (path_resolve (cwd W) [directory; p])
                        = Some (Dir entries))).
Proof.
  intros W directory configurationPath.
  split; [ | split; [ | split ] ].
  - intros Hfalsy. unfold _getFramentConfiguration. now rewrite Hfalsy.
  - intros Htruthy Hnot_string. unfold _getFramentConfiguration. rewrite Htruthy.
    destruct configurationPath as [ | | b | q | p | items | props ];
      try reflexivity.
    now contradiction (Hnot_string p).
  - intros p -> Hp. unfold _getFramentConfiguration, existsSync, readFileSync.
    apply String.eqb_neq in Hp. simpl. rewrite Hp. simpl.
    destruct (lookup W (path_resolve (cwd W) [directory; p]))
      as [ [ data | entries ] | ]; reflexivity.
  - unfold _getFramentConfiguration, existsSync, readFileSync.
    destruct (truthy configurationPath) eqn:Htruthy.
    + destruct configurationPath as [ | | b | q | p | items | props ];
        try (split;
             [ intros _; split; [ reflexivity | left; intros p; discriminate ]
             | intros _; eexists; reflexivity ]).
      simpl.
      destruct (lookup W (path_resolve (cwd W) [directory; p]))
        as [ [ data | entries ] | ] eqn:Hl; simpl.
      * split; [ intros [e He]; discriminate | ].
        intros [_ [Hnot | (p' & entries & Heq & Hdir)]];
          [ now contradiction (Hnot p) | ].
        injection Heq as <-. congruence.
      * split; [ | intros _; eexists; reflexivity ].
        intros _. split; [ reflexivity | ]. right. now exists p, entries.
      * split; [ intros [e He]; discriminate | ].
        intros [_ [Hnot | (p' & entries & Heq & Hdir)]];
          [ now contradiction (Hnot p) | ].
        injection Heq as <-. congruence.
    + split; [ intros [e He]; discriminate | intros [H _]; discriminate ].
Qed.

(** The fragment [wandering] has the number 7 as [configurationPath]; the
    fragment [assets] of the demonstration project names a directory; the
    fragment [loose] names a missing file. *)
Lemma configuration_outcomes_witness :
  _getFramentConfiguration Cases.with_wandering "/proj/src/cards/wandering"
    (VNumber (inject_Z 7)) = ([], Thrown (TypeError "paths[1]"))
  /\ _getFramentConfiguration Demo.with_loose "/proj/src/cards/loose"
       (VString "nothing.json")
     = ([Exists "/proj/src/cards/loose/nothing.json"], Returned EmptyString)
  /\ (exists e,
         result (_getFramentConfiguration Demo.with_directory_configuration
                   "/proj/src/cards/assets" (VString "assets")) = Thrown e).
Proof.
  split; [ | split ].
  - apply (configuration_outcomes Cases.with_wandering "/proj/src/cards/wandering"
             (VNumber (inject_Z 7))); [ reflexivity | discriminate ].
  - destruct (configuration_outcomes Demo.with_loose "/proj/src/cards/loose"
                (VString "nothing.json")) as (_ & _ & Hstring & _).
    now rewrite (Hstring "nothing.json" eq_refl ltac:(discriminate)).
  - apply (configuration_outcomes Demo.with_directory_configuration
             "/proj/src/cards/assets" (VString "assets")).
    split; [ reflexivity | ]. right. now exists "assets", [].
Defined.

(** ** The content loaders, for every path *)

(** X2: the content loaders, in an entity whose metadata is not [null].
    When the path is a string that names a file they read it once, log
    nothing and return its text as it is. In every other case (no string,
    a missing path, a directory) the catch block runs. Its first template
    literal converts the owner, which is [metadata.name] when truthy and
    the directory otherwise; if that throws, the loader throws the
    TypeError and logs nothing. Otherwise the owner is logged and the
    second literal converts the path; if that throws, the loader throws
    after one entry. Otherwise the path not found is logged and the empty
    string returned. So a loader returns exactly when it reads a file or
    both values convert, and it throws nothing but that TypeError. *)
Theorem loader_contract :
  forall (W : Runtime) (directory : string) (metadata filePath : value),
    nullish metadata = false ->
    let owner :=
      if truthy (property metadata "name") then property metadata "name"
      else VString directory in
    let first label :=
      Log [Text label; Interp owner]
          (Some {| level := LOG_LEVEL_error W; newLine := VBool true |}) in
    let second :=
      Log [Text "File "; Interp filePath; Text " was not found"] None in
    let attempt := read_attempt W directory filePath in
    let thrown : outcome string :=
      Thrown (TypeError "Cannot convert object to primitive value") in
    (forall p data,
        filePath = VString p ->
        lookup W (path_resolve (cwd W) [directory; p]) = Some (File data) ->
        fragment_readFile W directory metadata filePath
          = ([ReadFile (path_resolve (cwd W) [directory; p])], Returned data)
        /\ composition_readFile W directory metadata filePath
           = ([ReadFile (path_resolve (cwd W) [directory; p])], Returned data))
    /\ (content W directory filePath = None ->
        convertible owner = true -> convertible filePath = true ->
        fragment_readFile W directory metadata filePath
          = ((attempt ++ [first "✘ Fragment "; second])%list,
             Returned EmptyString)
        /\ composition_readFile W directory metadata filePath
           = ((attempt ++ [first "✘ Fragment composition "; second])%list,
              Returned EmptyString))
    /\ (content W directory filePath = None ->
        convertible owner = false ->
        fragment_readFile W directory metadata filePath = (attempt, thrown)
        /\ composition_readFile W directory metadata filePath = (attempt, thrown))
    /\ (content W directory filePath = None ->
        convertible owner = true -> convertible filePath = false ->
        fragment_readFile W directory metadata filePath
          = ((attempt ++ [first "✘ Fragment "])%list, thrown)
        /\ composition_readFile W directory metadata filePath
           = ((attempt ++ [first "✘ Fragment composition "])%list, thrown))
    /\ (forall p entries,
           filePath = VString p ->
           lookup W (path_resolve (cwd W) [directory; p]) = Some (Dir entries) ->
           content W directory filePath = None)
    /\ ((exists text,
            result (fragment_readFile W directory metadata filePath)
              = Returned text)
        <-> (exists data, content W directory filePath = Some data)
            \/ convertible owner && convertible filePath = true)
    /\ result (composition_readFile W directory metadata filePath)
       = result (fragment_readFile W directory metadata filePath).
Proof.
  intros W directory metadata filePath Hmetadata owner first second attempt thrown.
  rewrite fragment_readFile_spec, composition_readFile_spec by assumption.
  unfold loader_run, log_owner, not_found_logs.
  change (or_else (property metadata "name") (VString directory)) with owner.
  split; [ | split; [ | split; [ | split; [ | split; [ | split ] ] ] ] ].
  - intros p data -> Hfile.
    unfold content, read_attempt. rewrite Hfile. now split.
  - intros -> -> ->. now split.
  - intros -> ->. now split.
  - intros -> -> ->. now split.
  - intros p entries -> Hdir. unfold content. now rewrite Hdir.
  - destruct (content W directory filePath) as [ data | ].
    + split; [ intros _; left; now exists data | intros _; now eexists ].
    + destruct (convertible owner); [ destruct (convertible filePath) | ]; simpl.
      * split; [ intros _; now right | intros _; now eexists ].
      * split; [ intros [text H]; discriminate H | ].
        intros [[data H] | H]; discriminate H.
      * split; [ intros [text H]; discriminate H | ].
        intros [[data H] | H]; discriminate H.
  - destruct (content W directory filePath) as [ data | ]; [ reflexivity | ].
    destruct (convertible owner); [ | reflexivity ].
    now destruct (convertible filePath).
Qed.

(** The [htmlPath] of the fragment [wandering] names a directory; the
    definition of the composition [odd] is missing and its name does not
    convert. *)
Lemma loader_contract_witness :
  fragment_readFile Cases.with_wandering "/proj/src/cards/wandering"
    (VObject [("name", VString "Wandering")]) (VString "assets")
  = ([ReadFile "/proj/src/cards/wandering/assets";
      Log [Text "✘ Fragment "; Interp (VString "Wandering")]
          (Some {| level := VString "LOG_LEVEL_ERROR"; newLine := VBool true |});
      Log [Text "File "; Interp (VString "assets"); Text " was not found"] None],
     Returned EmptyString)
  /\ composition_readFile Cases.with_exotic_composition "/proj/src/cards/odd"
       (VObject [("name", VObject [("toString", VNumber 0)])])
       (VString "gone.json")
     = ([ReadFile "/proj/src/cards/odd/gone.json"],
        Thrown (TypeError "Cannot convert object to primitive value")).
Proof.
  split.
  - destruct (loader_contract Cases.with_wandering "/proj/src/cards/wandering"
                (VObject [("name", VString "Wandering")]) (VString "assets")
                eq_refl) as (_ & Hfailure & _).
    exact (proj1 (Hfailure eq_refl eq_refl eq_refl)).
  - destruct (loader_contract Cases.with_exotic_composition "/proj/src/cards/odd"
                (VObject [("name", VObject [("toString", VNumber 0)])])
                (VString "gone.json") eq_refl) as (_ & _ & Hthrown & _).
    exact (proj2 (Hthrown eq_refl eq_refl)).
Defined.

(** ** The assemblers as partial functions *)

Lemma traverse_none {A B} (g : A -> option B) (xs : list A) :
  traverse g xs = None <-> exists x, In x xs /\ g x = None.
Proof.
  induction xs as [ | x xs IH ]; simpl.
  - split; [ discriminate | intros (x & [] & _) ].
  - destruct (g x) as [ y | ] eqn:Hx.
    + destruct (traverse g xs) as [ ys | ].
      * split; [ discriminate | ].
        intros (x' & [<- | Hin] & Hnone); [ congruence | ].
        enough (Some ys = None) by discriminate. apply IH. now exists x'.
      * split; [ | reflexivity ].
        intros _. destruct (proj1 IH eq_refl) as (x' & Hin & Hnone).
        exists x'. split; [ now right | assumption ].
    + split; [ | reflexivity ]. intros _. exists x. split; [ now left | assumption ].
Qed.

(** X3: [_getCollectionFragments] returns exactly when [pure_fragment] is
    defined on every kept directory, and then it returns those fragments in
    order: the marker as metadata, the basename as slug, the raw text of
    the files behind [htmlPath], [cssPath] and [jsPath] (empty where it
    cannot be read), and the configuration. It throws exactly when, for
    some kept directory, the marker is [null], or one of the three loaders
    throws (it reads no file and the owner or the path does not convert to
    a string), or the configuration path is a truthy non-string or names a
    directory. *)
Theorem fragments_as_partial_function :
  forall (W : Runtime) (collection : string),
    (forall fragments,
        result (_getCollectionFragments W collection) = Returned fragments
        <-> traverse (pure_fragment W) (fragment_directories W collection)
            = Some fragments)
    /\ ((exists e, result (_getCollectionFragments W collection) = Thrown e)
        <-> exists directory metadata,
              In directory (fragment_directories W collection)
              /\ parsed W (path_resolve (cwd W) [directory; "fragment.json"])
                 = Some metadata
              /\ (nullish metadata = true
                  \/ (exists key,
                         In key ["htmlPath"; "cssPath"; "jsPath"]
                         /\ content W directory (property metadata key) = None
                         /\ convertible
                              (or_else (property metadata "name")
                                 (VString directory))
                            && convertible (property metadata key) = false)
                  \/ pure_configuration W directory
                       (property metadata "configurationPath") = None)).
Proof.
  intros W collection.
  split; [ intros fragments; apply getCollectionFragments_traverse | ].
  rewrite (thrown_iff_none _ _ (getCollectionFragments_traverse W collection)).
  rewrite traverse_none.
  assert (Hloaders : forall directory metadata,
             fragment_loaders_return W directory metadata = false
             <-> exists key,
                   In key ["htmlPath"; "cssPath"; "jsPath"]
                   /\ content W directory (property metadata key) = None
                   /\ convertible
                        (or_else (property metadata "name") (VString directory))
                      && convertible (property metadata key) = false).
  { intros directory metadata. unfold fragment_loaders_return. cbn [forallb].
    assert (Hone : forall key,
               loader_returns W directory metadata (property metadata key) = false
               <-> content W directory (property metadata key) = None
                   /\ convertible
                        (or_else (property metadata "name") (VString directory))
                      && convertible (property metadata key) = false).
    { intros key. unfold loader_returns, reportable, log_owner.
      destruct (content W directory (property metadata key)).
      - split; [ discriminate | intros [H _]; discriminate H ].
      - split; [ now split | now intros [_ H] ]. }
    split.
    - intros H.
      destruct (loader_returns W directory metadata (property metadata "htmlPath"))
        eqn:H1;
        [ | exists "htmlPath"; split; [ simpl; tauto | now apply Hone ] ].
      destruct (loader_returns W directory metadata (property metadata "cssPath"))
        eqn:H2;
        [ | exists "cssPath"; split; [ simpl; tauto | now apply Hone ] ].
      destruct (loader_returns W directory metadata (property metadata "jsPath"))
        eqn:H3;
        [ discriminate H
        | exists "jsPath"; split; [ simpl; tauto | now apply Hone ] ].
    - intros (key & Hkey & Hbad). apply Hone in Hbad.
      destruct Hkey as [<- | [<- | [<- | []]]]; rewrite Hbad;
        repeat match goal with
               | |- context [ loader_returns ?a ?b ?c ?d ] =>
                   destruct (loader_returns a b c d)
               end; reflexivity. }
  split.
  - intros (d & Hin & Hnone).
    pose proof Hin as Hkept. apply filter_In in Hkept as [_ Hkept].
    apply marker_ok_parsed in Hkept as [metadata Hp].
    exists d, metadata. split; [ assumption | ]. split; [ assumption | ].
    unfold pure_fragment in Hnone. rewrite Hp in Hnone.
    destruct (nullish metadata); [ now left | right ].
    destruct (fragment_loaders_return W d metadata) eqn:Hl;
      [ right | left; now apply Hloaders ].
    now destruct (pure_configuration W d (property metadata "configurationPath")).
  - intros (d & metadata & Hin & Hp & Hbad). exists d. split; [ assumption | ].
    unfold pure_fragment. rewrite Hp.
    destruct (nullish metadata); [ reflexivity | ].
    destruct Hbad as [Hnull | [Hl | Hconf]]; [ discriminate | | ].
    + apply Hloaders in Hl. now rewrite Hl.
    + rewrite Hconf. now destruct (fragment_loaders_return W d metadata).
Qed.

(** The fragments of [cards] in the demonstration project are returned; in
    the project of [wandering], whose [configurationPath] is a number, the
    scan of fragments throws. *)
Lemma fragments_as_partial_function_witness :
  (exists fragments,
      result (_getCollectionFragments Demo.full "/proj/src/cards") = Returned fragments
      /\ map Fragment.slug fragments = ["combo"; "hero"; "plain"])
  /\ (exists e,
         result (_getCollectionFragments Cases.with_wandering "/proj/src/cards")
           = Thrown e)
  /\ (exists e,
         result (_getCollectionFragments Cases.with_exotic_name "/proj/src/cards")
           = Thrown e).
Proof.
  split; [ | split ].
  - destruct (traverse (pure_fragment Demo.full)
                (fragment_directories Demo.full "/proj/src/cards"))
      as [ fragments | ] eqn:Hpure; [ | vm_compute in Hpure; discriminate Hpure ].
    exists fragments. split.
    + now apply (fragments_as_partial_function Demo.full "/proj/src/cards").
    + vm_compute in Hpure. injection Hpure as <-. reflexivity.
  - apply (fragments_as_partial_function Cases.with_wandering "/proj/src/cards").
    exists "/proj/src/cards/wandering",
      (VObject [("htmlPath", VString "assets"); ("cssPath", VString "../shared.css");
                ("jsPath", VString "/lib/main.js");
                ("configurationPath", VNumber (inject_Z 7))]).
    split; [ vm_compute; now left | ]. split; [ reflexivity | now right; right ].
  - apply (fragments_as_partial_function Cases.with_exotic_name "/proj/src/cards").
    exists "/proj/src/cards/exotic",
      (VObject [("name", VObject [("toString", VNumber (inject_Z 0))])]).
    split; [ vm_compute; tauto | ]. split; [ reflexivity | ].
    right; left. exists "htmlPath". split; [ now left | now split ].
Defined.

(** X4: [_getCollectionFragmentCompositions] returns exactly when, for
    every kept directory, the marker is not [null] and the loader of the
    definition returns (it reads the file, or the owner and the path
    convert to strings), and then it returns, in order, one composition
    for each kept directory: the marker as metadata, the basename as slug,
    and as [definitionData] the raw text of the file behind
    [fragmentCompositionDefinitionPath], not parsed, or the empty string
    where no file can be read. *)
Theorem compositions_as_partial_function :
  forall (W : Runtime) (collection : string),
    (forall compositions,
        result (_getCollectionFragmentCompositions W collection)
          = Returned compositions
        <-> traverse (pure_composition W) (composition_directories W collection)
            = Some compositions)
    /\ ((exists e,
            result (_getCollectionFragmentCompositions W collection) = Thrown e)
        <-> exists directory metadata,
              In directory (composition_directories W collection)
              /\ parsed W (path_resolve (cwd W)
                             [directory; "fragment-composition.json"])
                 = Some metadata
              /\ (nullish metadata = true
                  \/ (content W directory
                        (property metadata "fragmentCompositionDefinitionPath")
                      = None
                      /\ convertible
                           (or_else (property metadata "name") (VString directory))
                         && convertible
                              (property metadata
                                 "fragmentCompositionDefinitionPath")
                         = false)))
    /\ (forall compositions,
           result (_getCollectionFragmentCompositions W collection)
             = Returned compositions ->
           Forall2
             (fun directory c =>
                parsed W (path_resolve (cwd W)
                            [directory; "fragment-composition.json"])
                  = Some (FragmentComposition.metadata c)
                /\ FragmentComposition.slug c = path_basename directory
                /\ FragmentComposition.definitionData c
                   = match content W directory
                             (property (FragmentComposition.metadata c)
                                "fragmentCompositionDefinitionPath") with
                     | Some text => text
                     | None => EmptyString
                     end)
             (composition_directories W collection) compositions).
Proof.
  intros W collection.
  split; [ intros cs; apply getCollectionFragmentCompositions_traverse | split ].
  - rewrite (thrown_iff_none _ _ (getCollectionFragmentCompositions_traverse W collection)).
    rewrite traverse_none. split.
    + intros (d & Hin & Hnone).
      pose proof Hin as Hkept. apply filter_In in Hkept as [_ Hkept].
      apply marker_ok_parsed in Hkept as [metadata Hp].
      exists d, metadata. split; [ assumption | ]. split; [ assumption | ].
      unfold pure_composition in Hnone. rewrite Hp in Hnone.
      destruct (nullish metadata); [ now left | right ].
      unfold composition_loader_returns, loader_returns, reportable, log_owner
        in Hnone.
      destruct (content W d _); [ discriminate | ].
      split; [ reflexivity | ].
      now destruct (convertible _ && convertible _).
    + intros (d & metadata & Hin & Hp & Hbad). exists d. split; [ assumption | ].
      unfold pure_composition. rewrite Hp.
      destruct (nullish metadata); [ reflexivity | ].
      destruct Hbad as [Hnull | [Hc Hconv]]; [ discriminate | ].
      unfold composition_loader_returns, loader_returns, reportable, log_owner.
      now rewrite Hc, Hconv.
  - intros cs Hcs. apply getCollectionFragmentCompositions_traverse in Hcs.
    apply traverse_Forall2 in Hcs.
    eapply Forall2_impl; [ | exact Hcs ].
    intros d c Hc. simpl in Hc. unfold pure_composition in Hc.
    destruct (parsed W (path_resolve (cwd W) [d; "fragment-composition.json"]))
      as [ metadata | ]; [ | discriminate ].
    destruct (nullish metadata); [ discriminate | ].
    destruct (composition_loader_returns W d metadata); [ | discriminate ].
    injection Hc as <-. now repeat split.
Qed.

(** The definition of the composition [raw] is not JSON, and is returned as
    it is. *)
Lemma compositions_as_partial_function_witness :
  (exists compositions,
      result (_getCollectionFragmentCompositions Cases.with_raw_composition
                "/proj/src/cards") = Returned compositions
      /\ map FragmentComposition.definitionData compositions = ["<not json>"])
  /\ (exists e,
         result (_getCollectionFragmentCompositions Cases.with_exotic_composition
                   "/proj/src/cards") = Thrown e).
Proof.
  split.
  - destruct (traverse (pure_composition Cases.with_raw_composition)
                (composition_directories Cases.with_raw_composition
                   "/proj/src/cards"))
      as [ compositions | ] eqn:Hpure;
      [ | vm_compute in Hpure; discriminate Hpure ].
    exists compositions. split.
    + now apply (compositions_as_partial_function Cases.with_raw_composition
                   "/proj/src/cards").
    + vm_compute in Hpure. injection Hpure as <-. reflexivity.
  - apply (compositions_as_partial_function Cases.with_exotic_composition
             "/proj/src/cards").
    exists "/proj/src/cards/odd",
      (VObject [("name", VObject [("toString", VNumber (inject_Z 0))]);
                ("fragmentCompositionDefinitionPath", VString "gone.json")]).
    split; [ vm_compute; tauto | ]. split; [ reflexivity | ].
    right. now split.
Defined.

(** X5: [_getProjectCollections] returns exactly when the two scans inside
    every kept collection directory return, and then it returns one
    collection for each, in order. The metadata of a collection is never
    looked into: the marker may hold any JSON value, [null] too. *)
Theorem collections_as_partial_function :
  forall (W : Runtime) (basePath : string),
    (forall collections,
        result (_getProjectCollections W basePath) = Returned collections
        <-> traverse (pure_collection W) (collection_directories W basePath)
            = Some collections)
    /\ ((exists e, result (_getProjectCollections W basePath) = Thrown e)
        <-> exists directory,
              In directory (collection_directories W basePath)
              /\ ((exists e,
                      result (_getCollectionFragmentCompositions W directory)
                        = Thrown e)
                  \/ (exists e,
                         result (_getCollectionFragments W directory) = Thrown e)))
    /\ (forall directory metadata compositions fragments,
           parsed W (path_resolve (cwd W) [directory; "collection.json"])
             = Some metadata ->
           result (_getCollectionFragmentCompositions W directory)
             = Returned compositions ->
           result (_getCollectionFragments W directory) = Returned fragments ->
           result (collection_of_directory W directory) =
           Returned {| Collection.slug := path_basename directory;
                       Collection.fragmentCollectionId := path_basename directory;
                       Collection.metadata := metadata;
                       Collection.fragmentCompositions := compositions;
                       Collection.fragments := fragments |}).
Proof.
  intros W basePath.
  split; [ intros cs; apply getProjectCollections_traverse | split ].
  - rewrite (thrown_iff_none _ _ (getProjectCollections_traverse W basePath)).
    rewrite traverse_none. split.
    + intros (d & Hin & Hnone). exists d. split; [ assumption | ].
      pose proof Hin as Hkept. apply filter_In in Hkept as [_ Hkept].
      apply marker_ok_parsed in Hkept as [metadata Hp].
      unfold pure_collection in Hnone. rewrite Hp in Hnone.
      destruct (traverse (pure_composition W) (composition_directories W d))
        as [ cs | ] eqn:Hcs.
      * right.
        apply (thrown_iff_none _ _ (getCollectionFragments_traverse W d)).
        now destruct (traverse (pure_fragment W) (fragment_directories W d)).
      * left.
        now apply (thrown_iff_none _ _ (getCollectionFragmentCompositions_traverse W d)).
    + intros (d & Hin & Hthrown). exists d. split; [ assumption | ].
      unfold pure_collection.
      destruct (parsed W (path_resolve (cwd W) [d; "collection.json"]));
        [ | reflexivity ].
      destruct Hthrown as [Hcs | Hfs].
      * apply (thrown_iff_none _ _ (getCollectionFragmentCompositions_traverse W d))
          in Hcs.
        now rewrite Hcs.
      * apply (thrown_iff_none _ _ (getCollectionFragments_traverse W d)) in Hfs.
        rewrite Hfs.
        now destruct (traverse (pure_composition W) (composition_directories W d)).
  - intros directory metadata compositions fragments Hp Hcs Hfs.
    now rewrite (collection_of_directory_result W _ _ Hp), Hcs, Hfs.
Qed.

(** The marker of the collection [cards] is [null]; the collection is
    returned with it. *)
Lemma collections_as_partial_function_witness :
  exists collections,
    result (_getProjectCollections Cases.with_raw_composition "/proj")
      = Returned collections
    /\ map Collection.metadata collections = [VNull]
    /\ map Collection.slug collections = ["cards"].
Proof.
  destruct (traverse (pure_collection Cases.with_raw_composition)
              (collection_directories Cases.with_raw_composition "/proj"))
    as [ collections | ] eqn:Hpure; [ | vm_compute in Hpure; discriminate Hpure ].
  exists collections. split.
  - now apply (collections_as_partial_function Cases.with_raw_composition "/proj").
  - vm_compute in Hpure. injection Hpure as <-. split; reflexivity.
Defined.

(** X6: [getProjectContent] returns exactly when [pure_project] is defined,
    and then it returns that project; so whether a run succeeds, and with
    what, can be computed from the file system alone. It throws exactly
    when [package.json] does not parse, or the scan of collections throws,
    or the scan of page templates throws, the latter exactly when a kept
    page template has a [null] marker or no definition that parses. *)
Theorem project_as_partial_function :
  forall (W : Runtime) (basePath : string),
    (forall p,
        result (getProjectContent W basePath) = Returned p
        <-> pure_project W basePath = Some p)
    /\ ((exists e, result (getProjectContent W basePath) = Thrown e)
        <-> parsed W (path_resolve (cwd W) [basePath; "package.json"]) = None
            \/ (exists e, result (_getProjectCollections W basePath) = Thrown e)
            \/ (exists e, result (_getPageTemplates W basePath) = Thrown e))
    /\ (forall templates,
           result (_getPageTemplates W basePath) = Returned templates
           <-> traverse (pure_pageTemplate W) (pageTemplate_directories W basePath)
               = Some templates)
    /\ ((exists e, result (_getPageTemplates W basePath) = Thrown e)
        <-> exists directory metadata,
              In directory (pageTemplate_directories W basePath)
              /\ parsed W (path_resolve (cwd W) [directory; "page-template.json"])
                 = Some metadata
              /\ (nullish metadata = true
                  \/ parsed W (path_resolve (cwd W)
                                 [directory; "page-definition.json"]) = None)).
Proof.
  intros W basePath.
  split; [ intros p; apply getProjectContent_traverse | ].
  split; [ | split; [ intros ts; apply getPageTemplates_traverse | ] ].
  - rewrite (thrown_iff_none _ _ (getProjectContent_traverse W basePath)).
    rewrite (thrown_iff_none _ _ (getProjectCollections_traverse W basePath)).
    rewrite (thrown_iff_none _ _ (getPageTemplates_traverse W basePath)).
    unfold pure_project.
    destruct (parsed W (path_resolve (cwd W) [basePath; "package.json"]));
      [ | split; [ now left | reflexivity ] ].
    destruct (traverse (pure_collection W) (collection_directories W basePath));
      [ | split; [ right; now left | reflexivity ] ].
    destruct (traverse (pure_pageTemplate W) (pageTemplate_directories W basePath));
      [ | split; [ right; now right | reflexivity ] ].
    split; [ discriminate | intros [H | [H | H]]; discriminate ].
  - rewrite (thrown_iff_none _ _ (getPageTemplates_traverse W basePath)).
    rewrite traverse_none. split.
    + intros (d & Hin & Hnone).
      pose proof Hin as Hkept. apply filter_In in Hkept as [_ Hkept].
      apply marker_ok_parsed in Hkept as [metadata Hp].
      exists d, metadata. split; [ assumption | ]. split; [ assumption | ].
      unfold pure_pageTemplate in Hnone. rewrite Hp in Hnone.
      destruct (nullish metadata); [ now left | right ].
      now destruct (parsed W (path_resolve (cwd W) [d; "page-definition.json"])).
    + intros (d & metadata & Hin & Hp & Hbad). exists d. split; [ assumption | ].
      unfold pure_pageTemplate. rewrite Hp.
      destruct Hbad as [-> | ->]; [ reflexivity | ].
      now destruct (nullish metadata).
Qed.

(** The demonstration project is returned as [pure_project] computes it;
    the project with the page template [orphan] is not. *)
Lemma project_as_partial_function_witness :
  (exists p,
      result (getProjectContent Demo.full "/proj") = Returned p
      /\ pure_project Demo.full "/proj" = Some p)
  /\ (exists e, result (getProjectContent Demo.with_orphan "/proj") = Thrown e).
Proof.
  split.
  - destruct (pure_project Demo.full "/proj") as [ p | ] eqn:Hpure;
      [ | vm_compute in Hpure; discriminate Hpure ].
    exists p. split; [ | reflexivity ].
    now apply (project_as_partial_function Demo.full "/proj").
  - apply (project_as_partial_function Demo.with_orphan "/proj").
    right. right.
    apply (project_as_partial_function Demo.with_orphan "/proj").
    exists "/proj/src/orphan", (VObject [("name", VString "Orphan")]).
    split; [ vm_compute; tauto | ]. split; [ reflexivity | now right ].
Defined.

(** ** A marker that is [null] *)

Lemma collection_of_directory_thrown_by_compositions (W : Runtime)
  (collection : string) :
  (exists e, result (_getCollectionFragmentCompositions W collection) = Thrown e) ->
  exists e, result (collection_of_directory W collection) = Thrown e.
Proof.
  intros [e He]. unfold collection_of_directory.
  rewrite result_bind.
  destruct (result (_readJSONSync W _)) as [ metadata | e' ]; [ | now exists e' ].
  rewrite result_bind, He. now exists e.
Qed.

Lemma getCollectionFragmentCompositions_thrown (W : Runtime)
  (collection directory : string) :
  In directory (composition_directories W collection) ->
  (exists e, result (composition_of_directory W directory) = Thrown e) ->
  exists e, result (_getCollectionFragmentCompositions W collection) = Thrown e.
Proof.
  intros Hin Hthrown. rewrite getCollectionFragmentCompositions_result.
  now apply array_map_thrown with (x := directory).
Qed.

(** X7: a marker whose content is the JSON value [null] parses, so the
    filter of the scan keeps its directory and logs nothing; the callback
    of [.map] then throws a TypeError on the first property it reads
    ([htmlPath], [fragmentCompositionDefinitionPath], [name]), outside any
    [try], and the whole run aborts. This holds for fragments, fragment
    compositions and page templates; a collection is not affected, its
    metadata being never read. *)
Theorem null_marker_is_kept_then_aborts :
  forall (W : Runtime) (basePath directory : string),
    (parsed W (path_resolve (cwd W) [directory; "fragment.json"]) = Some VNull ->
     valid_marker W "fragment.json" "fragment" directory
       = ([ReadFile (path_resolve (cwd W) [directory; "fragment.json"])],
          Returned true)
     /\ result (fragment_of_directory W directory) = Thrown (TypeError "htmlPath")
     /\ (forall collection,
            In collection (collection_directories W basePath) ->
            In directory (fragment_directories W collection) ->
            exists e, result (getProjectContent W basePath) = Thrown e))
    /\ (parsed W (path_resolve (cwd W) [directory; "fragment-composition.json"])
          = Some VNull ->
        valid_marker W "fragment-composition.json" "fragment composition" directory
          = ([ReadFile (path_resolve (cwd W)
                          [directory; "fragment-composition.json"])],
             Returned true)
        /\ result (composition_of_directory W directory)
           = Thrown (TypeError "fragmentCompositionDefinitionPath")
        /\ (forall collection,
               In collection (collection_directories W basePath) ->
               In directory (composition_directories W collection) ->
               exists e, result (getProjectContent W basePath) = Thrown e))
    /\ (parsed W (path_resolve (cwd W) [directory; "page-template.json"])
          = Some VNull ->
        valid_marker W "page-template.json" "page template" directory
          = ([ReadFile (path_resolve (cwd W) [directory; "page-template.json"])],
             Returned true)
        /\ result (pageTemplate_of_directory W directory) = Thrown (TypeError "name")
        /\ (In directory (pageTemplate_directories W basePath) ->
            exists e, result (getProjectContent W basePath) = Thrown e))
    /\ (parsed W (path_resolve (cwd W) [directory; "collection.json"]) = Some VNull ->
        forall compositions fragments,
          result (_getCollectionFragmentCompositions W directory)
            = Returned compositions ->
          result (_getCollectionFragments W directory) = Returned fragments ->
          result (collection_of_directory W directory) =
          Returned {| Collection.slug := path_basename directory;
                      Collection.fragmentCollectionId := path_basename directory;
                      Collection.metadata := VNull;
                      Collection.fragmentCompositions := compositions;
                      Collection.fragments := fragments |}).
Proof.
  intros W basePath directory.
  assert (Hkept : forall marker what,
             parsed W (path_resolve (cwd W) [directory; marker]) = Some VNull ->
             valid_marker W marker what directory
             = ([ReadFile (path_resolve (cwd W) [directory; marker])], Returned true)).
  { intros marker what Hp. rewrite valid_marker_run.
    unfold marker_ok. now rewrite Hp. }
  split; [ | split; [ | split ] ].
  - intros Hp.
    assert (Hthrown : result (fragment_of_directory W directory)
                      = Thrown (TypeError "htmlPath")).
    { now apply (fragment_of_directory_null W directory VNull). }
    split; [ now apply Hkept | ]. split; [ assumption | ].
    intros collection Hcollection Hin.
    apply getProjectContent_thrown_by_collections.
    apply getProjectCollections_thrown with (collection := collection);
      [ assumption | ].
    apply collection_of_directory_thrown.
    apply getCollectionFragments_thrown with (fragment := directory);
      [ assumption | ].
    eexists. exact Hthrown.
  - intros Hp.
    assert (Hthrown : result (composition_of_directory W directory)
                      = Thrown (TypeError "fragmentCompositionDefinitionPath")).
    { unfold composition_of_directory.
      now rewrite (readJSONSync_parsed _ _ _ Hp), result_bind_returned. }
    split; [ now apply Hkept | ]. split; [ assumption | ].
    intros collection Hcollection Hin.
    apply getProjectContent_thrown_by_collections.
    apply getProjectCollections_thrown with (collection := collection);
      [ assumption | ].
    apply collection_of_directory_thrown_by_compositions.
    apply getCollectionFragmentCompositions_thrown with (directory := directory);
      [ assumption | ].
    eexists. exact Hthrown.
  - intros Hp.
    assert (Hthrown : result (pageTemplate_of_directory W directory)
                      = Thrown (TypeError "name")).
    { unfold pageTemplate_of_directory.
      now rewrite (readJSONSync_parsed _ _ _ Hp), result_bind_returned. }
    split; [ now apply Hkept | ]. split; [ assumption | ].
    intros Hin.
    apply getProjectContent_thrown_by_pageTemplates.
    apply getPageTemplates_thrown with (directory := directory); [ assumption | ].
    eexists. exact Hthrown.
  - intros Hp compositions fragments Hcs Hfs.
    now rewrite (collection_of_directory_result W _ _ Hp), Hcs, Hfs.
Qed.

(** The fragment [nothing] has [null] as marker, in a collection that has
    [null] as marker too. *)
Lemma null_marker_is_kept_then_aborts_witness :
  result (fragment_of_directory Cases.with_null_fragment "/proj/src/cards/nothing")
    = Thrown (TypeError "htmlPath")
  /\ exists e, result (getProjectContent Cases.with_null_fragment "/proj") = Thrown e.
Proof.
  destruct (null_marker_is_kept_then_aborts Cases.with_null_fragment "/proj"
              "/proj/src/cards/nothing") as (Hfragment & _).
  destruct (Hfragment eq_refl) as (_ & Hthrown & Hrun).
  split; [ assumption | ].
  apply (Hrun "/proj/src/cards"); vm_compute; tauto.
Defined.

(** ** What is logged *)

Lemma logs_bind {A B} (m : M A) (f : A -> M B) :
  filter is_log (events (bind m f)) =
  (filter is_log (events m) ++
   match result m with
   | Returned a => filter is_log (events (f a))
   | Thrown _ => []
   end)%list.
Proof.
  rewrite events_bind, filter_app. now destruct (result m).
Qed.


Lemma quiet_bind {A B} (m : M A) (f : A -> M B) :
  filter is_log (events m) = [] ->
  (forall a, result m = Returned a -> filter is_log (events (f a)) = []) ->
  filter is_log (events (bind m f)) = [].
Proof.
  intros Hm Hf. rewrite logs_bind, Hm.
  destruct (result m) as [ a | e ]; [ now apply Hf | reflexivity ].
Qed.

Lemma quiet_array_map {A B} (f : A -> M B) (xs : list A) :
  (forall x, In x xs -> filter is_log (events (f x)) = []) ->
  filter is_log (events (array_map f xs)) = [].
Proof.
  induction xs as [ | x xs IH ]; intros H; [ reflexivity | ].
  simpl. apply quiet_bind; [ apply H; now left | ].
  intros y _. apply quiet_bind; [ apply IH; intros x' Hx'; apply H; now right | ].
  reflexivity.
Qed.



Section Logs.

Variable W : Runtime.

Lemma logs_readJSONSync (p : string) :
  filter is_log (events (_readJSONSync W p)) = [].
Proof.
  destruct (parsed W p) as [ v | ] eqn:Hp.
  - now rewrite (readJSONSync_parsed _ _ _ Hp).
  - now destruct (readJSONSync_thrown _ _ Hp) as [e ->].
Qed.

Lemma get_prop_returned (v a : value) (key : string) :
  result (get_prop v key) = Returned a -> nullish v = false /\ a = property v key.
Proof. destruct v; simpl; intros H; try discriminate; now injection H as <-. Qed.


Lemma loader_logs_nil (label directory : string) (metadata filePath : value) :
  loader_logs W label directory metadata filePath = []
  <-> content W directory filePath <> None.
Proof.
  unfold loader_logs.
  destruct (content W directory filePath); split; try discriminate; congruence.
Qed.



Lemma complete_loader_returns (directory : string) (metadata filePath : value) :
  content W directory filePath <> None ->
  loader_returns W directory metadata filePath = true.
Proof.
  unfold loader_returns. now destruct (content W directory filePath).
Qed.


End Logs.

Section Quiet.

Variable W : Runtime.












Lemma pageTemplate_of_directory_quiet (directory : string) :
  filter is_log (events (pageTemplate_of_directory W directory)) = [].
Proof.
  unfold pageTemplate_of_directory.
  apply quiet_bind; [ apply logs_readJSONSync | intros metadata _ ].
  apply quiet_bind; [ now destruct metadata | intros name _ ].
  apply quiet_bind; [ apply logs_readJSONSync | reflexivity ].
Qed.

End Quiet.

Lemma pageTemplates_logs (W : Runtime) (basePath : string) :
  filter is_log (events (_getPageTemplates W basePath)) =
  filter is_log
    (events (scan W (path_join [basePath; "src"; "*"; "page-template.json"])
               "page-template.json" "page template")).
Proof.
  rewrite getPageTemplates_scan, logs_bind.
  destruct (result (scan W _ _ _)) as [ directories | e ];
    [ | now rewrite app_nil_r ].
  rewrite quiet_array_map; [ now rewrite app_nil_r | ].
  intros d _. apply pageTemplate_of_directory_quiet.
Qed.



(** ** Content paths are resolved, not confined *)

Lemma string_app_assoc (a b c : string) : (a ++ b) ++ c = a ++ b ++ c.
Proof. induction a as [ | x a IH ]; simpl; [ reflexivity | now rewrite IH ]. Qed.

Lemma resolve_segments_second_absolute (c directory p : string) :
  isAbsolute p = true ->
  resolve_segments c [directory; p] = resolve_segments c [p].
Proof.
  intros Hp. unfold resolve_segments. simpl. unfold resolve_step at 1 3.
  rewrite Hp. now destruct p.
Qed.

Lemma resolve_segments_sibling (c : string) (segs : list string) (n m : string) :
  Forall (fun seg => simple_name seg = true) segs ->
  simple_name n = true -> simple_name m = true ->
  resolve_segments c [absolute (segs ++ [n]); "../" ++ m] = (segs ++ [m])%list.
Proof.
  intros Hsegs Hn Hm.
  assert (Hsame : resolve_segments c [absolute (segs ++ [n]); "../" ++ m] =
                  resolve_segments c ([absolute (segs ++ [n]); ".."] ++ [m])).
  { unfold resolve_segments. simpl fold_left.
    rewrite (resolve_step_simple _ m Hm).
    unfold resolve_step at 1 3. simpl.
    now rewrite !string_app_assoc. }
  rewrite Hsame, resolve_segments_child by assumption.
  change [absolute (segs ++ [n]); ".."]
    with ([absolute (segs ++ [n])] ++ [".."])%list.
  rewrite (resolve_segments_up c [absolute (segs ++ [n])]).
  rewrite resolve_segments_canonical, removelast_last; [ reflexivity | ].
  apply Forall_app. split; [ assumption | now constructor ].
Qed.

Section Reach.

Variable W : Runtime.

Lemma loaders_read (directory p data : string) (metadata : value) :
  p <> EmptyString ->
  lookup W (path_resolve (cwd W) [directory; p]) = Some (File data) ->
  fragment_readFile W directory metadata (VString p)
    = ([ReadFile (path_resolve (cwd W) [directory; p])], Returned data)
  /\ composition_readFile W directory metadata (VString p)
     = ([ReadFile (path_resolve (cwd W) [directory; p])], Returned data)
  /\ _getFramentConfiguration W directory (VString p)
     = ([Exists (path_resolve (cwd W) [directory; p]);
         ReadFile (path_resolve (cwd W) [directory; p])], Returned data).
Proof.
  intros Hne Hfile.
  pose proof (attempt_run W directory (VString p)) as Hrun.
  unfold content in Hrun. rewrite Hfile in Hrun.
  unfold fragment_readFile, composition_readFile. rewrite Hrun.
  repeat split. now apply configuration_file.
Qed.

End Reach.

(** X9: the paths a [fragment.json] or a [fragment-composition.json] gives
    are resolved against the directory of the entity and not confined to
    it. An absolute path is read as it stands, whatever the directory is;
    a path that starts with [../] is read from the parent directory. In
    both cases the text of the file is returned and nothing is logged. *)
Theorem content_paths_are_not_confined (W : Runtime) (metadata : value)
  (data : string) :
  (forall directory p : string,
     isAbsolute p = true ->
     lookup W p = Some (File data) ->
     fragment_readFile W directory metadata (VString p)
       = ([ReadFile (path_resolve (cwd W) [p])], Returned data)
     /\ composition_readFile W directory metadata (VString p)
        = ([ReadFile (path_resolve (cwd W) [p])], Returned data)
     /\ _getFramentConfiguration W directory (VString p)
        = ([Exists (path_resolve (cwd W) [p]);
            ReadFile (path_resolve (cwd W) [p])], Returned data))
  /\ (forall (segs : list string) (n m : string),
        Forall (fun seg => simple_name seg = true) segs ->
        simple_name n = true -> simple_name m = true ->
        walk (root W) (segs ++ [m]) = Some (File data) ->
        fragment_readFile W (absolute (segs ++ [n])) metadata (VString ("../" ++ m))
          = ([ReadFile (absolute (segs ++ [m]))], Returned data)
        /\ composition_readFile W (absolute (segs ++ [n])) metadata
             (VString ("../" ++ m))
           = ([ReadFile (absolute (segs ++ [m]))], Returned data)
        /\ _getFramentConfiguration W (absolute (segs ++ [n]))
             (VString ("../" ++ m))
           = ([Exists (absolute (segs ++ [m]));
               ReadFile (absolute (segs ++ [m]))], Returned data)).
Proof.
  split.
  - intros directory p Hp Hfile.
    assert (Hpath : path_resolve (cwd W) [directory; p] = path_resolve (cwd W) [p]).
    { unfold path_resolve. now rewrite resolve_segments_second_absolute. }
    rewrite <- Hpath. apply loaders_read.
    + intros ->. discriminate Hp.
    + rewrite lookup_resolved, resolve_segments_second_absolute by assumption.
      exact Hfile.
  - intros segs n m Hsegs Hn Hm Hfile.
    assert (Hpath : path_resolve (cwd W) [absolute (segs ++ [n]); "../" ++ m]
                    = absolute (segs ++ [m])).
    { unfold path_resolve. now rewrite resolve_segments_sibling. }
    rewrite <- Hpath.
    apply (loaders_read W (absolute (segs ++ [n])) ("../" ++ m));
      [ discriminate | ].
    rewrite lookup_resolved.
    now rewrite (resolve_segments_sibling (cwd W) segs n m).
Qed.

Lemma content_paths_are_not_confined_witness :
  (isAbsolute "/lib/main.js" = true
   /\ fragment_readFile Cases.with_wandering "/proj/src/cards/wandering"
        (VObject [("jsPath", VString "/lib/main.js")]) (VString "/lib/main.js")
      = ([ReadFile "/lib/main.js"], Returned "lib();"))
  /\ fragment_readFile Cases.with_wandering "/proj/src/cards/wandering"
       (VObject [("cssPath", VString "../shared.css")]) (VString "../shared.css")
     = ([ReadFile "/proj/src/cards/shared.css"], Returned ".shared { }").
Proof.
  split.
  - split; [ reflexivity | ].
    apply (proj1 (content_paths_are_not_confined Cases.with_wandering
                    (VObject [("jsPath", VString "/lib/main.js")]) "lib();")
             "/proj/src/cards/wandering" "/lib/main.js");
      reflexivity.
  - apply (proj2 (content_paths_are_not_confined Cases.with_wandering
                    (VObject [("cssPath", VString "../shared.css")])
                    ".shared { }")
             ["proj"; "src"; "cards"] "wandering" "shared.css");
      try reflexivity.
    repeat constructor.
Defined.

(** ** What a scan logs, on the tree *)

Section RejectedOnTheTree.

Variable W : Runtime.
Variable segs : list string.
Hypothesis segs_simple : Forall (fun seg => simple_name seg = true) segs.
Hypothesis segs_plain : Forall (fun seg => glob_plain seg = true) segs.

Lemma rejected_below (marker : string) :
  simple_name marker = true -> glob_plain marker = true ->
  filter (fun d => negb (marker_ok W marker d))
         (candidates W (absolute (segs ++ ["*"; marker]))) =
  map (fun n => absolute (segs ++ [n]))
      (filter (bad_marker W segs marker) (entry_names W segs)).
Proof.
  intros Hmarker Hnot_star.
  rewrite candidates_below, filter_map_commute by assumption.
  f_equal. apply filter_filter_on.
  intros n Hn.
  pose proof (entry_names_simple W segs) as Hnames.
  rewrite Forall_forall in Hnames.
  rewrite marker_ok_absolute by (assumption || now apply Hnames).
  unfold bad_marker.
  now destruct (walk (root W) (segs ++ [n; marker])).
Qed.

Lemma scan_logs_below (marker what : string) :
  simple_name marker = true -> glob_plain marker = true ->
  filter is_log (events (scan W (absolute (segs ++ ["*"; marker])) marker what)) =
  map (fun n => invalid_log marker what (absolute (segs ++ [n])))
      (filter (bad_marker W segs marker) (entry_names W segs)).
Proof.
  intros Hmarker Hnot_star.
  rewrite scan_logs, rejected_below, map_map by assumption. reflexivity.
Qed.

End RejectedOnTheTree.

(** X10: what the scans log, on the tree. Below a normalized absolute
    directory whose segments hold no special character of [glob], a scan
    logs one entry for each visible child that holds an entry named as the
    marker which is not a file that parses (a directory of that name
    included), in the order of the listing, and none for a child without
    the marker. These are all the
    entries [_getPageTemplates] logs, whether it returns or throws, and
    the first entries [_getProjectCollections], [_getCollectionFragments]
    and [_getCollectionFragmentCompositions] log. *)
Theorem scans_log_the_bad_markers (W : Runtime) (segs : list string) :
  Forall (fun seg => simple_name seg = true) segs ->
  Forall (fun seg => glob_plain seg = true) segs ->
  let rejected parent marker what :=
    map (fun n => invalid_log marker what (absolute (parent ++ [n])))
        (filter (bad_marker W parent marker) (entry_names W parent)) in
  filter is_log (events (_getPageTemplates W (absolute segs)))
    = rejected (segs ++ ["src"])%list "page-template.json" "page template"
  /\ (exists rest,
         filter is_log (events (_getProjectCollections W (absolute segs)))
         = (rejected (segs ++ ["src"])%list "collection.json" "collection"
              ++ rest)%list)
  /\ (exists rest,
         filter is_log (events (_getCollectionFragments W (absolute segs)))
         = (rejected segs "fragment.json" "fragment" ++ rest)%list)
  /\ (exists rest,
         filter is_log
           (events (_getCollectionFragmentCompositions W (absolute segs)))
         = (rejected segs "fragment-composition.json" "fragment composition"
              ++ rest)%list).
Proof.
  intros Hsegs Hstar rejected.
  assert (Hsrc : Forall (fun seg => simple_name seg = true) (segs ++ ["src"])).
  { apply Forall_app. split; [ assumption | now repeat constructor ]. }
  assert (Hsrc_star : Forall (fun seg => glob_plain seg = true) (segs ++ ["src"])).
  { apply Forall_app. split; [ assumption | now repeat constructor ]. }
  assert (Hbelow : forall marker,
             simple_name marker = true ->
             path_join [absolute segs; "src"; "*"; marker]
             = absolute ((segs ++ ["src"]) ++ ["*"; marker])).
  { intros marker Hmarker.
    rewrite path_join_below
      by (assumption || now repeat constructor || discriminate).
    now rewrite <- app_assoc. }
  assert (Hchildren : forall marker,
             simple_name marker = true ->
             path_join [absolute segs; "*"; marker]
             = absolute (segs ++ ["*"; marker])).
  { intros marker Hmarker.
    now rewrite path_join_below
      by (assumption || now repeat constructor || discriminate). }
  split; [ | split; [ | split ] ].
  - rewrite pageTemplates_logs, Hbelow by reflexivity.
    now apply scan_logs_below.
  - rewrite getProjectCollections_scan, logs_bind, Hbelow by reflexivity.
    rewrite scan_logs_below by (assumption || reflexivity || discriminate).
    now eexists.
  - rewrite getCollectionFragments_scan, logs_bind, Hchildren by reflexivity.
    rewrite scan_logs_below by (assumption || reflexivity || discriminate).
    now eexists.
  - rewrite getCollectionFragmentCompositions_scan, logs_bind, Hchildren
      by reflexivity.
    rewrite scan_logs_below by (assumption || reflexivity || discriminate).
    now eexists.
Qed.

Lemma scans_log_the_bad_markers_witness :
  entry_names Cases.mixed ["proj"; "src"] = ["both"; "broken"; "odd"; "plain"]
  /\ filter (bad_marker Cases.mixed ["proj"; "src"] "collection.json")
       (entry_names Cases.mixed ["proj"; "src"]) = ["broken"; "odd"]
  /\ filter is_log (events (_getProjectCollections Cases.mixed "/proj"))
     = [invalid_log "collection.json" "collection" "/proj/src/broken";
        invalid_log "collection.json" "collection" "/proj/src/odd"]
  /\ filter is_log (events (_getPageTemplates Cases.mixed "/proj")) = [].
Proof.
  destruct (scans_log_the_bad_markers Cases.mixed ["proj"]) as (Ht & _).
  - repeat constructor.
  - repeat constructor.
  - repeat split; try exact Ht; reflexivity.
Defined.

(** ** The first failure ends the run *)

Lemma run_eq {A} (m : M A) (evs : list event) (r : outcome A) :
  events m = evs -> result m = r -> m = (evs, r).
Proof. destruct m. simpl. now intros -> ->. Qed.

Lemma array_map_first_failure {A B} (f : A -> M B) (pre post : list A) (x : A)
  (e : exn) :
  Forall (fun x' => exists y, result (f x') = Returned y) pre ->
  result (f x) = Thrown e ->
  array_map f (pre ++ x :: post) =
  ((flat_map (fun x' => events (f x')) pre ++ events (f x))%list, Thrown e).
Proof.
  intros Hpre Hx. induction Hpre as [ | x' pre [y Hy] _ IH ]; simpl.
  - apply run_eq.
    + now rewrite events_bind, Hx, app_nil_r.
    + now rewrite result_bind, Hx.
  - apply run_eq.
    + rewrite events_bind, Hy, events_bind, IH. simpl.
      now rewrite app_nil_r, app_assoc.
    + now rewrite result_bind, Hy, result_bind, IH.
Qed.

Lemma scan_then_map_first_failure {A} (W : Runtime) (pattern marker what : string)
  (f : string -> M A) (pre post : list string) (d : string) (e : exn) :
  filter (marker_ok W marker) (candidates W pattern) = (pre ++ d :: post)%list ->
  Forall (fun d' => exists y, result (f d') = Returned y) pre ->
  result (f d) = Thrown e ->
  (directories <- scan W pattern marker what ;; array_map f directories) =
  ((events (scan W pattern marker what)
      ++ flat_map (fun d' => events (f d')) pre ++ events (f d))%list,
   Thrown e).
Proof.
  intros Hkept Hpre Hd. apply run_eq.
  - rewrite events_bind, scan_result, Hkept.
    now rewrite (array_map_first_failure f pre post d e).
  - rewrite result_after_scan, Hkept.
    now rewrite (array_map_first_failure f pre post d e).
Qed.

(** X11: the run stops at the first directory whose callback throws, in
    the order of the listing, and throws the error of that callback. Let
    [package.json] parse. If the callback of a kept collection directory
    throws after those of the directories before it returned, the run
    consists of the read of [package.json], the scan of collections and
    these callbacks: the collections after it are not built and page
    templates are not scanned. If the collections are built and the
    callback of a kept page template directory throws, the run ends with
    that callback. *)
Theorem first_failure_ends_the_run (W : Runtime) (basePath : string)
  (project : value) :
  parsed W (path_resolve (cwd W) [basePath; "package.json"]) = Some project ->
  (forall (pre post : list string) (d : string) (e : exn),
      collection_directories W basePath = (pre ++ d :: post)%list ->
      Forall (fun d' => exists c, result (collection_of_directory W d') = Returned c)
             pre ->
      result (collection_of_directory W d) = Thrown e ->
      getProjectContent W basePath =
      ((ReadFile (path_resolve (cwd W) [basePath; "package.json"])
          :: events (scan W (path_join [basePath; "src"; "*"; "collection.json"])
                       "collection.json" "collection")
          ++ flat_map (fun d' => events (collection_of_directory W d')) pre
          ++ events (collection_of_directory W d))%list,
       Thrown e))
  /\ (forall (collections : list Collection.t) (pre post : list string)
             (d : string) (e : exn),
         result (_getProjectCollections W basePath) = Returned collections ->
         pageTemplate_directories W basePath = (pre ++ d :: post)%list ->
         Forall (fun d' => exists t,
                     result (pageTemplate_of_directory W d') = Returned t) pre ->
         result (pageTemplate_of_directory W d) = Thrown e ->
         getProjectContent W basePath =
         ((ReadFile (path_resolve (cwd W) [basePath; "package.json"])
             :: events (_getProjectCollections W basePath)
             ++ events (scan W (path_join [basePath; "src"; "*"; "page-template.json"])
                          "page-template.json" "page template")
             ++ flat_map (fun d' => events (pageTemplate_of_directory W d')) pre
             ++ events (pageTemplate_of_directory W d))%list,
          Thrown e)).
Proof.
  intros Hpackage. split.
  - intros pre post d e Hkept Hpre Hd.
    unfold getProjectContent.
    rewrite (readJSONSync_parsed _ _ _ Hpackage), getProjectCollections_scan.
    rewrite (scan_then_map_first_failure W _ _ _ _ pre post d e Hkept Hpre Hd).
    reflexivity.
  - intros collections pre post d e Hcollections Hkept Hpre Hd.
    unfold getProjectContent.
    rewrite (readJSONSync_parsed _ _ _ Hpackage).
    apply run_eq.
    + rewrite events_bind. simpl. f_equal.
      rewrite events_bind, Hcollections, getPageTemplates_scan.
      rewrite (scan_then_map_first_failure W _ _ _ _ pre post d e Hkept Hpre Hd).
      reflexivity.
    + rewrite result_bind_returned, result_bind, Hcollections.
      rewrite getPageTemplates_scan.
      rewrite (scan_then_map_first_failure W _ _ _ _ pre post d e Hkept Hpre Hd).
      reflexivity.
Qed.

Lemma first_failure_ends_the_run_witness :
  pageTemplate_directories Cases.with_second_orphan "/proj"
    = ["/proj/src/landing"; "/proj/src/orphan"; "/proj/src/teaser"]
  /\ getProjectContent Cases.with_second_orphan "/proj"
     = ([ReadFile "/proj/package.json";
         Glob "/proj/src/*/collection.json";
         ReadFile "/proj/src/teaser/collection.json";
         ReadFile "/proj/src/teaser/collection.json";
         Glob "/proj/src/teaser/*/fragment-composition.json";
         Glob "/proj/src/teaser/*/fragment.json";
         Glob "/proj/src/*/page-template.json";
         ReadFile "/proj/src/landing/page-template.json";
         ReadFile "/proj/src/orphan/page-template.json";
         ReadFile "/proj/src/teaser/page-template.json";
         ReadFile "/proj/src/landing/page-template.json";
         ReadFile "/proj/src/landing/page-definition.json";
         ReadFile "/proj/src/orphan/page-template.json";
         ReadFile "/proj/src/orphan/page-definition.json"],
        Thrown (FsError "ENOENT" "/proj/src/orphan/page-definition.json")).
Proof.
  split; [ reflexivity | ].
  destruct (first_failure_ends_the_run Cases.with_second_orphan "/proj"
              (VObject [("name", VString "demo"); ("version", VString "1.0.0")])
              eq_refl) as [_ Htemplates].
  rewrite (Htemplates
             [{| Collection.slug := "teaser";
                 Collection.fragmentCollectionId := "teaser";
                 Collection.metadata := VObject [];
                 Collection.fragmentCompositions := [];
                 Collection.fragments := [] |}]
             ["/proj/src/landing"] ["/proj/src/teaser"] "/proj/src/orphan"
             (FsError "ENOENT" "/proj/src/orphan/page-definition.json")).
  - reflexivity.
  - reflexivity.
  - reflexivity.
  - constructor; [ | constructor ]. eexists. reflexivity.
  - reflexivity.
Defined.

(** ** The working directory and an absolute base path *)

Lemma bind_ext {A B} (m : M A) (f g : A -> M B) :
  (forall a, result m = Returned a -> f a = g a) -> bind m f = bind m g.
Proof.
  destruct m as [evs [ a | e ]]; simpl; [ | reflexivity ].
  intros H. now rewrite (H a eq_refl).
Qed.

Lemma array_map_ext_in {A B} (f g : A -> M B) (xs : list A) :
  (forall x, In x xs -> f x = g x) -> array_map f xs = array_map g xs.
Proof.
  induction xs as [ | x xs IH ]; intros H; [ reflexivity | ].
  simpl. rewrite (H x) by now left.
  rewrite IH by (intros y Hy; apply H; now right). reflexivity.
Qed.

Lemma array_filter_ext_in {A} (f g : A -> M bool) (xs : list A) :
  (forall x, In x xs -> f x = g x) -> array_filter f xs = array_filter g xs.
Proof.
  induction xs as [ | x xs IH ]; intros H; [ reflexivity | ].
  simpl. rewrite (H x) by now left.
  rewrite IH by (intros y Hy; apply H; now right). reflexivity.
Qed.

Lemma path_resolve_rooted (c c' d : string) (rest : list string) :
  isAbsolute d = true -> path_resolve c (d :: rest) = path_resolve c' (d :: rest).
Proof.
  intros Hd. unfold path_resolve.
  now rewrite !(resolve_segments_absolute _ d) by assumption.
Qed.

Lemma path_normalize_rooted (p : string) :
  isAbsolute p = true -> isAbsolute (path_normalize p) = true.
Proof.
  intros Hp. unfold path_normalize. rewrite Hp.
  destruct p as [ | c p ]; [ discriminate | reflexivity ].
Qed.

Lemma path_join_rooted (d : string) (rest : list string) :
  isAbsolute d = true -> isAbsolute (path_join (d :: rest)) = true.
Proof.
  intros Hd. unfold path_join.
  destruct d as [ | c d ]; [ discriminate | ].
  cbn [filter String.eqb negb].
  apply path_normalize_rooted.
  destruct (filter _ rest); exact Hd.
Qed.

Lemma join_slash_rooted (r : list string) (n : string) :
  isAbsolute (join_slash ((EmptyString :: r) ++ [n])) = true.
Proof. destruct r; reflexivity. Qed.

Section WorkingDirectory.

Variables W W' : Runtime.
Hypothesis same_root : root W' = root W.
Hypothesis same_parse : JSON_parse W' = JSON_parse W.
Hypothesis same_stringify : JSON_stringify W' = JSON_stringify W.
Hypothesis same_level : LOG_LEVEL_error W' = LOG_LEVEL_error W.
Hypothesis same_glob : glob_magic W' = glob_magic W.

Lemma lookup_rooted (p : string) :
  isAbsolute p = true -> lookup W' p = lookup W p.
Proof.
  intros Hp. unfold lookup.
  now rewrite same_root, !(resolve_segments_absolute _ p) by assumption.
Qed.

Lemma readFileSync_rooted (p : string) :
  isAbsolute p = true -> readFileSync W' p = readFileSync W p.
Proof. intros Hp. unfold readFileSync. now rewrite lookup_rooted. Qed.

Lemma existsSync_rooted (p : string) :
  isAbsolute p = true -> existsSync W' p = existsSync W p.
Proof. intros Hp. unfold existsSync. now rewrite lookup_rooted. Qed.

Lemma readJSONSync_rooted (p : string) :
  isAbsolute p = true -> _readJSONSync W' p = _readJSONSync W p.
Proof.
  intros Hp. unfold _readJSONSync. now rewrite readFileSync_rooted, same_parse.
Qed.

Lemma readJSONSync_below_rooted (directory name : string) :
  isAbsolute directory = true ->
  _readJSONSync W' (path_resolve (cwd W') [directory; name]) =
  _readJSONSync W (path_resolve (cwd W) [directory; name]).
Proof.
  intros Hd. rewrite (path_resolve_rooted (cwd W') (cwd W)) by assumption.
  apply readJSONSync_rooted, path_resolve_absolute.
Qed.

Lemma attempt_rooted (directory : string) (filePath : value) :
  isAbsolute directory = true ->
  (p <- path_resolve_value W' directory filePath ;; readFileSync W' p) =
  (p <- path_resolve_value W directory filePath ;; readFileSync W p).
Proof.
  intros Hd.
  destruct filePath as [ | | b | n | q | items | props ]; try reflexivity.
  unfold path_resolve_value. rewrite !bind_ret_l.
  rewrite (path_resolve_rooted (cwd W') (cwd W)) by assumption.
  apply readFileSync_rooted, path_resolve_absolute.
Qed.

Lemma fragment_readFile_rooted (directory : string) (metadata filePath : value) :
  isAbsolute directory = true ->
  fragment_readFile W' directory metadata filePath =
  fragment_readFile W directory metadata filePath.
Proof.
  intros Hd. unfold fragment_readFile.
  now rewrite attempt_rooted, same_level.
Qed.

Lemma composition_readFile_rooted (directory : string) (metadata filePath : value) :
  isAbsolute directory = true ->
  composition_readFile W' directory metadata filePath =
  composition_readFile W directory metadata filePath.
Proof.
  intros Hd. unfold composition_readFile.
  now rewrite attempt_rooted, same_level.
Qed.

Lemma configuration_rooted (directory : string) (configurationPath : value) :
  isAbsolute directory = true ->
  _getFramentConfiguration W' directory configurationPath =
  _getFramentConfiguration W directory configurationPath.
Proof.
  intros Hd. unfold _getFramentConfiguration.
  destruct (truthy configurationPath); [ | reflexivity ].
  destruct configurationPath as [ | | b | n | q | items | props ];
    try reflexivity.
  unfold path_resolve_value. rewrite !bind_ret_l.
  rewrite (path_resolve_rooted (cwd W') (cwd W)) by assumption.
  rewrite existsSync_rooted by apply path_resolve_absolute.
  apply bind_ext. intros found _.
  destruct found; [ | reflexivity ].
  apply readFileSync_rooted, path_resolve_absolute.
Qed.

Lemma fragment_of_directory_rooted (directory : string) :
  isAbsolute directory = true ->
  fragment_of_directory W' directory = fragment_of_directory W directory.
Proof.
  intros Hd. unfold fragment_of_directory.
  rewrite readJSONSync_below_rooted by assumption.
  apply bind_ext. intros metadata _.
  apply bind_ext. intros htmlPath _.
  rewrite fragment_readFile_rooted by assumption.
  apply bind_ext. intros html _.
  apply bind_ext. intros cssPath _.
  rewrite fragment_readFile_rooted by assumption.
  apply bind_ext. intros css _.
  apply bind_ext. intros jsPath _.
  rewrite fragment_readFile_rooted by assumption.
  apply bind_ext. intros js _.
  apply bind_ext. intros configurationPath _.
  now rewrite configuration_rooted.
Qed.

Lemma composition_of_directory_rooted (directory : string) :
  isAbsolute directory = true ->
  composition_of_directory W' directory = composition_of_directory W directory.
Proof.
  intros Hd. unfold composition_of_directory.
  rewrite readJSONSync_below_rooted by assumption.
  apply bind_ext. intros metadata _.
  apply bind_ext. intros definitionPath _.
  now rewrite composition_readFile_rooted.
Qed.

Lemma pageTemplate_of_directory_rooted (directory : string) :
  isAbsolute directory = true ->
  pageTemplate_of_directory W' directory = pageTemplate_of_directory W directory.
Proof.
  intros Hd. unfold pageTemplate_of_directory.
  rewrite readJSONSync_below_rooted by assumption.
  apply bind_ext. intros metadata _.
  apply bind_ext. intros name _.
  rewrite readJSONSync_below_rooted by assumption.
  apply bind_ext. intros definition _.
  now rewrite (path_resolve_rooted (cwd W') (cwd W)), same_stringify.
Qed.

Lemma valid_marker_rooted (marker what directory : string) :
  isAbsolute directory = true ->
  valid_marker W' marker what directory = valid_marker W marker what directory.
Proof.
  intros Hd. unfold valid_marker. now rewrite readJSONSync_below_rooted.
Qed.

Lemma readdir_visible_rooted (r : list string) :
  readdir_visible W' (EmptyString :: r) = readdir_visible W (EmptyString :: r).
Proof.
  unfold readdir_visible. rewrite lookup_rooted; [ reflexivity | ].
  destruct r as [ | x r ]; reflexivity.
Qed.

Lemma glob_expand_rooted (segs : list string) (prefixes : list (list string)) :
  Forall (fun pre => exists r, pre = EmptyString :: r) prefixes ->
  glob_expand W' prefixes segs = glob_expand W prefixes segs
  /\ (segs <> [] ->
      Forall (fun pre => isAbsolute (join_slash pre) = true)
             (glob_expand W prefixes segs)).
Proof.
  revert prefixes. induction segs as [ | seg rest IH ]; intros prefixes Hrooted.
  - split; [ reflexivity | now intros [] ].
  - simpl.
    assert (Hsame :
      flat_map (fun pre => map (fun n => (pre ++ [n])%list) (readdir_visible W' pre))
               prefixes =
      flat_map (fun pre => map (fun n => (pre ++ [n])%list) (readdir_visible W pre))
               prefixes).
    { induction Hrooted as [ | pre prefixes [r ->] _ IHp ]; [ reflexivity | ].
      simpl. now rewrite readdir_visible_rooted, IHp. }
    rewrite Hsame.
    set (next := if seg =? "*" then _ else _).
    assert (Hdeep : Forall (fun pre => exists r n, pre = ((EmptyString :: r) ++ [n])%list)
                           next).
    { subst next. destruct (seg =? "*").
      - apply Forall_forall. intros pre Hpre.
        apply in_flat_map in Hpre as (pre0 & Hpre0 & Hpre).
        apply in_map_iff in Hpre as (n & <- & _).
        rewrite Forall_forall in Hrooted.
        destruct (Hrooted pre0 Hpre0) as [r ->]. now exists r, n.
      - apply Forall_forall. intros pre Hpre.
        apply in_map_iff in Hpre as (pre0 & <- & Hpre0).
        rewrite Forall_forall in Hrooted.
        destruct (Hrooted pre0 Hpre0) as [r ->]. now exists r, seg. }
    assert (Hnext : Forall (fun pre => exists r, pre = EmptyString :: r) next).
    { eapply Forall_impl; [ | exact Hdeep ].
      intros pre (r & n & ->). now eexists. }
    destruct (IH next Hnext) as [Hexpand Habsolute].
    split; [ exact Hexpand | intros _ ].
    destruct rest as [ | seg' rest ]; [ | now apply Habsolute ].
    simpl. eapply Forall_impl; [ | exact Hdeep ].
    intros pre (r & n & ->). apply join_slash_rooted.
Qed.

Lemma glob_matches_rooted (pattern : string) :
  isAbsolute pattern = true ->
  glob_matches W' pattern = glob_matches W pattern
  /\ Forall (fun found => isAbsolute found = true) (glob_matches W pattern).
Proof.
  intros Hp. unfold glob_matches.
  destruct (plain_pattern pattern).
  2: { rewrite Hp, same_glob. split; [ reflexivity | ].
       apply Forall_forall. intros found Hfound.
       apply in_map_iff in Hfound as (segs & <- & _). reflexivity. }
  unfold glob_walk.
  destruct pattern as [ | c pattern ]; [ discriminate | ].
  simpl in Hp. simpl split_slash. rewrite Hp.
  change (glob_expand ?V [[]] (EmptyString :: ?rest))
    with (glob_expand V [[EmptyString]] rest).
  destruct (glob_expand_rooted (split_slash pattern) [[EmptyString]])
    as [Hexpand Habsolute].
  { constructor; [ now eexists | constructor ]. }
  specialize (Habsolute (split_slash_not_nil pattern)).
  rewrite Hexpand. rewrite Forall_forall in Habsolute. split.
  - apply filter_ext_in. intros p Hin.
    apply in_map_iff in Hin as (pre & <- & Hpre).
    now rewrite lookup_rooted by now apply Habsolute.
  - apply Forall_forall. intros p Hin. apply filter_In in Hin as [Hin _].
    apply in_map_iff in Hin as (pre & <- & Hpre). now apply Habsolute.
Qed.

Lemma candidates_rooted (pattern : string) :
  isAbsolute pattern = true ->
  candidates W' pattern = candidates W pattern.
Proof.
  intros Hp. unfold candidates.
  destruct (glob_matches_rooted pattern Hp) as [-> Habsolute].
  apply map_ext_in. intros found Hfound.
  rewrite Forall_forall in Habsolute.
  now apply path_resolve_rooted, Habsolute.
Qed.

Lemma candidates_absolute (pattern d : string) :
  In d (candidates W pattern) -> isAbsolute d = true.
Proof.
  unfold candidates. intros Hin.
  apply in_map_iff in Hin as (found & <- & _). apply path_resolve_absolute.
Qed.

Lemma scan_rooted (pattern marker what : string) :
  isAbsolute pattern = true ->
  scan W' pattern marker what = scan W pattern marker what.
Proof.
  intros Hp. rewrite !scan_unfold, candidates_rooted by assumption.
  apply bind_ext. intros _ _.
  apply array_filter_ext_in. intros d Hd.
  apply valid_marker_rooted. now apply (candidates_absolute pattern).
Qed.

Lemma scan_then_map_rooted {A} (pattern marker what : string)
  (f g : string -> M A) :
  isAbsolute pattern = true ->
  (forall d, isAbsolute d = true -> f d = g d) ->
  (directories <- scan W' pattern marker what ;; array_map f directories) =
  (directories <- scan W pattern marker what ;; array_map g directories).
Proof.
  intros Hp Hfg. rewrite scan_rooted by assumption.
  apply bind_ext. intros directories Hscan.
  rewrite scan_result in Hscan. injection Hscan as <-.
  apply array_map_ext_in. intros d Hd.
  apply Hfg. apply filter_In in Hd as [Hd _].
  now apply (candidates_absolute pattern).
Qed.

Lemma getCollectionFragments_rooted (directory : string) :
  isAbsolute directory = true ->
  _getCollectionFragments W' directory = _getCollectionFragments W directory.
Proof.
  intros Hd. rewrite !getCollectionFragments_scan.
  apply scan_then_map_rooted; [ now apply path_join_rooted | ].
  apply fragment_of_directory_rooted.
Qed.

Lemma getCollectionFragmentCompositions_rooted (directory : string) :
  isAbsolute directory = true ->
  _getCollectionFragmentCompositions W' directory =
  _getCollectionFragmentCompositions W directory.
Proof.
  intros Hd. rewrite !getCollectionFragmentCompositions_scan.
  apply scan_then_map_rooted; [ now apply path_join_rooted | ].
  apply composition_of_directory_rooted.
Qed.

Lemma collection_of_directory_rooted (directory : string) :
  isAbsolute directory = true ->
  collection_of_directory W' directory = collection_of_directory W directory.
Proof.
  intros Hd. unfold collection_of_directory.
  rewrite readJSONSync_below_rooted by assumption.
  apply bind_ext. intros metadata _.
  rewrite getCollectionFragmentCompositions_rooted by assumption.
  apply bind_ext. intros compositions _.
  now rewrite getCollectionFragments_rooted.
Qed.

End WorkingDirectory.

(** X12: with an absolute base path the working directory plays no part.
    Two runs on the same file system, with the same [JSON], the same log
    level and the same [glob], return or throw the same and make the same
    reads and log entries in the same order, whatever their working
    directories are. (Every path the program builds is resolved against a
    path that is already absolute, and the matches of an absolute pattern
    are absolute paths.) *)
Theorem working_directory_is_irrelevant (W W' : Runtime) (basePath : string) :
  root W' = root W ->
  JSON_parse W' = JSON_parse W ->
  JSON_stringify W' = JSON_stringify W ->
  LOG_LEVEL_error W' = LOG_LEVEL_error W ->
  glob_magic W' = glob_magic W ->
  isAbsolute basePath = true ->
  getProjectContent W' basePath = getProjectContent W basePath
  /\ _getProjectCollections W' basePath = _getProjectCollections W basePath
  /\ _getPageTemplates W' basePath = _getPageTemplates W basePath.
Proof.
  intros Hroot Hparse Hstringify Hlevel Hglob Hbase.
  assert (Hcollections :
            _getProjectCollections W' basePath = _getProjectCollections W basePath).
  { rewrite !getProjectCollections_scan.
    apply scan_then_map_rooted; try assumption; [ now apply path_join_rooted | ].
    now apply collection_of_directory_rooted. }
  assert (Htemplates : _getPageTemplates W' basePath = _getPageTemplates W basePath).
  { rewrite !getPageTemplates_scan.
    apply scan_then_map_rooted; try assumption; [ now apply path_join_rooted | ].
    now apply pageTemplate_of_directory_rooted. }
  split; [ | now split ].
  unfold getProjectContent.
  rewrite (readJSONSync_below_rooted W W') by assumption.
  apply bind_ext. intros project _.
  rewrite Hcollections. apply bind_ext. intros collections _.
  now rewrite Htemplates.
Qed.

Lemma working_directory_is_irrelevant_witness :
  let elsewhere :=
    {| root := root Demo.full;
       cwd := "/proj/src/cards";
       JSON_parse := JSON_parse Demo.full;
       JSON_stringify := JSON_stringify Demo.full;
       LOG_LEVEL_error := LOG_LEVEL_error Demo.full;
       glob_magic := glob_magic Demo.full |} in
  isAbsolute "/proj" = true
  /\ getProjectContent elsewhere "/proj" = getProjectContent Demo.full "/proj"
  /\ (exists p, result (getProjectContent Demo.full "/proj") = Returned p)
  /\ result (getProjectContent elsewhere "../../proj")
     <> result (getProjectContent Demo.full "../../proj").
Proof.
  intros elsewhere.
  split; [ reflexivity | ].
  split.
  - apply (working_directory_is_irrelevant Demo.full elsewhere "/proj");
      reflexivity.
  - split; [ eexists; vm_compute; reflexivity | ].
    vm_compute. discriminate.
Defined.
